(** * HaasMachine: the per-machine simulation engine

    A shallow embedding of [HaasMachine.js] (class [HaasMachine]) and the
    fleet configuration of [server.js].

    Modelling conventions.
    - A JavaScript number is an exact rational ([Q]); integer counters
      ([partCount], [totalCycles], [totalCuts], the results of
      [Math.round] and [Math.floor]) are [Z].  Rounding error of IEEE
      doubles, NaN and infinities are outside the model.
    - [Math.random()] and [new Date()] read an environment: the [k]-th
      call returns [random_at k], resp. [date_at k].  The world threads
      the number of calls made so far, so a short-circuited
      [cond && Math.random() < p] consumes a draw only when [cond] holds,
      as in the source.
    - The object [this] is one record; methods are computations in a
      small reader/state monad over the world, written statement by
      statement in the order of the source.
    - Strings used as enumerations (machine type, execution mode, cycle
      phase) are inductive types.  Fields that the constructor creates
      for one machine type only are plain fields (0, resp. [None], for
      the other types): every read of them is behind the type test, and
      the ones tested for truthiness ([tools], [currentTool], [coolant])
      are options. *)

From Stdlib Require Import QArith Qround Qabs Lqa ZArith Lia.
From stdpp Require Import base list strings gmap pretty.

Local Open Scope Q_scope.

(** ** Numbers *)

Definition Qltb (a b : Q) : bool := negb (Qle_bool b a).
Definition Qgtb (a b : Q) : bool := Qltb b a.
Definition Qgeb (a b : Q) : bool := Qle_bool b a.

(** [Math.max(a, b)] and [Math.min(a, b)]. *)
Definition Math_max (a b : Q) : Q := if Qle_bool a b then b else a.
Definition Math_min (a b : Q) : Q := if Qle_bool a b then a else b.

(** [Math.floor(x)]; [Math.round(x)] rounds to the nearest integer, a tie
    going up. *)
Definition Math_floor (x : Q) : Z := Qfloor x.
Definition Math_round (x : Q) : Z := Qfloor (x + 1 / 2).

(** [10^d] as a rational. *)
Definition pow10 (d : nat) : Q := inject_Z (10 ^ Z.of_nat d).

(** [parseFloat(x.toFixed(d))]: the multiple of [10^-d] nearest to [x], a
    tie going away from zero.  (Above [1e21] the source's [toFixed]
    prints the number itself, which is an integer there; rounding to a
    multiple of [10^-d] leaves an integer unchanged as well.) *)
Definition toFixed (d : nat) (x : Q) : Q :=
  if Qltb x 0
  then - (inject_Z (Qfloor ((- x) * pow10 d + 1 / 2)) / pow10 d)
  else inject_Z (Qfloor (x * pow10 d + 1 / 2)) / pow10 d.

(** [x % y] on numbers: the remainder has the sign of the dividend. *)
Definition Qtrunc (x : Q) : Z := if Qltb x 0 then Qceiling x else Qfloor x.
Definition Qrem (x y : Q) : Q := x - y * inject_Z (Qtrunc (x / y)).

(** ** Enumerations *)

Inductive MachineType := CNC_MILL | LATHE | PRESS_BRAKE | LASER.

Module Exec.
Inductive t := IDLE | RUNNING | ALARM | STOPPED.
End Exec.

Module Phase.
Inductive t :=
  IDLE | SPINDLE_RAMP | RAPID | CUTTING | RETRACT | DWELL | FINISH | RUNNING.
End Phase.

#[global] Instance MachineType_eq_dec : EqDecision MachineType.
Proof. solve_decision. Defined.
#[global] Instance Exec_eq_dec : EqDecision Exec.t.
Proof. solve_decision. Defined.
#[global] Instance Phase_eq_dec : EqDecision Phase.t.
Proof. solve_decision. Defined.

(** [type === 'CNC_MILL' || type === 'LATHE'] *)
Definition isCNC (ty : MachineType) : bool :=
  match ty with CNC_MILL | LATHE => true | _ => false end.

(** ** Nested objects *)

(** [{ X: .., Y: .., Z: .. }] *)
Record Axes := mkAxes { axX : Q; axY : Q; axZ : Q }.

(** [axisLimits]: per axis the array [[lo, hi]]. *)
Record Limits := mkLimits { limX : Q * Q; limY : Q * Q; limZ : Q * Q }.

Record Specs := mkSpecs {
  axisLimits : Limits;
  spindlePower : Q;
  maxRPM : Q;
  rapidTraverse : Q;
  toolCapacity : nat
}.

Module Tool.
Record t := mk {
  number : nat;
  type : string;
  diameter : Q;      (* the source keeps the [toFixed(2)] string *)
  length : Q;        (* idem *)
  currentLife : Q;
  maxLife : Q;
  flutes : Z;
  coating : string;
  description : string;
  inUse : bool;
  totalCuts : Z
}.
Definition set_currentLife (v : Q) (x : t) : t :=
  mk (number x) (type x) (diameter x) (length x) v (maxLife x) (flutes x)
     (coating x) (description x) (inUse x) (totalCuts x).
Definition set_inUse (v : bool) (x : t) : t :=
  mk (number x) (type x) (diameter x) (length x) (currentLife x) (maxLife x)
     (flutes x) (coating x) (description x) v (totalCuts x).
Definition set_totalCuts (v : Z) (x : t) : t :=
  mk (number x) (type x) (diameter x) (length x) (currentLife x) (maxLife x)
     (flutes x) (coating x) (description x) (inUse x) v.
End Tool.

Module Coolant.
Record t := mk { level : Q; pressure : Q; temperature : Q; flow : Q }.
Definition set_level (v : Q) (c : t) : t :=
  mk v (pressure c) (temperature c) (flow c).
Definition set_pressure (v : Q) (c : t) : t :=
  mk (level c) v (temperature c) (flow c).
Definition set_temperature (v : Q) (c : t) : t :=
  mk (level c) (pressure c) v (flow c).
Definition set_flow (v : Q) (c : t) : t :=
  mk (level c) (pressure c) (temperature c) v.
End Coolant.

(** One entry of [alarmHistory]. *)
Module AlarmEntry.
Record t := mk {
  code : option Z;
  message : string;
  timestamp : Z;       (* [new Date().toISOString()] *)
  cyclePhase : Phase.t;
  spindleLoad : Q;
  cleared : bool
}.
Definition set_cleared (v : bool) (e : t) : t :=
  mk (code e) (message e) (timestamp e) (cyclePhase e) (spindleLoad e) v.
End AlarmEntry.

(** One entry of [warnings]. *)
Module Warning.
Record t := mk { type : string; severity : string; message : string }.
End Warning.

#[global] Instance Warning_eq_dec : EqDecision Warning.t.
Proof. solve_decision. Defined.
(** ** The machine object *)

Record Machine := mkMachine {
  id : string;
  name : string;
  model : string;
  type : MachineType;
  specs : Specs;
  power : bool;   (* core state *)
  execution : Exec.t;
  cyclePhase : Phase.t;
  timeInPhase : Q;
  cycleTimeTarget : Q;
  alarm : option string;   (* alarms *)
  alarmCode : option Z;
  alarmHistory : list AlarmEntry.t;
  warnings : list Warning.t;
  spindleSpeed : Q;   (* spindle *)
  targetSpindleSpeed : Q;
  spindleLoad : Q;
  spindleTemp : Q;
  spindleHours : Q;
  spindleOrientation : Q;
  feedRate : Q;   (* feed and motion *)
  targetFeed : Q;
  rapidRate : Q;
  axisPositions : Axes;
  servoLoad : Axes;   (* servo monitoring *)
  servoFollowingError : Axes;
  servoTemp : Axes;
  partCount : Z;   (* production metrics *)
  totalCycles : Z;
  machineOnHours : Q;
  productionRate : Z;
  batteryVoltage : Q;   (* health monitoring *)
  temperature : Q;
  vibration : Q;
  currentAmps : Q;
  oilPressure : Q;
  oilLevel : Q;
  currentTool : option nat;   (* tool management (CNC_MILL, LATHE) *)
  tools : option (list Tool.t);
  toolChangeCount : Z;
  toolWear : Q;
  coolant : option Coolant.t;
  tonnage : Q;   (* PRESS_BRAKE *)
  maxTonnage : Q;
  ramPosition : Q;
  backGauge : Q;
  bendAngle : Q;
  laserPower : Q;   (* LASER *)
  maxLaserPower : Q;
  gasPressure : Q;
  resonatorTemp : Q;
  cutSpeed : Q;
  material : option string;
  programRunning : option string;
  timestamp : Z
}.

(** Field assignment [this.f = v], one function per assigned field. *)

Definition set_power (v : bool) (m : Machine) : Machine :=
  mkMachine
    (id m) (name m) (model m) (type m) (specs m) v (execution m)
    (cyclePhase m) (timeInPhase m) (cycleTimeTarget m) (alarm m)
    (alarmCode m) (alarmHistory m) (warnings m) (spindleSpeed m)
    (targetSpindleSpeed m) (spindleLoad m) (spindleTemp m) (spindleHours m)
    (spindleOrientation m) (feedRate m) (targetFeed m) (rapidRate m)
    (axisPositions m) (servoLoad m) (servoFollowingError m) (servoTemp m)
    (partCount m) (totalCycles m) (machineOnHours m) (productionRate m)
    (batteryVoltage m) (temperature m) (vibration m) (currentAmps m)
    (oilPressure m) (oilLevel m) (currentTool m) (tools m)
    (toolChangeCount m) (toolWear m) (coolant m) (tonnage m) (maxTonnage m)
    (ramPosition m) (backGauge m) (bendAngle m) (laserPower m)
    (maxLaserPower m) (gasPressure m) (resonatorTemp m) (cutSpeed m)
    (material m) (programRunning m) (timestamp m).
Definition set_execution (v : Exec.t) (m : Machine) : Machine :=
  mkMachine
    (id m) (name m) (model m) (type m) (specs m) (power m) v (cyclePhase m)
    (timeInPhase m) (cycleTimeTarget m) (alarm m) (alarmCode m)
    (alarmHistory m) (warnings m) (spindleSpeed m) (targetSpindleSpeed m)
    (spindleLoad m) (spindleTemp m) (spindleHours m) (spindleOrientation m)
    (feedRate m) (targetFeed m) (rapidRate m) (axisPositions m) (servoLoad m)
    (servoFollowingError m) (servoTemp m) (partCount m) (totalCycles m)
    (machineOnHours m) (productionRate m) (batteryVoltage m) (temperature m)
    (vibration m) (currentAmps m) (oilPressure m) (oilLevel m)
    (currentTool m) (tools m) (toolChangeCount m) (toolWear m) (coolant m)
    (tonnage m) (maxTonnage m) (ramPosition m) (backGauge m) (bendAngle m)
    (laserPower m) (maxLaserPower m) (gasPressure m) (resonatorTemp m)
    (cutSpeed m) (material m) (programRunning m) (timestamp m).
Definition set_cyclePhase (v : Phase.t) (m : Machine) : Machine :=
  mkMachine
    (id m) (name m) (model m) (type m) (specs m) (power m) (execution m) v
    (timeInPhase m) (cycleTimeTarget m) (alarm m) (alarmCode m)
    (alarmHistory m) (warnings m) (spindleSpeed m) (targetSpindleSpeed m)
    (spindleLoad m) (spindleTemp m) (spindleHours m) (spindleOrientation m)
    (feedRate m) (targetFeed m) (rapidRate m) (axisPositions m) (servoLoad m)
    (servoFollowingError m) (servoTemp m) (partCount m) (totalCycles m)
    (machineOnHours m) (productionRate m) (batteryVoltage m) (temperature m)
    (vibration m) (currentAmps m) (oilPressure m) (oilLevel m)
    (currentTool m) (tools m) (toolChangeCount m) (toolWear m) (coolant m)
    (tonnage m) (maxTonnage m) (ramPosition m) (backGauge m) (bendAngle m)
    (laserPower m) (maxLaserPower m) (gasPressure m) (resonatorTemp m)
    (cutSpeed m) (material m) (programRunning m) (timestamp m).
Definition set_timeInPhase (v : Q) (m : Machine) : Machine :=
  mkMachine
    (id m) (name m) (model m) (type m) (specs m) (power m) (execution m)
    (cyclePhase m) v (cycleTimeTarget m) (alarm m) (alarmCode m)
    (alarmHistory m) (warnings m) (spindleSpeed m) (targetSpindleSpeed m)
    (spindleLoad m) (spindleTemp m) (spindleHours m) (spindleOrientation m)
    (feedRate m) (targetFeed m) (rapidRate m) (axisPositions m) (servoLoad m)
    (servoFollowingError m) (servoTemp m) (partCount m) (totalCycles m)
    (machineOnHours m) (productionRate m) (batteryVoltage m) (temperature m)
    (vibration m) (currentAmps m) (oilPressure m) (oilLevel m)
    (currentTool m) (tools m) (toolChangeCount m) (toolWear m) (coolant m)
    (tonnage m) (maxTonnage m) (ramPosition m) (backGauge m) (bendAngle m)
    (laserPower m) (maxLaserPower m) (gasPressure m) (resonatorTemp m)
    (cutSpeed m) (material m) (programRunning m) (timestamp m).
Definition set_cycleTimeTarget (v : Q) (m : Machine) : Machine :=
  mkMachine
    (id m) (name m) (model m) (type m) (specs m) (power m) (execution m)
    (cyclePhase m) (timeInPhase m) v (alarm m) (alarmCode m) (alarmHistory m)
    (warnings m) (spindleSpeed m) (targetSpindleSpeed m) (spindleLoad m)
    (spindleTemp m) (spindleHours m) (spindleOrientation m) (feedRate m)
    (targetFeed m) (rapidRate m) (axisPositions m) (servoLoad m)
    (servoFollowingError m) (servoTemp m) (partCount m) (totalCycles m)
    (machineOnHours m) (productionRate m) (batteryVoltage m) (temperature m)
    (vibration m) (currentAmps m) (oilPressure m) (oilLevel m)
    (currentTool m) (tools m) (toolChangeCount m) (toolWear m) (coolant m)
    (tonnage m) (maxTonnage m) (ramPosition m) (backGauge m) (bendAngle m)
    (laserPower m) (maxLaserPower m) (gasPressure m) (resonatorTemp m)
    (cutSpeed m) (material m) (programRunning m) (timestamp m).
Definition set_alarm (v : option string) (m : Machine) : Machine :=
  mkMachine
    (id m) (name m) (model m) (type m) (specs m) (power m) (execution m)
    (cyclePhase m) (timeInPhase m) (cycleTimeTarget m) v (alarmCode m)
    (alarmHistory m) (warnings m) (spindleSpeed m) (targetSpindleSpeed m)
    (spindleLoad m) (spindleTemp m) (spindleHours m) (spindleOrientation m)
    (feedRate m) (targetFeed m) (rapidRate m) (axisPositions m) (servoLoad m)
    (servoFollowingError m) (servoTemp m) (partCount m) (totalCycles m)
    (machineOnHours m) (productionRate m) (batteryVoltage m) (temperature m)
    (vibration m) (currentAmps m) (oilPressure m) (oilLevel m)
    (currentTool m) (tools m) (toolChangeCount m) (toolWear m) (coolant m)
    (tonnage m) (maxTonnage m) (ramPosition m) (backGauge m) (bendAngle m)
    (laserPower m) (maxLaserPower m) (gasPressure m) (resonatorTemp m)
    (cutSpeed m) (material m) (programRunning m) (timestamp m).
Definition set_alarmCode (v : option Z) (m : Machine) : Machine :=
  mkMachine
    (id m) (name m) (model m) (type m) (specs m) (power m) (execution m)
    (cyclePhase m) (timeInPhase m) (cycleTimeTarget m) (alarm m) v
    (alarmHistory m) (warnings m) (spindleSpeed m) (targetSpindleSpeed m)
    (spindleLoad m) (spindleTemp m) (spindleHours m) (spindleOrientation m)
    (feedRate m) (targetFeed m) (rapidRate m) (axisPositions m) (servoLoad m)
    (servoFollowingError m) (servoTemp m) (partCount m) (totalCycles m)
    (machineOnHours m) (productionRate m) (batteryVoltage m) (temperature m)
    (vibration m) (currentAmps m) (oilPressure m) (oilLevel m)
    (currentTool m) (tools m) (toolChangeCount m) (toolWear m) (coolant m)
    (tonnage m) (maxTonnage m) (ramPosition m) (backGauge m) (bendAngle m)
    (laserPower m) (maxLaserPower m) (gasPressure m) (resonatorTemp m)
    (cutSpeed m) (material m) (programRunning m) (timestamp m).
Definition set_alarmHistory (v : list AlarmEntry.t) (m : Machine) : Machine :=
  mkMachine
    (id m) (name m) (model m) (type m) (specs m) (power m) (execution m)
    (cyclePhase m) (timeInPhase m) (cycleTimeTarget m) (alarm m)
    (alarmCode m) v (warnings m) (spindleSpeed m) (targetSpindleSpeed m)
    (spindleLoad m) (spindleTemp m) (spindleHours m) (spindleOrientation m)
    (feedRate m) (targetFeed m) (rapidRate m) (axisPositions m) (servoLoad m)
    (servoFollowingError m) (servoTemp m) (partCount m) (totalCycles m)
    (machineOnHours m) (productionRate m) (batteryVoltage m) (temperature m)
    (vibration m) (currentAmps m) (oilPressure m) (oilLevel m)
    (currentTool m) (tools m) (toolChangeCount m) (toolWear m) (coolant m)
    (tonnage m) (maxTonnage m) (ramPosition m) (backGauge m) (bendAngle m)
    (laserPower m) (maxLaserPower m) (gasPressure m) (resonatorTemp m)
    (cutSpeed m) (material m) (programRunning m) (timestamp m).
Definition set_warnings (v : list Warning.t) (m : Machine) : Machine :=
  mkMachine
    (id m) (name m) (model m) (type m) (specs m) (power m) (execution m)
    (cyclePhase m) (timeInPhase m) (cycleTimeTarget m) (alarm m)
    (alarmCode m) (alarmHistory m) v (spindleSpeed m) (targetSpindleSpeed m)
    (spindleLoad m) (spindleTemp m) (spindleHours m) (spindleOrientation m)
    (feedRate m) (targetFeed m) (rapidRate m) (axisPositions m) (servoLoad m)
    (servoFollowingError m) (servoTemp m) (partCount m) (totalCycles m)
    (machineOnHours m) (productionRate m) (batteryVoltage m) (temperature m)
    (vibration m) (currentAmps m) (oilPressure m) (oilLevel m)
    (currentTool m) (tools m) (toolChangeCount m) (toolWear m) (coolant m)
    (tonnage m) (maxTonnage m) (ramPosition m) (backGauge m) (bendAngle m)
    (laserPower m) (maxLaserPower m) (gasPressure m) (resonatorTemp m)
    (cutSpeed m) (material m) (programRunning m) (timestamp m).
Definition set_spindleSpeed (v : Q) (m : Machine) : Machine :=
  mkMachine
    (id m) (name m) (model m) (type m) (specs m) (power m) (execution m)
    (cyclePhase m) (timeInPhase m) (cycleTimeTarget m) (alarm m)
    (alarmCode m) (alarmHistory m) (warnings m) v (targetSpindleSpeed m)
    (spindleLoad m) (spindleTemp m) (spindleHours m) (spindleOrientation m)
    (feedRate m) (targetFeed m) (rapidRate m) (axisPositions m) (servoLoad m)
    (servoFollowingError m) (servoTemp m) (partCount m) (totalCycles m)
    (machineOnHours m) (productionRate m) (batteryVoltage m) (temperature m)
    (vibration m) (currentAmps m) (oilPressure m) (oilLevel m)
    (currentTool m) (tools m) (toolChangeCount m) (toolWear m) (coolant m)
    (tonnage m) (maxTonnage m) (ramPosition m) (backGauge m) (bendAngle m)
    (laserPower m) (maxLaserPower m) (gasPressure m) (resonatorTemp m)
    (cutSpeed m) (material m) (programRunning m) (timestamp m).
Definition set_targetSpindleSpeed (v : Q) (m : Machine) : Machine :=
  mkMachine
    (id m) (name m) (model m) (type m) (specs m) (power m) (execution m)
    (cyclePhase m) (timeInPhase m) (cycleTimeTarget m) (alarm m)
    (alarmCode m) (alarmHistory m) (warnings m) (spindleSpeed m) v
    (spindleLoad m) (spindleTemp m) (spindleHours m) (spindleOrientation m)
    (feedRate m) (targetFeed m) (rapidRate m) (axisPositions m) (servoLoad m)
    (servoFollowingError m) (servoTemp m) (partCount m) (totalCycles m)
    (machineOnHours m) (productionRate m) (batteryVoltage m) (temperature m)
    (vibration m) (currentAmps m) (oilPressure m) (oilLevel m)
    (currentTool m) (tools m) (toolChangeCount m) (toolWear m) (coolant m)
    (tonnage m) (maxTonnage m) (ramPosition m) (backGauge m) (bendAngle m)
    (laserPower m) (maxLaserPower m) (gasPressure m) (resonatorTemp m)
    (cutSpeed m) (material m) (programRunning m) (timestamp m).
Definition set_spindleLoad (v : Q) (m : Machine) : Machine :=
  mkMachine
    (id m) (name m) (model m) (type m) (specs m) (power m) (execution m)
    (cyclePhase m) (timeInPhase m) (cycleTimeTarget m) (alarm m)
    (alarmCode m) (alarmHistory m) (warnings m) (spindleSpeed m)
    (targetSpindleSpeed m) v (spindleTemp m) (spindleHours m)
    (spindleOrientation m) (feedRate m) (targetFeed m) (rapidRate m)
    (axisPositions m) (servoLoad m) (servoFollowingError m) (servoTemp m)
    (partCount m) (totalCycles m) (machineOnHours m) (productionRate m)
    (batteryVoltage m) (temperature m) (vibration m) (currentAmps m)
    (oilPressure m) (oilLevel m) (currentTool m) (tools m)
    (toolChangeCount m) (toolWear m) (coolant m) (tonnage m) (maxTonnage m)
    (ramPosition m) (backGauge m) (bendAngle m) (laserPower m)
    (maxLaserPower m) (gasPressure m) (resonatorTemp m) (cutSpeed m)
    (material m) (programRunning m) (timestamp m).
Definition set_spindleTemp (v : Q) (m : Machine) : Machine :=
  mkMachine
    (id m) (name m) (model m) (type m) (specs m) (power m) (execution m)
    (cyclePhase m) (timeInPhase m) (cycleTimeTarget m) (alarm m)
    (alarmCode m) (alarmHistory m) (warnings m) (spindleSpeed m)
    (targetSpindleSpeed m) (spindleLoad m) v (spindleHours m)
    (spindleOrientation m) (feedRate m) (targetFeed m) (rapidRate m)
    (axisPositions m) (servoLoad m) (servoFollowingError m) (servoTemp m)
    (partCount m) (totalCycles m) (machineOnHours m) (productionRate m)
    (batteryVoltage m) (temperature m) (vibration m) (currentAmps m)
    (oilPressure m) (oilLevel m) (currentTool m) (tools m)
    (toolChangeCount m) (toolWear m) (coolant m) (tonnage m) (maxTonnage m)
    (ramPosition m) (backGauge m) (bendAngle m) (laserPower m)
    (maxLaserPower m) (gasPressure m) (resonatorTemp m) (cutSpeed m)
    (material m) (programRunning m) (timestamp m).
Definition set_spindleHours (v : Q) (m : Machine) : Machine :=
  mkMachine
    (id m) (name m) (model m) (type m) (specs m) (power m) (execution m)
    (cyclePhase m) (timeInPhase m) (cycleTimeTarget m) (alarm m)
    (alarmCode m) (alarmHistory m) (warnings m) (spindleSpeed m)
    (targetSpindleSpeed m) (spindleLoad m) (spindleTemp m) v
    (spindleOrientation m) (feedRate m) (targetFeed m) (rapidRate m)
    (axisPositions m) (servoLoad m) (servoFollowingError m) (servoTemp m)
    (partCount m) (totalCycles m) (machineOnHours m) (productionRate m)
    (batteryVoltage m) (temperature m) (vibration m) (currentAmps m)
    (oilPressure m) (oilLevel m) (currentTool m) (tools m)
    (toolChangeCount m) (toolWear m) (coolant m) (tonnage m) (maxTonnage m)
    (ramPosition m) (backGauge m) (bendAngle m) (laserPower m)
    (maxLaserPower m) (gasPressure m) (resonatorTemp m) (cutSpeed m)
    (material m) (programRunning m) (timestamp m).
Definition set_spindleOrientation (v : Q) (m : Machine) : Machine :=
  mkMachine
    (id m) (name m) (model m) (type m) (specs m) (power m) (execution m)
    (cyclePhase m) (timeInPhase m) (cycleTimeTarget m) (alarm m)
    (alarmCode m) (alarmHistory m) (warnings m) (spindleSpeed m)
    (targetSpindleSpeed m) (spindleLoad m) (spindleTemp m) (spindleHours m) v
    (feedRate m) (targetFeed m) (rapidRate m) (axisPositions m) (servoLoad m)
    (servoFollowingError m) (servoTemp m) (partCount m) (totalCycles m)
    (machineOnHours m) (productionRate m) (batteryVoltage m) (temperature m)
    (vibration m) (currentAmps m) (oilPressure m) (oilLevel m)
    (currentTool m) (tools m) (toolChangeCount m) (toolWear m) (coolant m)
    (tonnage m) (maxTonnage m) (ramPosition m) (backGauge m) (bendAngle m)
    (laserPower m) (maxLaserPower m) (gasPressure m) (resonatorTemp m)
    (cutSpeed m) (material m) (programRunning m) (timestamp m).
Definition set_feedRate (v : Q) (m : Machine) : Machine :=
  mkMachine
    (id m) (name m) (model m) (type m) (specs m) (power m) (execution m)
    (cyclePhase m) (timeInPhase m) (cycleTimeTarget m) (alarm m)
    (alarmCode m) (alarmHistory m) (warnings m) (spindleSpeed m)
    (targetSpindleSpeed m) (spindleLoad m) (spindleTemp m) (spindleHours m)
    (spindleOrientation m) v (targetFeed m) (rapidRate m) (axisPositions m)
    (servoLoad m) (servoFollowingError m) (servoTemp m) (partCount m)
    (totalCycles m) (machineOnHours m) (productionRate m) (batteryVoltage m)
    (temperature m) (vibration m) (currentAmps m) (oilPressure m)
    (oilLevel m) (currentTool m) (tools m) (toolChangeCount m) (toolWear m)
    (coolant m) (tonnage m) (maxTonnage m) (ramPosition m) (backGauge m)
    (bendAngle m) (laserPower m) (maxLaserPower m) (gasPressure m)
    (resonatorTemp m) (cutSpeed m) (material m) (programRunning m)
    (timestamp m).
Definition set_targetFeed (v : Q) (m : Machine) : Machine :=
  mkMachine
    (id m) (name m) (model m) (type m) (specs m) (power m) (execution m)
    (cyclePhase m) (timeInPhase m) (cycleTimeTarget m) (alarm m)
    (alarmCode m) (alarmHistory m) (warnings m) (spindleSpeed m)
    (targetSpindleSpeed m) (spindleLoad m) (spindleTemp m) (spindleHours m)
    (spindleOrientation m) (feedRate m) v (rapidRate m) (axisPositions m)
    (servoLoad m) (servoFollowingError m) (servoTemp m) (partCount m)
    (totalCycles m) (machineOnHours m) (productionRate m) (batteryVoltage m)
    (temperature m) (vibration m) (currentAmps m) (oilPressure m)
    (oilLevel m) (currentTool m) (tools m) (toolChangeCount m) (toolWear m)
    (coolant m) (tonnage m) (maxTonnage m) (ramPosition m) (backGauge m)
    (bendAngle m) (laserPower m) (maxLaserPower m) (gasPressure m)
    (resonatorTemp m) (cutSpeed m) (material m) (programRunning m)
    (timestamp m).
Definition set_rapidRate (v : Q) (m : Machine) : Machine :=
  mkMachine
    (id m) (name m) (model m) (type m) (specs m) (power m) (execution m)
    (cyclePhase m) (timeInPhase m) (cycleTimeTarget m) (alarm m)
    (alarmCode m) (alarmHistory m) (warnings m) (spindleSpeed m)
    (targetSpindleSpeed m) (spindleLoad m) (spindleTemp m) (spindleHours m)
    (spindleOrientation m) (feedRate m) (targetFeed m) v (axisPositions m)
    (servoLoad m) (servoFollowingError m) (servoTemp m) (partCount m)
    (totalCycles m) (machineOnHours m) (productionRate m) (batteryVoltage m)
    (temperature m) (vibration m) (currentAmps m) (oilPressure m)
    (oilLevel m) (currentTool m) (tools m) (toolChangeCount m) (toolWear m)
    (coolant m) (tonnage m) (maxTonnage m) (ramPosition m) (backGauge m)
    (bendAngle m) (laserPower m) (maxLaserPower m) (gasPressure m)
    (resonatorTemp m) (cutSpeed m) (material m) (programRunning m)
    (timestamp m).
Definition set_axisPositions (v : Axes) (m : Machine) : Machine :=
  mkMachine
    (id m) (name m) (model m) (type m) (specs m) (power m) (execution m)
    (cyclePhase m) (timeInPhase m) (cycleTimeTarget m) (alarm m)
    (alarmCode m) (alarmHistory m) (warnings m) (spindleSpeed m)
    (targetSpindleSpeed m) (spindleLoad m) (spindleTemp m) (spindleHours m)
    (spindleOrientation m) (feedRate m) (targetFeed m) (rapidRate m) v
    (servoLoad m) (servoFollowingError m) (servoTemp m) (partCount m)
    (totalCycles m) (machineOnHours m) (productionRate m) (batteryVoltage m)
    (temperature m) (vibration m) (currentAmps m) (oilPressure m)
    (oilLevel m) (currentTool m) (tools m) (toolChangeCount m) (toolWear m)
    (coolant m) (tonnage m) (maxTonnage m) (ramPosition m) (backGauge m)
    (bendAngle m) (laserPower m) (maxLaserPower m) (gasPressure m)
    (resonatorTemp m) (cutSpeed m) (material m) (programRunning m)
    (timestamp m).
Definition set_servoLoad (v : Axes) (m : Machine) : Machine :=
  mkMachine
    (id m) (name m) (model m) (type m) (specs m) (power m) (execution m)
    (cyclePhase m) (timeInPhase m) (cycleTimeTarget m) (alarm m)
    (alarmCode m) (alarmHistory m) (warnings m) (spindleSpeed m)
    (targetSpindleSpeed m) (spindleLoad m) (spindleTemp m) (spindleHours m)
    (spindleOrientation m) (feedRate m) (targetFeed m) (rapidRate m)
    (axisPositions m) v (servoFollowingError m) (servoTemp m) (partCount m)
    (totalCycles m) (machineOnHours m) (productionRate m) (batteryVoltage m)
    (temperature m) (vibration m) (currentAmps m) (oilPressure m)
    (oilLevel m) (currentTool m) (tools m) (toolChangeCount m) (toolWear m)
    (coolant m) (tonnage m) (maxTonnage m) (ramPosition m) (backGauge m)
    (bendAngle m) (laserPower m) (maxLaserPower m) (gasPressure m)
    (resonatorTemp m) (cutSpeed m) (material m) (programRunning m)
    (timestamp m).
Definition set_servoFollowingError (v : Axes) (m : Machine) : Machine :=
  mkMachine
    (id m) (name m) (model m) (type m) (specs m) (power m) (execution m)
    (cyclePhase m) (timeInPhase m) (cycleTimeTarget m) (alarm m)
    (alarmCode m) (alarmHistory m) (warnings m) (spindleSpeed m)
    (targetSpindleSpeed m) (spindleLoad m) (spindleTemp m) (spindleHours m)
    (spindleOrientation m) (feedRate m) (targetFeed m) (rapidRate m)
    (axisPositions m) (servoLoad m) v (servoTemp m) (partCount m)
    (totalCycles m) (machineOnHours m) (productionRate m) (batteryVoltage m)
    (temperature m) (vibration m) (currentAmps m) (oilPressure m)
    (oilLevel m) (currentTool m) (tools m) (toolChangeCount m) (toolWear m)
    (coolant m) (tonnage m) (maxTonnage m) (ramPosition m) (backGauge m)
    (bendAngle m) (laserPower m) (maxLaserPower m) (gasPressure m)
    (resonatorTemp m) (cutSpeed m) (material m) (programRunning m)
    (timestamp m).
Definition set_servoTemp (v : Axes) (m : Machine) : Machine :=
  mkMachine
    (id m) (name m) (model m) (type m) (specs m) (power m) (execution m)
    (cyclePhase m) (timeInPhase m) (cycleTimeTarget m) (alarm m)
    (alarmCode m) (alarmHistory m) (warnings m) (spindleSpeed m)
    (targetSpindleSpeed m) (spindleLoad m) (spindleTemp m) (spindleHours m)
    (spindleOrientation m) (feedRate m) (targetFeed m) (rapidRate m)
    (axisPositions m) (servoLoad m) (servoFollowingError m) v (partCount m)
    (totalCycles m) (machineOnHours m) (productionRate m) (batteryVoltage m)
    (temperature m) (vibration m) (currentAmps m) (oilPressure m)
    (oilLevel m) (currentTool m) (tools m) (toolChangeCount m) (toolWear m)
    (coolant m) (tonnage m) (maxTonnage m) (ramPosition m) (backGauge m)
    (bendAngle m) (laserPower m) (maxLaserPower m) (gasPressure m)
    (resonatorTemp m) (cutSpeed m) (material m) (programRunning m)
    (timestamp m).
Definition set_partCount (v : Z) (m : Machine) : Machine :=
  mkMachine
    (id m) (name m) (model m) (type m) (specs m) (power m) (execution m)
    (cyclePhase m) (timeInPhase m) (cycleTimeTarget m) (alarm m)
    (alarmCode m) (alarmHistory m) (warnings m) (spindleSpeed m)
    (targetSpindleSpeed m) (spindleLoad m) (spindleTemp m) (spindleHours m)
    (spindleOrientation m) (feedRate m) (targetFeed m) (rapidRate m)
    (axisPositions m) (servoLoad m) (servoFollowingError m) (servoTemp m) v
    (totalCycles m) (machineOnHours m) (productionRate m) (batteryVoltage m)
    (temperature m) (vibration m) (currentAmps m) (oilPressure m)
    (oilLevel m) (currentTool m) (tools m) (toolChangeCount m) (toolWear m)
    (coolant m) (tonnage m) (maxTonnage m) (ramPosition m) (backGauge m)
    (bendAngle m) (laserPower m) (maxLaserPower m) (gasPressure m)
    (resonatorTemp m) (cutSpeed m) (material m) (programRunning m)
    (timestamp m).
Definition set_totalCycles (v : Z) (m : Machine) : Machine :=
  mkMachine
    (id m) (name m) (model m) (type m) (specs m) (power m) (execution m)
    (cyclePhase m) (timeInPhase m) (cycleTimeTarget m) (alarm m)
    (alarmCode m) (alarmHistory m) (warnings m) (spindleSpeed m)
    (targetSpindleSpeed m) (spindleLoad m) (spindleTemp m) (spindleHours m)
    (spindleOrientation m) (feedRate m) (targetFeed m) (rapidRate m)
    (axisPositions m) (servoLoad m) (servoFollowingError m) (servoTemp m)
    (partCount m) v (machineOnHours m) (productionRate m) (batteryVoltage m)
    (temperature m) (vibration m) (currentAmps m) (oilPressure m)
    (oilLevel m) (currentTool m) (tools m) (toolChangeCount m) (toolWear m)
    (coolant m) (tonnage m) (maxTonnage m) (ramPosition m) (backGauge m)
    (bendAngle m) (laserPower m) (maxLaserPower m) (gasPressure m)
    (resonatorTemp m) (cutSpeed m) (material m) (programRunning m)
    (timestamp m).
Definition set_machineOnHours (v : Q) (m : Machine) : Machine :=
  mkMachine
    (id m) (name m) (model m) (type m) (specs m) (power m) (execution m)
    (cyclePhase m) (timeInPhase m) (cycleTimeTarget m) (alarm m)
    (alarmCode m) (alarmHistory m) (warnings m) (spindleSpeed m)
    (targetSpindleSpeed m) (spindleLoad m) (spindleTemp m) (spindleHours m)
    (spindleOrientation m) (feedRate m) (targetFeed m) (rapidRate m)
    (axisPositions m) (servoLoad m) (servoFollowingError m) (servoTemp m)
    (partCount m) (totalCycles m) v (productionRate m) (batteryVoltage m)
    (temperature m) (vibration m) (currentAmps m) (oilPressure m)
    (oilLevel m) (currentTool m) (tools m) (toolChangeCount m) (toolWear m)
    (coolant m) (tonnage m) (maxTonnage m) (ramPosition m) (backGauge m)
    (bendAngle m) (laserPower m) (maxLaserPower m) (gasPressure m)
    (resonatorTemp m) (cutSpeed m) (material m) (programRunning m)
    (timestamp m).
Definition set_productionRate (v : Z) (m : Machine) : Machine :=
  mkMachine
    (id m) (name m) (model m) (type m) (specs m) (power m) (execution m)
    (cyclePhase m) (timeInPhase m) (cycleTimeTarget m) (alarm m)
    (alarmCode m) (alarmHistory m) (warnings m) (spindleSpeed m)
    (targetSpindleSpeed m) (spindleLoad m) (spindleTemp m) (spindleHours m)
    (spindleOrientation m) (feedRate m) (targetFeed m) (rapidRate m)
    (axisPositions m) (servoLoad m) (servoFollowingError m) (servoTemp m)
    (partCount m) (totalCycles m) (machineOnHours m) v (batteryVoltage m)
    (temperature m) (vibration m) (currentAmps m) (oilPressure m)
    (oilLevel m) (currentTool m) (tools m) (toolChangeCount m) (toolWear m)
    (coolant m) (tonnage m) (maxTonnage m) (ramPosition m) (backGauge m)
    (bendAngle m) (laserPower m) (maxLaserPower m) (gasPressure m)
    (resonatorTemp m) (cutSpeed m) (material m) (programRunning m)
    (timestamp m).
Definition set_batteryVoltage (v : Q) (m : Machine) : Machine :=
  mkMachine
    (id m) (name m) (model m) (type m) (specs m) (power m) (execution m)
    (cyclePhase m) (timeInPhase m) (cycleTimeTarget m) (alarm m)
    (alarmCode m) (alarmHistory m) (warnings m) (spindleSpeed m)
    (targetSpindleSpeed m) (spindleLoad m) (spindleTemp m) (spindleHours m)
    (spindleOrientation m) (feedRate m) (targetFeed m) (rapidRate m)
    (axisPositions m) (servoLoad m) (servoFollowingError m) (servoTemp m)
    (partCount m) (totalCycles m) (machineOnHours m) (productionRate m) v
    (temperature m) (vibration m) (currentAmps m) (oilPressure m)
    (oilLevel m) (currentTool m) (tools m) (toolChangeCount m) (toolWear m)
    (coolant m) (tonnage m) (maxTonnage m) (ramPosition m) (backGauge m)
    (bendAngle m) (laserPower m) (maxLaserPower m) (gasPressure m)
    (resonatorTemp m) (cutSpeed m) (material m) (programRunning m)
    (timestamp m).
Definition set_temperature (v : Q) (m : Machine) : Machine :=
  mkMachine
    (id m) (name m) (model m) (type m) (specs m) (power m) (execution m)
    (cyclePhase m) (timeInPhase m) (cycleTimeTarget m) (alarm m)
    (alarmCode m) (alarmHistory m) (warnings m) (spindleSpeed m)
    (targetSpindleSpeed m) (spindleLoad m) (spindleTemp m) (spindleHours m)
    (spindleOrientation m) (feedRate m) (targetFeed m) (rapidRate m)
    (axisPositions m) (servoLoad m) (servoFollowingError m) (servoTemp m)
    (partCount m) (totalCycles m) (machineOnHours m) (productionRate m)
    (batteryVoltage m) v (vibration m) (currentAmps m) (oilPressure m)
    (oilLevel m) (currentTool m) (tools m) (toolChangeCount m) (toolWear m)
    (coolant m) (tonnage m) (maxTonnage m) (ramPosition m) (backGauge m)
    (bendAngle m) (laserPower m) (maxLaserPower m) (gasPressure m)
    (resonatorTemp m) (cutSpeed m) (material m) (programRunning m)
    (timestamp m).
Definition set_vibration (v : Q) (m : Machine) : Machine :=
  mkMachine
    (id m) (name m) (model m) (type m) (specs m) (power m) (execution m)
    (cyclePhase m) (timeInPhase m) (cycleTimeTarget m) (alarm m)
    (alarmCode m) (alarmHistory m) (warnings m) (spindleSpeed m)
    (targetSpindleSpeed m) (spindleLoad m) (spindleTemp m) (spindleHours m)
    (spindleOrientation m) (feedRate m) (targetFeed m) (rapidRate m)
    (axisPositions m) (servoLoad m) (servoFollowingError m) (servoTemp m)
    (partCount m) (totalCycles m) (machineOnHours m) (productionRate m)
    (batteryVoltage m) (temperature m) v (currentAmps m) (oilPressure m)
    (oilLevel m) (currentTool m) (tools m) (toolChangeCount m) (toolWear m)
    (coolant m) (tonnage m) (maxTonnage m) (ramPosition m) (backGauge m)
    (bendAngle m) (laserPower m) (maxLaserPower m) (gasPressure m)
    (resonatorTemp m) (cutSpeed m) (material m) (programRunning m)
    (timestamp m).
Definition set_currentAmps (v : Q) (m : Machine) : Machine :=
  mkMachine
    (id m) (name m) (model m) (type m) (specs m) (power m) (execution m)
    (cyclePhase m) (timeInPhase m) (cycleTimeTarget m) (alarm m)
    (alarmCode m) (alarmHistory m) (warnings m) (spindleSpeed m)
    (targetSpindleSpeed m) (spindleLoad m) (spindleTemp m) (spindleHours m)
    (spindleOrientation m) (feedRate m) (targetFeed m) (rapidRate m)
    (axisPositions m) (servoLoad m) (servoFollowingError m) (servoTemp m)
    (partCount m) (totalCycles m) (machineOnHours m) (productionRate m)
    (batteryVoltage m) (temperature m) (vibration m) v (oilPressure m)
    (oilLevel m) (currentTool m) (tools m) (toolChangeCount m) (toolWear m)
    (coolant m) (tonnage m) (maxTonnage m) (ramPosition m) (backGauge m)
    (bendAngle m) (laserPower m) (maxLaserPower m) (gasPressure m)
    (resonatorTemp m) (cutSpeed m) (material m) (programRunning m)
    (timestamp m).
Definition set_oilPressure (v : Q) (m : Machine) : Machine :=
  mkMachine
    (id m) (name m) (model m) (type m) (specs m) (power m) (execution m)
    (cyclePhase m) (timeInPhase m) (cycleTimeTarget m) (alarm m)
    (alarmCode m) (alarmHistory m) (warnings m) (spindleSpeed m)
    (targetSpindleSpeed m) (spindleLoad m) (spindleTemp m) (spindleHours m)
    (spindleOrientation m) (feedRate m) (targetFeed m) (rapidRate m)
    (axisPositions m) (servoLoad m) (servoFollowingError m) (servoTemp m)
    (partCount m) (totalCycles m) (machineOnHours m) (productionRate m)
    (batteryVoltage m) (temperature m) (vibration m) (currentAmps m) v
    (oilLevel m) (currentTool m) (tools m) (toolChangeCount m) (toolWear m)
    (coolant m) (tonnage m) (maxTonnage m) (ramPosition m) (backGauge m)
    (bendAngle m) (laserPower m) (maxLaserPower m) (gasPressure m)
    (resonatorTemp m) (cutSpeed m) (material m) (programRunning m)
    (timestamp m).
Definition set_oilLevel (v : Q) (m : Machine) : Machine :=
  mkMachine
    (id m) (name m) (model m) (type m) (specs m) (power m) (execution m)
    (cyclePhase m) (timeInPhase m) (cycleTimeTarget m) (alarm m)
    (alarmCode m) (alarmHistory m) (warnings m) (spindleSpeed m)
    (targetSpindleSpeed m) (spindleLoad m) (spindleTemp m) (spindleHours m)
    (spindleOrientation m) (feedRate m) (targetFeed m) (rapidRate m)
    (axisPositions m) (servoLoad m) (servoFollowingError m) (servoTemp m)
    (partCount m) (totalCycles m) (machineOnHours m) (productionRate m)
    (batteryVoltage m) (temperature m) (vibration m) (currentAmps m)
    (oilPressure m) v (currentTool m) (tools m) (toolChangeCount m)
    (toolWear m) (coolant m) (tonnage m) (maxTonnage m) (ramPosition m)
    (backGauge m) (bendAngle m) (laserPower m) (maxLaserPower m)
    (gasPressure m) (resonatorTemp m) (cutSpeed m) (material m)
    (programRunning m) (timestamp m).
Definition set_tools (v : option (list Tool.t)) (m : Machine) : Machine :=
  mkMachine
    (id m) (name m) (model m) (type m) (specs m) (power m) (execution m)
    (cyclePhase m) (timeInPhase m) (cycleTimeTarget m) (alarm m)
    (alarmCode m) (alarmHistory m) (warnings m) (spindleSpeed m)
    (targetSpindleSpeed m) (spindleLoad m) (spindleTemp m) (spindleHours m)
    (spindleOrientation m) (feedRate m) (targetFeed m) (rapidRate m)
    (axisPositions m) (servoLoad m) (servoFollowingError m) (servoTemp m)
    (partCount m) (totalCycles m) (machineOnHours m) (productionRate m)
    (batteryVoltage m) (temperature m) (vibration m) (currentAmps m)
    (oilPressure m) (oilLevel m) (currentTool m) v (toolChangeCount m)
    (toolWear m) (coolant m) (tonnage m) (maxTonnage m) (ramPosition m)
    (backGauge m) (bendAngle m) (laserPower m) (maxLaserPower m)
    (gasPressure m) (resonatorTemp m) (cutSpeed m) (material m)
    (programRunning m) (timestamp m).
Definition set_toolWear (v : Q) (m : Machine) : Machine :=
  mkMachine
    (id m) (name m) (model m) (type m) (specs m) (power m) (execution m)
    (cyclePhase m) (timeInPhase m) (cycleTimeTarget m) (alarm m)
    (alarmCode m) (alarmHistory m) (warnings m) (spindleSpeed m)
    (targetSpindleSpeed m) (spindleLoad m) (spindleTemp m) (spindleHours m)
    (spindleOrientation m) (feedRate m) (targetFeed m) (rapidRate m)
    (axisPositions m) (servoLoad m) (servoFollowingError m) (servoTemp m)
    (partCount m) (totalCycles m) (machineOnHours m) (productionRate m)
    (batteryVoltage m) (temperature m) (vibration m) (currentAmps m)
    (oilPressure m) (oilLevel m) (currentTool m) (tools m)
    (toolChangeCount m) v (coolant m) (tonnage m) (maxTonnage m)
    (ramPosition m) (backGauge m) (bendAngle m) (laserPower m)
    (maxLaserPower m) (gasPressure m) (resonatorTemp m) (cutSpeed m)
    (material m) (programRunning m) (timestamp m).
Definition set_coolant (v : option Coolant.t) (m : Machine) : Machine :=
  mkMachine
    (id m) (name m) (model m) (type m) (specs m) (power m) (execution m)
    (cyclePhase m) (timeInPhase m) (cycleTimeTarget m) (alarm m)
    (alarmCode m) (alarmHistory m) (warnings m) (spindleSpeed m)
    (targetSpindleSpeed m) (spindleLoad m) (spindleTemp m) (spindleHours m)
    (spindleOrientation m) (feedRate m) (targetFeed m) (rapidRate m)
    (axisPositions m) (servoLoad m) (servoFollowingError m) (servoTemp m)
    (partCount m) (totalCycles m) (machineOnHours m) (productionRate m)
    (batteryVoltage m) (temperature m) (vibration m) (currentAmps m)
    (oilPressure m) (oilLevel m) (currentTool m) (tools m)
    (toolChangeCount m) (toolWear m) v (tonnage m) (maxTonnage m)
    (ramPosition m) (backGauge m) (bendAngle m) (laserPower m)
    (maxLaserPower m) (gasPressure m) (resonatorTemp m) (cutSpeed m)
    (material m) (programRunning m) (timestamp m).
Definition set_tonnage (v : Q) (m : Machine) : Machine :=
  mkMachine
    (id m) (name m) (model m) (type m) (specs m) (power m) (execution m)
    (cyclePhase m) (timeInPhase m) (cycleTimeTarget m) (alarm m)
    (alarmCode m) (alarmHistory m) (warnings m) (spindleSpeed m)
    (targetSpindleSpeed m) (spindleLoad m) (spindleTemp m) (spindleHours m)
    (spindleOrientation m) (feedRate m) (targetFeed m) (rapidRate m)
    (axisPositions m) (servoLoad m) (servoFollowingError m) (servoTemp m)
    (partCount m) (totalCycles m) (machineOnHours m) (productionRate m)
    (batteryVoltage m) (temperature m) (vibration m) (currentAmps m)
    (oilPressure m) (oilLevel m) (currentTool m) (tools m)
    (toolChangeCount m) (toolWear m) (coolant m) v (maxTonnage m)
    (ramPosition m) (backGauge m) (bendAngle m) (laserPower m)
    (maxLaserPower m) (gasPressure m) (resonatorTemp m) (cutSpeed m)
    (material m) (programRunning m) (timestamp m).
Definition set_ramPosition (v : Q) (m : Machine) : Machine :=
  mkMachine
    (id m) (name m) (model m) (type m) (specs m) (power m) (execution m)
    (cyclePhase m) (timeInPhase m) (cycleTimeTarget m) (alarm m)
    (alarmCode m) (alarmHistory m) (warnings m) (spindleSpeed m)
    (targetSpindleSpeed m) (spindleLoad m) (spindleTemp m) (spindleHours m)
    (spindleOrientation m) (feedRate m) (targetFeed m) (rapidRate m)
    (axisPositions m) (servoLoad m) (servoFollowingError m) (servoTemp m)
    (partCount m) (totalCycles m) (machineOnHours m) (productionRate m)
    (batteryVoltage m) (temperature m) (vibration m) (currentAmps m)
    (oilPressure m) (oilLevel m) (currentTool m) (tools m)
    (toolChangeCount m) (toolWear m) (coolant m) (tonnage m) (maxTonnage m) v
    (backGauge m) (bendAngle m) (laserPower m) (maxLaserPower m)
    (gasPressure m) (resonatorTemp m) (cutSpeed m) (material m)
    (programRunning m) (timestamp m).
Definition set_bendAngle (v : Q) (m : Machine) : Machine :=
  mkMachine
    (id m) (name m) (model m) (type m) (specs m) (power m) (execution m)
    (cyclePhase m) (timeInPhase m) (cycleTimeTarget m) (alarm m)
    (alarmCode m) (alarmHistory m) (warnings m) (spindleSpeed m)
    (targetSpindleSpeed m) (spindleLoad m) (spindleTemp m) (spindleHours m)
    (spindleOrientation m) (feedRate m) (targetFeed m) (rapidRate m)
    (axisPositions m) (servoLoad m) (servoFollowingError m) (servoTemp m)
    (partCount m) (totalCycles m) (machineOnHours m) (productionRate m)
    (batteryVoltage m) (temperature m) (vibration m) (currentAmps m)
    (oilPressure m) (oilLevel m) (currentTool m) (tools m)
    (toolChangeCount m) (toolWear m) (coolant m) (tonnage m) (maxTonnage m)
    (ramPosition m) (backGauge m) v (laserPower m) (maxLaserPower m)
    (gasPressure m) (resonatorTemp m) (cutSpeed m) (material m)
    (programRunning m) (timestamp m).
Definition set_laserPower (v : Q) (m : Machine) : Machine :=
  mkMachine
    (id m) (name m) (model m) (type m) (specs m) (power m) (execution m)
    (cyclePhase m) (timeInPhase m) (cycleTimeTarget m) (alarm m)
    (alarmCode m) (alarmHistory m) (warnings m) (spindleSpeed m)
    (targetSpindleSpeed m) (spindleLoad m) (spindleTemp m) (spindleHours m)
    (spindleOrientation m) (feedRate m) (targetFeed m) (rapidRate m)
    (axisPositions m) (servoLoad m) (servoFollowingError m) (servoTemp m)
    (partCount m) (totalCycles m) (machineOnHours m) (productionRate m)
    (batteryVoltage m) (temperature m) (vibration m) (currentAmps m)
    (oilPressure m) (oilLevel m) (currentTool m) (tools m)
    (toolChangeCount m) (toolWear m) (coolant m) (tonnage m) (maxTonnage m)
    (ramPosition m) (backGauge m) (bendAngle m) v (maxLaserPower m)
    (gasPressure m) (resonatorTemp m) (cutSpeed m) (material m)
    (programRunning m) (timestamp m).
Definition set_resonatorTemp (v : Q) (m : Machine) : Machine :=
  mkMachine
    (id m) (name m) (model m) (type m) (specs m) (power m) (execution m)
    (cyclePhase m) (timeInPhase m) (cycleTimeTarget m) (alarm m)
    (alarmCode m) (alarmHistory m) (warnings m) (spindleSpeed m)
    (targetSpindleSpeed m) (spindleLoad m) (spindleTemp m) (spindleHours m)
    (spindleOrientation m) (feedRate m) (targetFeed m) (rapidRate m)
    (axisPositions m) (servoLoad m) (servoFollowingError m) (servoTemp m)
    (partCount m) (totalCycles m) (machineOnHours m) (productionRate m)
    (batteryVoltage m) (temperature m) (vibration m) (currentAmps m)
    (oilPressure m) (oilLevel m) (currentTool m) (tools m)
    (toolChangeCount m) (toolWear m) (coolant m) (tonnage m) (maxTonnage m)
    (ramPosition m) (backGauge m) (bendAngle m) (laserPower m)
    (maxLaserPower m) (gasPressure m) v (cutSpeed m) (material m)
    (programRunning m) (timestamp m).
Definition set_cutSpeed (v : Q) (m : Machine) : Machine :=
  mkMachine
    (id m) (name m) (model m) (type m) (specs m) (power m) (execution m)
    (cyclePhase m) (timeInPhase m) (cycleTimeTarget m) (alarm m)
    (alarmCode m) (alarmHistory m) (warnings m) (spindleSpeed m)
    (targetSpindleSpeed m) (spindleLoad m) (spindleTemp m) (spindleHours m)
    (spindleOrientation m) (feedRate m) (targetFeed m) (rapidRate m)
    (axisPositions m) (servoLoad m) (servoFollowingError m) (servoTemp m)
    (partCount m) (totalCycles m) (machineOnHours m) (productionRate m)
    (batteryVoltage m) (temperature m) (vibration m) (currentAmps m)
    (oilPressure m) (oilLevel m) (currentTool m) (tools m)
    (toolChangeCount m) (toolWear m) (coolant m) (tonnage m) (maxTonnage m)
    (ramPosition m) (backGauge m) (bendAngle m) (laserPower m)
    (maxLaserPower m) (gasPressure m) (resonatorTemp m) v (material m)
    (programRunning m) (timestamp m).
Definition set_material (v : option string) (m : Machine) : Machine :=
  mkMachine
    (id m) (name m) (model m) (type m) (specs m) (power m) (execution m)
    (cyclePhase m) (timeInPhase m) (cycleTimeTarget m) (alarm m)
    (alarmCode m) (alarmHistory m) (warnings m) (spindleSpeed m)
    (targetSpindleSpeed m) (spindleLoad m) (spindleTemp m) (spindleHours m)
    (spindleOrientation m) (feedRate m) (targetFeed m) (rapidRate m)
    (axisPositions m) (servoLoad m) (servoFollowingError m) (servoTemp m)
    (partCount m) (totalCycles m) (machineOnHours m) (productionRate m)
    (batteryVoltage m) (temperature m) (vibration m) (currentAmps m)
    (oilPressure m) (oilLevel m) (currentTool m) (tools m)
    (toolChangeCount m) (toolWear m) (coolant m) (tonnage m) (maxTonnage m)
    (ramPosition m) (backGauge m) (bendAngle m) (laserPower m)
    (maxLaserPower m) (gasPressure m) (resonatorTemp m) (cutSpeed m) v
    (programRunning m) (timestamp m).
Definition set_programRunning (v : option string) (m : Machine) : Machine :=
  mkMachine
    (id m) (name m) (model m) (type m) (specs m) (power m) (execution m)
    (cyclePhase m) (timeInPhase m) (cycleTimeTarget m) (alarm m)
    (alarmCode m) (alarmHistory m) (warnings m) (spindleSpeed m)
    (targetSpindleSpeed m) (spindleLoad m) (spindleTemp m) (spindleHours m)
    (spindleOrientation m) (feedRate m) (targetFeed m) (rapidRate m)
    (axisPositions m) (servoLoad m) (servoFollowingError m) (servoTemp m)
    (partCount m) (totalCycles m) (machineOnHours m) (productionRate m)
    (batteryVoltage m) (temperature m) (vibration m) (currentAmps m)
    (oilPressure m) (oilLevel m) (currentTool m) (tools m)
    (toolChangeCount m) (toolWear m) (coolant m) (tonnage m) (maxTonnage m)
    (ramPosition m) (backGauge m) (bendAngle m) (laserPower m)
    (maxLaserPower m) (gasPressure m) (resonatorTemp m) (cutSpeed m)
    (material m) v (timestamp m).
Definition set_timestamp (v : Z) (m : Machine) : Machine :=
  mkMachine
    (id m) (name m) (model m) (type m) (specs m) (power m) (execution m)
    (cyclePhase m) (timeInPhase m) (cycleTimeTarget m) (alarm m)
    (alarmCode m) (alarmHistory m) (warnings m) (spindleSpeed m)
    (targetSpindleSpeed m) (spindleLoad m) (spindleTemp m) (spindleHours m)
    (spindleOrientation m) (feedRate m) (targetFeed m) (rapidRate m)
    (axisPositions m) (servoLoad m) (servoFollowingError m) (servoTemp m)
    (partCount m) (totalCycles m) (machineOnHours m) (productionRate m)
    (batteryVoltage m) (temperature m) (vibration m) (currentAmps m)
    (oilPressure m) (oilLevel m) (currentTool m) (tools m)
    (toolChangeCount m) (toolWear m) (coolant m) (tonnage m) (maxTonnage m)
    (ramPosition m) (backGauge m) (bendAngle m) (laserPower m)
    (maxLaserPower m) (gasPressure m) (resonatorTemp m) (cutSpeed m)
    (material m) (programRunning m) v.

(** ** Environment, world and the simulation monad *)

Record Env := mkEnv {
  random_at : nat -> Q;   (* result of the k-th [Math.random()] *)
  date_at : nat -> Z      (* result of the k-th [new Date()], in ms *)
}.

Record World := mkWorld {
  this : Machine;
  draws : nat;            (* calls of [Math.random()] so far *)
  dates : nat             (* calls of [new Date()] so far *)
}.

Definition Sim (A : Type) : Type := Env -> World -> A * World.

Definition ret {A} (a : A) : Sim A := fun _ w => (a, w).

Definition bind {A B} (c : Sim A) (k : A -> Sim B) : Sim B :=
  fun E w => let r := c E w in k (fst r) E (snd r).

Declare Scope sim_scope.
Delimit Scope sim_scope with sim.
Notation "x <- c ;; k" := (bind c (fun x => k))
  (at level 100, c at next level, k at level 200, right associativity)
  : sim_scope.
Notation "c ;; k" := (bind c (fun _ => k))
  (at level 100, k at level 200, right associativity) : sim_scope.
Local Open Scope sim_scope.

(** State of the machine after running a method. *)
Definition exec {A} (c : Sim A) (E : Env) (w : World) : World := snd (c E w).

Definition gets {A} (f : Machine -> A) : Sim A := fun _ w => (f (this w), w).

Definition modify (f : Machine -> Machine) : Sim unit :=
  fun _ w => (tt, mkWorld (f (this w)) (draws w) (dates w)).

(** [this.f = e], where [e] may read [this]. *)
Definition assign {A} (set : A -> Machine -> Machine) (e : Machine -> A)
  : Sim unit :=
  modify (fun m => set (e m) m).

(** [Math.random()] *)
Definition Math_random : Sim Q :=
  fun E w => (random_at E (draws w), mkWorld (this w) (S (draws w)) (dates w)).

(** [new Date()] *)
Definition new_Date : Sim Z :=
  fun E w => (date_at E (dates w), mkWorld (this w) (draws w) (S (dates w))).

(** [if (b) { c }] *)
Definition when (b : bool) (c : Sim unit) : Sim unit :=
  if b then c else ret tt.

(** [if (cond(this)) { c1 } else { c2 }] *)
Definition ifThis (cond : Machine -> bool) (c1 c2 : Sim unit) : Sim unit :=
  b <- gets cond;; if b then c1 else c2.

(** [cond(this) && Math.random() < p]: the draw is made only when
    [cond(this)] holds. *)
Definition andRandom (cond : Machine -> bool) (p : Q) : Sim bool :=
  b <- gets cond;;
  if b then (r <- Math_random;; ret (Qltb r p)) else ret false.

(** ** Truthiness of the tested fields *)

(** A string or [null]: truthy when a non-empty string. *)
Definition truthy (o : option string) : bool :=
  match o with
  | Some s => negb (String.eqb s "")
  | None => false
  end.

(** [if (this.alarm)] *)
Definition alarmActive (m : Machine) : bool := truthy (alarm m).

(** [this.tools && this.currentTool], then [this.tools[this.currentTool - 1]]
    when defined: the index and the tool. *)
Definition activeTool (m : Machine) : option (nat * Tool.t) :=
  match tools m, currentTool m with
  | Some ts, Some (S i) =>
      match ts !! i with
      | Some tool => Some (i, tool)
      | None => None
      end
  | _, _ => None
  end.

(** [this.tools && this.currentTool] *)
Definition hasToolSlot (m : Machine) : bool :=
  match tools m, currentTool m with
  | Some _, Some (S _) => true
  | _, _ => false
  end.

(** Assignment to fields of [this.tools[this.currentTool - 1]]. *)
Definition modifyTool (f : Tool.t -> Tool.t) : Sim unit :=
  modify (fun m =>
    match activeTool m, tools m with
    | Some (i, _), Some ts => set_tools (Some (alter f i ts)) m
    | _, _ => m
    end).

(** Assignment to fields of [this.coolant]. *)
Definition modifyCoolant (f : Coolant.t -> Coolant.t) : Sim unit :=
  modify (fun m =>
    match coolant m with
    | Some c => set_coolant (Some (f c)) m
    | None => m
    end).

Definition set_axX (v : Q) (a : Axes) : Axes := mkAxes v (axY a) (axZ a).
Definition set_axY (v : Q) (a : Axes) : Axes := mkAxes (axX a) v (axZ a).
Definition set_axZ (v : Q) (a : Axes) : Axes := mkAxes (axX a) (axY a) v.

(** ** Construction *)

(** The [specs] argument of the constructor: every key is optional. *)
Record SpecsArg := mkSpecsArg {
  arg_axisLimits : option Limits;
  arg_spindlePower : option Q;
  arg_maxRPM : option Q;
  arg_rapidTraverse : option Q;
  arg_toolCapacity : option nat;
  arg_maxTonnage : option Q;
  arg_maxLaserPower : option Q
}.

(** [x || d] on an optional number: [undefined] and [0] give [d]. *)
Definition orNum (x : option Q) (d : Q) : Q :=
  match x with
  | Some v => if Qeq_bool v 0 then d else v
  | None => d
  end.

Definition orNat (x : option nat) (d : nat) : nat :=
  match x with
  | Some (S n) => S n
  | _ => d
  end.

Definition toolTypes : list string :=
  ["DRILL"; "END_MILL"; "FACE_MILL"; "REAMER"; "TAP"; "BORING_BAR"]%string.

Definition coatings : list string :=
  ["TiN"; "TiCN"; "AlTiN"; "Uncoated"]%string.

(** [arr[Math.floor(Math.random() * arr.length)]] for the draw [r]. *)
Definition pick (arr : list string) (r : Q) : string :=
  default "undefined"%string
    (arr !! Z.to_nat (Math_floor (r * inject_Z (Z.of_nat (length arr))))).

(** The [i]-th tool pushed by [_initializeTools]; the draws are made in
    the order of the object literal. *)
Definition newTool (i : nat) : Sim Tool.t :=
  r1 <- Math_random;;
  r2 <- Math_random;;
  r3 <- Math_random;;
  r4 <- Math_random;;
  r5 <- Math_random;;
  r6 <- Math_random;;
  ret (Tool.mk i (pick toolTypes r1)
         (toFixed 2 (r2 * 20 + 2))
         (toFixed 2 (r3 * 100 + 50))
         (100 - r4 * 80) 100
         (Math_floor (r5 * 4) + 2)%Z
         (pick coatings r6)
         ("Tool " +:+ pretty i) false 0%Z).

(** The loop [for (let i = from; i <= from + n - 1; i++) tools.push(..)]. *)
Fixpoint pushTools (n : nat) (from : nat) : Sim (list Tool.t) :=
  match n with
  | O => ret []
  | S n' =>
      tool <- newTool from;;
      rest <- pushTools n' (S from);;
      ret (tool :: rest)
  end.

Definition _initializeTools : Sim (list Tool.t) :=
  ty <- gets type;;
  cap <- gets (fun this => toolCapacity (specs this));;
  pushTools (match ty with CNC_MILL => cap | _ => 12%nat end) 1.

Definition defaultLimits : Limits := mkLimits (0, 762) (0, 406) (0, 508).

(** The fields the constructor sets without a draw or a clock read;
    [cycleTimeTarget], [tools] and [timestamp] are filled in by
    [HaasMachine_new]. *)
Definition blankMachine (id name model : string) (type : MachineType)
    (a : SpecsArg) : Machine :=
  let limits := default defaultLimits (arg_axisLimits a) in
  let cnc := isCNC type in
  {| id := id; name := name; model := model; type := type;
     specs := mkSpecs limits (orNum (arg_spindlePower a) 30)
                (orNum (arg_maxRPM a) 8100) (orNum (arg_rapidTraverse a) 1000)
                (orNat (arg_toolCapacity a) 24);
     power := true; execution := Exec.IDLE; cyclePhase := Phase.IDLE;
     timeInPhase := 0; cycleTimeTarget := 0;
     alarm := None; alarmCode := None; alarmHistory := []; warnings := [];
     spindleSpeed := 0; targetSpindleSpeed := 0; spindleLoad := 0;
     spindleTemp := 25; spindleHours := 0; spindleOrientation := 0;
     feedRate := 0; targetFeed := 0; rapidRate := 0;
     axisPositions :=
       mkAxes ((fst (limX limits) + snd (limX limits)) / 2)
              ((fst (limY limits) + snd (limY limits)) / 2)
              (snd (limZ limits));
     servoLoad := mkAxes 0 0 0;
     servoFollowingError := mkAxes 0 0 0;
     servoTemp := mkAxes 25 25 25;
     partCount := 0; totalCycles := 0; machineOnHours := 0;
     productionRate := 0;
     batteryVoltage := 3.6; temperature := 72; vibration := 0;
     currentAmps := 7; oilPressure := 50; oilLevel := 100;
     currentTool := if cnc then Some 1%nat else None;
     tools := None;
     toolChangeCount := 0; toolWear := 0;
     coolant := if cnc then Some (Coolant.mk 100 50 72 0) else None;
     tonnage := 0;
     maxTonnage :=
       match type with PRESS_BRAKE => orNum (arg_maxTonnage a) 200 | _ => 0 end;
     ramPosition := 0; backGauge := 0; bendAngle := 0;
     laserPower := 0;
     maxLaserPower :=
       match type with LASER => orNum (arg_maxLaserPower a) 6000 | _ => 0 end;
     gasPressure := match type with LASER => 240 | _ => 0 end;
     resonatorTemp := match type with LASER => 26 | _ => 0 end;
     cutSpeed := 0;
     material := None; programRunning := None; timestamp := 0 |}.

(** [new HaasMachine(id, name, model, type, specs)], given the numbers of
    draws and clock reads made before it. *)
Definition HaasMachine_new (id name model : string) (type : MachineType)
    (a : SpecsArg) (E : Env) (draws0 dates0 : nat) : World :=
  exec
    (r <- Math_random;;
     assign set_cycleTimeTarget (fun _ => 20 + r * 25);;
     when (isCNC type)
       (ts <- _initializeTools;;
        assign set_tools (fun _ => Some ts));;
     d <- new_Date;;
     assign set_timestamp (fun _ => d))
    E (mkWorld (blankMachine id name model type a) draws0 dates0).

(** ** Alarm bookkeeping *)

(** [arr.slice(-n)] *)
Definition slice_last {A} (n : nat) (arr : list A) : list A :=
  drop (length arr - n) arr.

Definition _setAlarm (code : option Z) (message : string) : Sim unit :=
  assign set_alarm (fun _ => Some message);;
  assign set_alarmCode (fun _ => code);;
  d <- new_Date;;
  assign set_alarmHistory (fun this =>
    alarmHistory this ++
      [AlarmEntry.mk code message d (cyclePhase this) (spindleLoad this) false]);;
  (* Keep only last 20 alarms *)
  ifThis (fun this => (20 <? length (alarmHistory this))%nat)
    (assign set_alarmHistory (fun this => slice_last 20 (alarmHistory this)))
    (ret tt).

Definition _clearAlarm : Sim unit :=
  ifThis (fun this => (0 <? length (alarmHistory this))%nat)
    (assign set_alarmHistory (fun this =>
       alter (AlarmEntry.set_cleared true)
             (length (alarmHistory this) - 1)%nat (alarmHistory this)))
    (ret tt);;
  assign set_alarm (fun _ => None);;
  assign set_alarmCode (fun _ => None);;
  assign set_execution (fun _ => Exec.IDLE).

(** ** Mill and lathe cycle *)

Definition _startNewCycle : Sim unit :=
  assign set_cyclePhase (fun _ => Phase.SPINDLE_RAMP);;
  assign set_execution (fun _ => Exec.RUNNING);;
  assign set_timeInPhase (fun _ => 0);;
  r1 <- Math_random;;
  assign set_cycleTimeTarget (fun _ => 20 + r1 * 25);;
  r2 <- Math_random;;
  assign set_targetSpindleSpeed (fun this =>
    3000 + r2 * (maxRPM (specs this) - 3000));;
  r3 <- Math_random;;
  assign set_targetFeed (fun _ => 300 + r3 * 1500);;
  ifThis (fun this => negb (truthy (programRunning this)))
    (r4 <- Math_random;;
     assign set_programRunning (fun _ =>
       Some ("O" +:+ pretty (Math_floor (r4 * 9000 + 1000)))))
    (ret tt).

Definition _phaseIdle (dtSec : Q) : Sim unit :=
  assign set_execution (fun _ => Exec.IDLE);;
  (* Natural deceleration *)
  assign set_spindleSpeed (fun this =>
    Math_max 0 (spindleSpeed this - 500 * dtSec));;
  assign set_feedRate (fun this => Math_max 0 (feedRate this - 500 * dtSec));;
  assign set_spindleLoad (fun this =>
    Math_max 0 (spindleLoad this - 5 * dtSec));;
  (* Coolant recovery *)
  modifyCoolant (fun c =>
    Coolant.set_level (Math_min 100 (Coolant.level c + 0.1)) c);;
  modifyCoolant (Coolant.set_flow 0);;
  (* Start new cycle (5% chance) *)
  r <- Math_random;;
  when (Qltb r 0.05) _startNewCycle.

Definition _phaseSpindleRamp (dtSec : Q) : Sim unit :=
  assign set_execution (fun _ => Exec.RUNNING);;
  let ramp := 350 * dtSec in
  ifThis (fun this => Qltb (spindleSpeed this) (targetSpindleSpeed this))
    (assign set_spindleSpeed (fun this => spindleSpeed this + ramp);;
     ifThis (fun this => Qgeb (spindleSpeed this) (targetSpindleSpeed this))
       (assign set_spindleSpeed (fun this => targetSpindleSpeed this);;
        assign set_cyclePhase (fun _ => Phase.RAPID);;
        assign set_timeInPhase (fun _ => 0))
       (ret tt))
    (ret tt);;
  assign set_spindleLoad (fun this =>
    Math_min 20 ((spindleSpeed this / targetSpindleSpeed this) * 15));;
  assign set_spindleOrientation (fun this =>
    Qrem (spindleOrientation this + spindleSpeed this * dtSec / 60) 360).

Definition _phaseRapid (dtSec : Q) : Sim unit :=
  assign set_execution (fun _ => Exec.RUNNING);;
  (* G0: Rapid to random position *)
  rx <- Math_random;;
  assign set_axisPositions (fun this =>
    let limits := axisLimits (specs this) in
    set_axX (fst (limX limits) + rx * (snd (limX limits) - fst (limX limits)))
            (axisPositions this));;
  ry <- Math_random;;
  assign set_axisPositions (fun this =>
    let limits := axisLimits (specs this) in
    set_axY (fst (limY limits) + ry * (snd (limY limits) - fst (limY limits)))
            (axisPositions this));;
  assign set_axisPositions (fun this =>
    set_axZ (snd (limZ (axisLimits (specs this)))) (axisPositions this));;
  assign set_rapidRate (fun this => rapidTraverse (specs this));;
  assign set_feedRate (fun _ => 0);;
  rl <- Math_random;;
  assign set_spindleLoad (fun _ => 5 + rl * 5);;
  ifThis (fun this => Qgeb (timeInPhase this) 3.0)
    (assign set_cyclePhase (fun _ => Phase.CUTTING);;
     assign set_timeInPhase (fun _ => 0))
    (ret tt).

Definition _phaseCutting (dtSec : Q) : Sim unit :=
  assign set_execution (fun _ => Exec.RUNNING);;
  (* Feed ramp-up *)
  let ramp := 200 * dtSec in
  ifThis (fun this => Qltb (feedRate this) (targetFeed this))
    (assign set_feedRate (fun this => feedRate this + ramp);;
     ifThis (fun this => Qgtb (feedRate this) (targetFeed this))
       (assign set_feedRate (fun this => targetFeed this))
       (ret tt))
    (ret tt);;
  (* Z descent (cutting) *)
  assign set_axisPositions (fun this =>
    set_axZ (axZ (axisPositions this)
             - 1.0 * dtSec * (feedRate this / Math_max (targetFeed this) 1))
            (axisPositions this));;
  ifThis (fun this =>
      Qltb (axZ (axisPositions this))
           (fst (limZ (axisLimits (specs this))) + 5))
    (assign set_axisPositions (fun this =>
       set_axZ (fst (limZ (axisLimits (specs this))) + 5) (axisPositions this)))
    (ret tt);;
  (* Realistic spindle load *)
  baseLoad <- gets (fun this => (feedRate this / 1800.0) * 35.0);;
  wearLoad <- gets (fun this => toolWear this * 50.0);;
  vibLoad <- gets (fun this => vibration this * 8.0);;
  rn <- Math_random;;
  let noise := rn * 4.5 - 2.0 in
  assign set_spindleLoad (fun _ =>
    Math_max 0 (Math_min 100 (baseLoad + wearLoad + vibLoad + noise)));;
  (* Tool wear *)
  assign set_toolWear (fun this => toolWear this + spindleLoad this / 250000.0);;
  ifThis (fun this => Qgtb (toolWear this) 1.0)
    (assign set_toolWear (fun _ => 1.0))
    (ret tt);;
  rv <- Math_random;;
  assign set_vibration (fun this => toolWear this * 3.0 + rv * 0.4);;
  (* Spindle hours *)
  ifThis (fun this => Qgtb (spindleSpeed this) 300)
    (assign set_spindleHours (fun this => spindleHours this + dtSec / 3600.0))
    (ret tt);;
  (* Update current tool *)
  ifThis (fun this => bool_decide (is_Some (activeTool this)))
    (rt <- Math_random;;
     modifyTool (fun tool =>
       Tool.set_currentLife (Math_max 0 (Tool.currentLife tool - rt * 0.02))
         tool);;
     modifyTool (Tool.set_inUse true);;
     modifyTool (fun tool => Tool.set_totalCuts (Tool.totalCuts tool + 1)%Z tool))
    (ret tt);;
  (* Coolant consumption *)
  ifThis (fun this => bool_decide (is_Some (coolant this)))
    (r1 <- Math_random;;
     modifyCoolant (fun c =>
       Coolant.set_level (Math_max 0 (Coolant.level c - r1 * 0.08)) c);;
     r2 <- Math_random;;
     modifyCoolant (Coolant.set_pressure (45 + r2 * 15));;
     r3 <- Math_random;;
     modifyCoolant (Coolant.set_temperature (72 + r3 * 15));;
     r4 <- Math_random;;
     modifyCoolant (Coolant.set_flow (5 + r4 * 3)))
    (ret tt);;
  (* Servo loads *)
  sx <- Math_random;;
  assign set_servoLoad (fun this => set_axX (20 + sx * 30) (servoLoad this));;
  sy <- Math_random;;
  assign set_servoLoad (fun this => set_axY (20 + sy * 30) (servoLoad this));;
  assign set_servoLoad (fun this =>
    set_axZ (30 + spindleLoad this * 0.5) (servoLoad this));;
  (* Following error simulation *)
  ex <- Math_random;;
  assign set_servoFollowingError (fun this =>
    set_axX (ex * 0.002) (servoFollowingError this));;
  ey <- Math_random;;
  assign set_servoFollowingError (fun this =>
    set_axY (ey * 0.002) (servoFollowingError this));;
  ez <- Math_random;;
  assign set_servoFollowingError (fun this =>
    set_axZ (ez * 0.003) (servoFollowingError this));;
  (* Cycle completion *)
  ifThis (fun this => Qgeb (timeInPhase this) (cycleTimeTarget this * 0.6))
    (assign set_cyclePhase (fun _ => Phase.RETRACT);;
     assign set_timeInPhase (fun _ => 0))
    (ret tt).

Definition _phaseRetract (dtSec : Q) : Sim unit :=
  assign set_execution (fun _ => Exec.RUNNING);;
  assign set_axisPositions (fun this =>
    set_axZ (axZ (axisPositions this) + 4.0 * dtSec) (axisPositions this));;
  ifThis (fun this =>
      Qgeb (axZ (axisPositions this))
           (snd (limZ (axisLimits (specs this))) - 10))
    (assign set_axisPositions (fun this =>
       set_axZ (snd (limZ (axisLimits (specs this))) - 10) (axisPositions this));;
     assign set_cyclePhase (fun _ => Phase.DWELL);;
     assign set_timeInPhase (fun _ => 0))
    (ret tt);;
  assign set_spindleLoad (fun this =>
    Math_max 5 (spindleLoad this - 10 * dtSec));;
  assign set_feedRate (fun this => Math_max 0 (feedRate this - 300 * dtSec)).

Definition _phaseDwell (dtSec : Q) : Sim unit :=
  assign set_execution (fun _ => Exec.RUNNING);;
  assign set_feedRate (fun _ => 0);;
  assign set_spindleLoad (fun this =>
    Math_max 0 (spindleLoad this - 5 * dtSec));;
  ifThis (fun this => Qgeb (timeInPhase this) 2.0)
    (assign set_cyclePhase (fun _ => Phase.FINISH);;
     assign set_timeInPhase (fun _ => 0))
    (ret tt).

Definition _phaseFinish (dtSec : Q) : Sim unit :=
  assign set_execution (fun _ => Exec.RUNNING);;
  assign set_partCount (fun this => (partCount this + 1)%Z);;
  assign set_totalCycles (fun this => (totalCycles this + 1)%Z);;
  assign set_spindleLoad (fun this => spindleLoad this * 0.7);;
  assign set_feedRate (fun _ => 0);;
  modifyTool (Tool.set_inUse false);;
  (* Calculate production rate *)
  ifThis (fun this => Qgtb (machineOnHours this) 0)
    (assign set_productionRate (fun this =>
       Math_round (inject_Z (partCount this) / machineOnHours this)))
    (ret tt);;
  assign set_cyclePhase (fun _ => Phase.IDLE);;
  assign set_timeInPhase (fun _ => 0).

Definition _updateCNCCycle (dtSec : Q) : Sim unit :=
  ph <- gets cyclePhase;;
  match ph with
  | Phase.IDLE => _phaseIdle dtSec
  | Phase.SPINDLE_RAMP => _phaseSpindleRamp dtSec
  | Phase.RAPID => _phaseRapid dtSec
  | Phase.CUTTING => _phaseCutting dtSec
  | Phase.RETRACT => _phaseRetract dtSec
  | Phase.DWELL => _phaseDwell dtSec
  | Phase.FINISH => _phaseFinish dtSec
  | Phase.RUNNING => ret tt
  end.

(** ** Press brake cycle *)

Definition _updatePressCycle (dtSec : Q) : Sim unit :=
  b <- andRandom (fun this => bool_decide (cyclePhase this = Phase.IDLE)) 0.05;;
  when b
    (assign set_cyclePhase (fun _ => Phase.RUNNING);;
     assign set_execution (fun _ => Exec.RUNNING);;
     assign set_timeInPhase (fun _ => 0);;
     r <- Math_random;;
     assign set_bendAngle (fun _ => 45 + r * 90));;
  ifThis (fun this => bool_decide (cyclePhase this = Phase.RUNNING))
    (assign set_execution (fun _ => Exec.RUNNING);;
     (* Ram descends *)
     assign set_ramPosition (fun this =>
       Math_min 100 (ramPosition this + 20 * dtSec));;
     (* Tonnage increases *)
     assign set_tonnage (fun this =>
       (ramPosition this / 100) * (maxTonnage this * 0.8));;
     assign set_spindleLoad (fun this =>
       (tonnage this / maxTonnage this) * 100);;
     (* Servo load *)
     assign set_servoLoad (fun this =>
       set_axY (tonnage this / maxTonnage this * 80) (servoLoad this));;
     ifThis (fun this => Qgeb (timeInPhase this) 5.0)
       (assign set_partCount (fun this => (partCount this + 1)%Z);;
        assign set_totalCycles (fun this => (totalCycles this + 1)%Z);;
        assign set_ramPosition (fun _ => 0);;
        assign set_tonnage (fun _ => 0);;
        assign set_cyclePhase (fun _ => Phase.IDLE);;
        assign set_execution (fun _ => Exec.IDLE);;
        assign set_timeInPhase (fun _ => 0))
       (ret tt))
    (assign set_execution (fun _ => Exec.IDLE);;
     assign set_spindleLoad (fun _ => 0);;
     assign set_tonnage (fun _ => 0)).

(** ** Laser cycle *)

Definition _updateLaserCycle (dtSec : Q) : Sim unit :=
  b <- andRandom (fun this => bool_decide (cyclePhase this = Phase.IDLE)) 0.07;;
  when b
    (assign set_cyclePhase (fun _ => Phase.RUNNING);;
     assign set_execution (fun _ => Exec.RUNNING);;
     assign set_timeInPhase (fun _ => 0);;
     r1 <- Math_random;;
     assign set_laserPower (fun this =>
       2000 + r1 * (maxLaserPower this - 2000));;
     r2 <- Math_random;;
     assign set_targetFeed (fun _ => 800 + r2 * 2200));;
  ifThis (fun this => bool_decide (cyclePhase this = Phase.RUNNING))
    (assign set_execution (fun _ => Exec.RUNNING);;
     (* Power ramp *)
     assign set_spindleLoad (fun this =>
       (laserPower this / maxLaserPower this) * 100);;
     (* Feed ramp *)
     ifThis (fun this => Qltb (cutSpeed this) (targetFeed this))
       (assign set_cutSpeed (fun this => cutSpeed this + 300 * dtSec);;
        ifThis (fun this => Qgtb (cutSpeed this) (targetFeed this))
          (assign set_cutSpeed (fun this => targetFeed this))
          (ret tt))
       (ret tt);;
     assign set_feedRate (fun this => cutSpeed this);;
     (* XY movement *)
     rx <- Math_random;;
     assign set_axisPositions (fun this =>
       set_axX (axX (axisPositions this) + (rx * 10 - 5)) (axisPositions this));;
     ry <- Math_random;;
     assign set_axisPositions (fun this =>
       set_axY (axY (axisPositions this) + (ry * 10 - 5)) (axisPositions this));;
     (* Temperature *)
     assign set_resonatorTemp (fun this =>
       resonatorTemp this + (laserPower this / maxLaserPower this) * 0.4);;
     ifThis (fun this => Qgeb (timeInPhase this) 8.0)
       (assign set_partCount (fun this => (partCount this + 1)%Z);;
        assign set_totalCycles (fun this => (totalCycles this + 1)%Z);;
        assign set_cyclePhase (fun _ => Phase.IDLE);;
        assign set_execution (fun _ => Exec.IDLE);;
        assign set_timeInPhase (fun _ => 0);;
        assign set_cutSpeed (fun _ => 0);;
        assign set_feedRate (fun _ => 0))
       (ret tt))
    (assign set_execution (fun _ => Exec.IDLE);;
     assign set_spindleLoad (fun _ => 0);;
     assign set_cutSpeed (fun _ => 0);;
     assign set_feedRate (fun _ => 0);;
     assign set_resonatorTemp (fun this =>
       Math_max 26 (resonatorTemp this - 0.05))).

(** ** Health sensors *)

Definition _updateHealthSensors (dtSec : Q) : Sim unit :=
  (* Temperature *)
  ifThis (fun this => bool_decide (execution this = Exec.RUNNING))
    (assign set_temperature (fun this =>
       Math_min 120 (temperature this + (spindleLoad this / 100.0) * 0.3));;
     assign set_spindleTemp (fun this =>
       Math_min 95 (spindleTemp this + (spindleLoad this / 100.0) * 0.15));;
     assign set_currentAmps (fun this => 7 + (spindleLoad this / 100.0) * 8))
    (assign set_temperature (fun this => Math_max 72 (temperature this - 0.2));;
     assign set_spindleTemp (fun this => Math_max 25 (spindleTemp this - 0.03));;
     assign set_currentAmps (fun this => Math_max 7 (currentAmps this - 0.5)));;
  (* Battery drain (very slow) *)
  assign set_batteryVoltage (fun this => batteryVoltage this - 0.0001 * dtSec);;
  ifThis (fun this => Qltb (batteryVoltage this) 2.8)
    (assign set_batteryVoltage (fun _ => 2.8))
    (ret tt);;
  (* Oil system *)
  r <- Math_random;;
  assign set_oilPressure (fun _ => 45 + r * 10);;
  assign set_oilLevel (fun this => Math_max 20 (oilLevel this - 0.001));;
  (* Servo temperatures *)
  ifThis (fun this => bool_decide (execution this = Exec.RUNNING))
    (assign set_servoTemp (fun this =>
       set_axX (Math_min 65 (axX (servoTemp this) + 0.1)) (servoTemp this));;
     assign set_servoTemp (fun this =>
       set_axY (Math_min 65 (axY (servoTemp this) + 0.1)) (servoTemp this));;
     assign set_servoTemp (fun this =>
       set_axZ (Math_min 65 (axZ (servoTemp this) + 0.1)) (servoTemp this)))
    (assign set_servoTemp (fun this =>
       set_axX (Math_max 25 (axX (servoTemp this) - 0.05)) (servoTemp this));;
     assign set_servoTemp (fun this =>
       set_axY (Math_max 25 (axY (servoTemp this) - 0.05)) (servoTemp this));;
     assign set_servoTemp (fun this =>
       set_axZ (Math_max 25 (axZ (servoTemp this) - 0.05)) (servoTemp this))).

(** ** Alarm evaluation *)

(** [this.coolant && this.coolant.level < 10] *)
Definition coolantBelow (x : Q) (m : Machine) : bool :=
  match coolant m with
  | Some c => Qltb (Coolant.level c) x
  | None => false
  end.

(** [tool && tool.currentLife < x] for the active tool. *)
Definition toolLifeBelow (x : Q) (m : Machine) : bool :=
  match activeTool m with
  | Some (_, tool) => Qltb (Tool.currentLife tool) x
  | None => false
  end.

(** The [if ... else if ...] chain of the mill and lathe branch. *)
Definition _checkAlarmsCNC : Sim unit :=
  b <- andRandom (fun this => Qgtb (axX (servoFollowingError this)) 0.005) 0.02;;
  if b then _setAlarm (Some 103%Z) "X AXIS FOLLOWING ERROR" else
  b <- andRandom (fun this => Qgtb (axY (servoFollowingError this)) 0.005) 0.02;;
  if b then _setAlarm (Some 104%Z) "Y AXIS FOLLOWING ERROR" else
  b <- andRandom (fun this => Qgtb (axZ (servoFollowingError this)) 0.005) 0.02;;
  if b then _setAlarm (Some 105%Z) "Z AXIS FOLLOWING ERROR" else
  b <- andRandom (fun this => Qltb (batteryVoltage this) 3.0) 0.05;;
  if b then _setAlarm (Some 9100%Z) "LOW BATTERY" else
  b <- andRandom (coolantBelow 10) 0.1;;
  if b then _setAlarm (Some 115%Z) "COOLANT PUMP FAULT" else
  b <- andRandom (fun this => Qgtb (spindleLoad this) 95) 0.05;;
  if b then _setAlarm None "SPINDLE_OVERLOAD" else
  b <- andRandom (fun this => Qgtb (spindleTemp this) 85) 0.08;;
  if b then _setAlarm (Some 200%Z) "SPINDLE OVER TEMP" else
  ifThis hasToolSlot
    (b <- andRandom (toolLifeBelow 5) 0.15;;
     when b (_setAlarm None "TOOL_LIFE_EXPIRED"))
    (b <- andRandom (fun this => Qgtb (vibration this) 5.0) 0.08;;
     when b (_setAlarm None "HIGH_VIBRATION")).

Definition _checkAlarms : Sim unit :=
  ifThis (fun this => isCNC (type this)) _checkAlarmsCNC (ret tt);;
  ifThis (fun this => bool_decide (type this = PRESS_BRAKE))
    (b <- andRandom (fun this => Qgtb (tonnage this) (maxTonnage this * 0.9)) 0.1;;
     when b (_setAlarm None "OVER_TONNAGE"))
    (ret tt);;
  ifThis (fun this => bool_decide (type this = LASER))
    (b <- andRandom (fun this => Qgtb (spindleLoad this) 95) 0.1;;
     when b (_setAlarm None "LASER_POWER_FAULT");;
     b <- andRandom (fun this => Qgtb (resonatorTemp this) 85) 0.08;;
     when b (_setAlarm None "RESONATOR_OVERHEAT"))
    (ret tt).

(** ** Warnings *)

Definition BATTERY_LOW : Warning.t :=
  Warning.mk "BATTERY_LOW" "warning" "Battery voltage low".
Definition COOLANT_LOW : Warning.t :=
  Warning.mk "COOLANT_LOW" "warning" "Coolant level below 20%".
Definition TOOL_WEAR (currentTool : nat) : Warning.t :=
  Warning.mk "TOOL_WEAR" "warning"
    ("Tool " +:+ pretty currentTool +:+ " life below 15%").
Definition HIGH_TEMP : Warning.t :=
  Warning.mk "HIGH_TEMP" "warning" "Spindle temperature elevated".
Definition HIGH_LOAD : Warning.t :=
  Warning.mk "HIGH_LOAD" "caution" "Spindle load above 85%".

(** [this.warnings.push(w)] *)
Definition pushWarning (w : Machine -> Warning.t) : Sim unit :=
  assign set_warnings (fun this => warnings this ++ [w this]).

Definition _updateWarnings : Sim unit :=
  assign set_warnings (fun _ => []);;
  ifThis (fun this => Qltb (batteryVoltage this) 3.2)
    (pushWarning (fun _ => BATTERY_LOW)) (ret tt);;
  ifThis (coolantBelow 20)
    (pushWarning (fun _ => COOLANT_LOW)) (ret tt);;
  ifThis (toolLifeBelow 15)
    (pushWarning (fun this => TOOL_WEAR (default 0%nat (currentTool this))))
    (ret tt);;
  ifThis (fun this => Qgtb (spindleTemp this) 75)
    (pushWarning (fun _ => HIGH_TEMP)) (ret tt);;
  ifThis (fun this => Qgtb (spindleLoad this) 85)
    (pushWarning (fun _ => HIGH_LOAD)) (ret tt).

(** ** Main update loop *)

Definition update (dtSec : Q) : Sim unit :=
  d <- new_Date;;
  assign set_timestamp (fun _ => d);;
  ifThis (fun this => negb (power this))
    (assign set_execution (fun _ => Exec.STOPPED);;
     assign set_cyclePhase (fun _ => Phase.IDLE);;
     assign set_spindleSpeed (fun _ => 0);;
     assign set_spindleLoad (fun _ => 0);;
     assign set_feedRate (fun _ => 0))
    (assign set_machineOnHours (fun this =>
       machineOnHours this + dtSec / 3600.0);;
     assign set_timeInPhase (fun this => timeInPhase this + dtSec);;
     (* Check for alarms first *)
     ifThis alarmActive
       (assign set_execution (fun _ => Exec.ALARM);;
        assign set_cyclePhase (fun _ => Phase.IDLE);;
        assign set_spindleSpeed (fun this =>
          Math_max 0 (spindleSpeed this - 500 * dtSec));;
        assign set_feedRate (fun _ => 0);;
        (* Auto-recovery (2% chance) *)
        r <- Math_random;;
        when (Qltb r 0.02) _clearAlarm)
       ((* Update based on machine type *)
        ty <- gets type;;
        match ty with
        | CNC_MILL | LATHE => _updateCNCCycle dtSec
        | PRESS_BRAKE => _updatePressCycle dtSec
        | LASER => _updateLaserCycle dtSec
        end;;
        _updateHealthSensors dtSec;;
        _checkAlarms;;
        _updateWarnings)).

(** ** Manual controls *)

Definition setPower (state : bool) : Sim unit :=
  assign set_power (fun _ => state);;
  when (negb state)
    (assign set_execution (fun _ => Exec.STOPPED);;
     assign set_cyclePhase (fun _ => Phase.IDLE)).

Definition injectAlarm (code : option Z) (message : string) : Sim unit :=
  _setAlarm code message.

Definition clearAlarm : Sim unit := _clearAlarm.

(** ** JSON output *)

(** The values stored under the keys of the snapshot. *)
Inductive JSValue :=
| JUndefined
| JNull
| JBool (b : bool)
| JNum (x : Q)
| JInt (n : Z)
| JStr (s : string)
| JDate (ms : Z)
| JType (ty : MachineType)
| JExec (e : Exec.t)
| JPhase (p : Phase.t)
| JSpecs (s : Specs)
| JAxes (a : Axes)
| JHistory (h : list AlarmEntry.t)
| JWarnings (ws : list Warning.t)
| JTools (ts : list Tool.t)
| JCoolant (c : Coolant.t).

Definition ofOption {A} (f : A -> JSValue) (dflt : JSValue) (o : option A)
  : JSValue :=
  match o with
  | Some a => f a
  | None => dflt
  end.

(** The three type-specific blocks and the two optional keys of [toJSON],
    each adding its keys to [data]. *)
Definition addCNC (m : Machine) (data : gmap string JSValue)
  : gmap string JSValue :=
  if isCNC (type m) then
    <["coolant" := ofOption JCoolant JUndefined (coolant m)]>
    (<["toolWear" := JNum (toFixed 3 (toolWear m))]>
    (<["toolChangeCount" := JInt (toolChangeCount m)]>
    (<["tools" := ofOption JTools JUndefined (tools m)]>
    (<["currentTool" :=
         ofOption (fun n => JInt (Z.of_nat n)) JUndefined (currentTool m)]>
     data))))
  else data.

Definition addPress (m : Machine) (data : gmap string JSValue)
  : gmap string JSValue :=
  if bool_decide (type m = PRESS_BRAKE) then
    <["bendAngle" := JInt (Math_round (bendAngle m))]>
    (<["backGauge" := JNum (backGauge m)]>
    (<["ramPosition" := JInt (Math_round (ramPosition m))]>
    (<["maxTonnage" := JNum (maxTonnage m)]>
    (<["tonnage" := JInt (Math_round (tonnage m))]>
     data))))
  else data.

Definition addLaser (m : Machine) (data : gmap string JSValue)
  : gmap string JSValue :=
  if bool_decide (type m = LASER) then
    <["cutSpeed" := JInt (Math_round (cutSpeed m))]>
    (<["resonatorTemp" := JNum (toFixed 1 (resonatorTemp m))]>
    (<["gasPressure" := JInt (Math_round (gasPressure m))]>
    (<["maxLaserPower" := JNum (maxLaserPower m)]>
    (<["laserPower" := JInt (Math_round (laserPower m))]>
     data))))
  else data.

Definition addIfSet (key : string) (o : option string)
    (data : gmap string JSValue) : gmap string JSValue :=
  match o with
  | Some s => if truthy o then <[key := JStr s]> data else data
  | None => data
  end.

(** The object literal [data] of [toJSON], as the list of its keys and
    values in the order of the source. *)
Definition baseData (m : Machine) : list (string * JSValue) :=
  [ ("id", JStr (id m));
    ("name", JStr (name m));
    ("model", JStr (model m));
    ("type", JType (type m));
    ("specs", JSpecs (specs m));
    (* State *)
    ("power", JBool (power m));
    ("execution", JExec (execution m));
    ("cyclePhase", JPhase (cyclePhase m));
    (* Alarms *)
    ("alarm", ofOption JStr JNull (alarm m));
    ("alarmCode", ofOption JInt JNull (alarmCode m));
    ("alarmHistory", JHistory (slice_last 5 (alarmHistory m)));
    ("warnings", JWarnings (warnings m));
    (* Spindle *)
    ("spindleSpeed", JInt (Math_round (spindleSpeed m)));
    ("spindleLoad", JNum (toFixed 1 (spindleLoad m)));
    ("spindleTemp", JNum (toFixed 1 (spindleTemp m)));
    ("spindleHours", JNum (toFixed 3 (spindleHours m)));
    ("spindleOrientation", JInt (Math_round (spindleOrientation m)));
    (* Feed & Motion *)
    ("feedRate", JInt (Math_round (feedRate m)));
    ("rapidRate", JInt (Math_round (rapidRate m)));
    ("axisPositions",
      JAxes (mkAxes (toFixed 2 (axX (axisPositions m)))
                    (toFixed 2 (axY (axisPositions m)))
                    (toFixed 2 (axZ (axisPositions m)))));
    (* Servos *)
    ("servoLoad", JAxes (servoLoad m));
    ("servoFollowingError", JAxes (servoFollowingError m));
    ("servoTemp", JAxes (servoTemp m));
    (* Production *)
    ("partCount", JInt (partCount m));
    ("totalCycles", JInt (totalCycles m));
    ("machineOnHours", JNum (toFixed 3 (machineOnHours m)));
    ("productionRate", JInt (productionRate m));
    (* Health *)
    ("batteryVoltage", JNum (toFixed 2 (batteryVoltage m)));
    ("temperature", JInt (Math_round (temperature m)));
    ("vibration", JNum (toFixed 2 (vibration m)));
    ("currentAmps", JNum (toFixed 1 (currentAmps m)));
    ("oilPressure", JInt (Math_round (oilPressure m)));
    ("oilLevel", JInt (Math_round (oilLevel m)));
    ("timestamp", JDate (timestamp m)) ]%string.

Definition toJSON (m : Machine) : gmap string JSValue :=
  addIfSet "programRunning" (programRunning m)
    (addIfSet "material" (material m)
      (addLaser m (addPress m (addCNC m (list_to_map (baseData m)))))).

(** ** The fleet of [server.js] and runs of the simulation *)

(** The first mill as its constructor call leaves it (server.js:25-37). *)
Definition new_haas_vf2 : Env -> nat -> nat -> World :=
  HaasMachine_new "haas_vf2" "Haas VF-2" "VF-2" CNC_MILL
    (mkSpecsArg (Some (mkLimits (0, 762) (0, 406) (0, 508)))
       (Some 30) (Some 8100) (Some 1000) (Some 24%nat) None None).

(** The machines of the fleet at the first tick: the mills and the lathe
    have their material written on them after the construction, and the
    first mill its program as well (server.js:105-109). *)
Definition haas_vf2 (E : Env) (draws0 dates0 : nat) : World :=
  exec (assign set_material (fun _ => Some "Aluminum 6061"%string);;
        assign set_programRunning (fun _ => Some "O1234"%string))
    E (new_haas_vf2 E draws0 dates0).

Definition haas_vf4 (E : Env) (draws0 dates0 : nat) : World :=
  exec (assign set_material (fun _ => Some "Steel 4140"%string))
    E (HaasMachine_new "haas_vf4" "Haas VF-4" "VF-4" CNC_MILL
         (mkSpecsArg (Some (mkLimits (0, 1270) (0, 508) (0, 635)))
            (Some 30) (Some 8100) (Some 1000) (Some 24%nat) None None)
         E draws0 dates0).

Definition toyoda_hmc (E : Env) (draws0 dates0 : nat) : World :=
  exec (assign set_material (fun _ => Some "Stainless 316"%string))
    E (HaasMachine_new "toyoda_hmc" "Toyoda HMC" "HMC" CNC_MILL
         (mkSpecsArg (Some (mkLimits (0, 800) (0, 700) (0, 600)))
            (Some 40) (Some 12000) (Some 1200) (Some 40%nat) None None)
         E draws0 dates0).

Definition cnc_lathe (E : Env) (draws0 dates0 : nat) : World :=
  exec (assign set_material (fun _ => Some "Brass C360"%string))
    E (HaasMachine_new "cnc_lathe" "CNC Lathe" "LATHE" LATHE
         (mkSpecsArg (Some (mkLimits (0, 300) (0, 200) (0, 500)))
            (Some 20) (Some 4000) (Some 800) (Some 12%nat) None None)
         E draws0 dates0).

Definition durma_press : Env -> nat -> nat -> World :=
  HaasMachine_new "durma_press" "Durma Press Brake" "PRESS" PRESS_BRAKE
    (mkSpecsArg (Some (mkLimits (0, 100) (0, 2000) (0, 300)))
       None None None None (Some 200) None).

Definition fiber_laser : Env -> nat -> nat -> World :=
  HaasMachine_new "fiber_laser" "Fiber Laser" "LASER" LASER
    (mkSpecsArg (Some (mkLimits (0, 1500) (0, 3000) (0, 100)))
       None None None None None (Some 6000)).

(** [n] consecutive calls of [update(dtSec)]. *)
Fixpoint ticks (n : nat) (dtSec : Q) : Sim unit :=
  match n with
  | O => ret tt
  | S n' => update dtSec;; ticks n' dtSec
  end.

(** What the tick driver and the transport layer call on a machine. *)
Inductive Command :=
| Tick (dtSec : Q)
| SetPower (state : bool)
| InjectAlarm (code : option Z) (message : string)
| ClearAlarm.

Definition command (c : Command) : Sim unit :=
  match c with
  | Tick dtSec => update dtSec
  | SetPower state => setPower state
  | InjectAlarm code message => injectAlarm code message
  | ClearAlarm => clearAlarm
  end.

Fixpoint commands (cs : list Command) : Sim unit :=
  match cs with
  | [] => ret tt
  | c :: cs' => command c;; commands cs'
  end.

(** * Properties *)

(** ** Comparisons and clamps *)

Lemma Qltb_lt (a b : Q) : Qltb a b = true <-> a < b.
Proof.
  unfold Qltb. rewrite negb_true_iff, <- not_true_iff_false, Qle_bool_iff.
  split; [apply Qnot_le_lt | apply Qlt_not_le].
Qed.

Lemma Qltb_ge (a b : Q) : Qltb a b = false <-> b <= a.
Proof. unfold Qltb. rewrite negb_false_iff. apply Qle_bool_iff. Qed.

Lemma Qle_bool_gt (a b : Q) : Qle_bool a b = false <-> b < a.
Proof.
  rewrite <- not_true_iff_false, Qle_bool_iff.
  split; [apply Qnot_le_lt | apply Qlt_not_le].
Qed.

Lemma Math_min_le_l (a b : Q) : Math_min a b <= a.
Proof.
  unfold Math_min. destruct (Qle_bool a b) eqn:H; [lra|].
  apply Qle_bool_gt in H. lra.
Qed.

Lemma Math_min_le_r (a b : Q) : Math_min a b <= b.
Proof.
  unfold Math_min. destruct (Qle_bool a b) eqn:H; [|lra].
  apply Qle_bool_iff in H. lra.
Qed.

Lemma Math_max_ge_l (a b : Q) : a <= Math_max a b.
Proof.
  unfold Math_max. destruct (Qle_bool a b) eqn:H; [|lra].
  apply Qle_bool_iff in H. lra.
Qed.

Lemma Math_max_ge_r (a b : Q) : b <= Math_max a b.
Proof.
  unfold Math_max. destruct (Qle_bool a b) eqn:H; [lra|].
  apply Qle_bool_gt in H. lra.
Qed.

(** ** Running a method

    [sim_run] unfolds the monad and leaves the field assignments and the
    tests of the method in place. *)

Ltac sim_run :=
  cbv beta iota zeta delta
    [exec bind assign modify gets ret new_Date ifThis when andRandom
     Math_random modifyCoolant pushWarning];
  cbn [fst snd this draws dates negb].

(** Reads of fields through assignments: [f (set_g v m)] is [f m], or [v]
    when [g] is [f]. *)
Ltac fields :=
  cbn
   [id name model type specs power execution cyclePhase timeInPhase
    cycleTimeTarget alarm alarmCode alarmHistory warnings spindleSpeed
    targetSpindleSpeed spindleLoad spindleTemp spindleHours
    spindleOrientation feedRate targetFeed rapidRate axisPositions
    servoLoad servoFollowingError servoTemp partCount totalCycles
    machineOnHours productionRate batteryVoltage temperature vibration
    currentAmps oilPressure oilLevel currentTool tools toolChangeCount
    toolWear coolant tonnage maxTonnage ramPosition backGauge bendAngle
    laserPower maxLaserPower gasPressure resonatorTemp cutSpeed material
    programRunning timestamp set_power set_execution set_cyclePhase
    set_timeInPhase set_cycleTimeTarget set_alarm set_alarmCode
    set_alarmHistory set_warnings set_spindleSpeed set_targetSpindleSpeed
    set_spindleLoad set_spindleTemp set_spindleHours set_spindleOrientation
    set_feedRate set_targetFeed set_rapidRate set_axisPositions
    set_servoLoad set_servoFollowingError set_servoTemp set_partCount
    set_totalCycles set_machineOnHours set_productionRate
    set_batteryVoltage set_temperature set_vibration set_currentAmps
    set_oilPressure set_oilLevel set_tools set_toolWear set_coolant
    set_tonnage set_ramPosition set_bendAngle set_laserPower
    set_resonatorTemp set_cutSpeed set_material set_programRunning
    set_timestamp axX axY axZ set_axX set_axY set_axZ limX limY limZ
    axisLimits spindlePower maxRPM rapidTraverse toolCapacity
    Coolant.level Coolant.pressure Coolant.temperature Coolant.flow
    Coolant.set_level Coolant.set_pressure Coolant.set_temperature
    Coolant.set_flow AlarmEntry.code AlarmEntry.message AlarmEntry.timestamp
    AlarmEntry.cyclePhase AlarmEntry.spindleLoad AlarmEntry.cleared
    AlarmEntry.set_cleared].

(** ** Invariants of methods

    [inv I c]: running [c] from a machine that satisfies [I] ends in a
    machine that satisfies [I], whatever the environment. *)

Definition inv {A} (I : Machine -> Prop) (c : Sim A) : Prop :=
  forall E w, I (this w) -> I (this (exec c E w)).

Section Inv.
Context (I : Machine -> Prop).

Lemma inv_ret {A} (a : A) : inv I (ret a).
Proof. intros E w H. exact H. Qed.

Lemma inv_bind {A B} (c : Sim A) (k : A -> Sim B) :
  inv I c -> (forall a, inv I (k a)) -> inv I (bind c k).
Proof. intros Hc Hk E w H. apply (Hk _ E), (Hc E), H. Qed.

Lemma inv_gets {A} (f : Machine -> A) : inv I (gets f).
Proof. intros E w H. exact H. Qed.

Lemma inv_modify (f : Machine -> Machine) :
  (forall m, I m -> I (f m)) -> inv I (modify f).
Proof. intros Hf E w H. apply Hf, H. Qed.

Lemma inv_assign {A} (set : A -> Machine -> Machine) (e : Machine -> A) :
  (forall m, I m -> I (set (e m) m)) -> inv I (assign set e).
Proof. intros Hf. apply inv_modify, Hf. Qed.

Lemma inv_Math_random : inv I Math_random.
Proof. intros E w H. exact H. Qed.

Lemma inv_new_Date : inv I new_Date.
Proof. intros E w H. exact H. Qed.

Lemma inv_when (b : bool) (c : Sim unit) : inv I c -> inv I (when b c).
Proof. intros Hc. destruct b; [exact Hc | apply inv_ret]. Qed.

Lemma inv_ifThis (cond : Machine -> bool) (c1 c2 : Sim unit) :
  inv I c1 -> inv I c2 -> inv I (ifThis cond c1 c2).
Proof.
  intros H1 H2. apply inv_bind; [apply inv_gets|].
  intros []; assumption.
Qed.

Lemma inv_andRandom (cond : Machine -> bool) (p : Q) :
  inv I (andRandom cond p).
Proof.
  apply inv_bind; [apply inv_gets|]. intros [].
  - apply inv_bind; [apply inv_Math_random | intros; apply inv_ret].
  - apply inv_ret.
Qed.

Lemma inv_modifyTool (f : Tool.t -> Tool.t) :
  (forall m ts, I m -> I (set_tools (Some ts) m)) -> inv I (modifyTool f).
Proof.
  intros Hf. apply inv_modify. intros m Hm.
  destruct (activeTool m) as [[i tool]|]; [|exact Hm].
  destruct (tools m); [apply Hf, Hm | exact Hm].
Qed.

Lemma inv_modifyCoolant (f : Coolant.t -> Coolant.t) :
  (forall m c, I m -> I (set_coolant (Some c) m)) -> inv I (modifyCoolant f).
Proof.
  intros Hf. apply inv_modify. intros m Hm.
  destruct (coolant m); [apply Hf, Hm | exact Hm].
Qed.
End Inv.

Create HintDb inv discriminated.

Ltac head_of t :=
  lazymatch t with
  | ?f _ => head_of f
  | _ => t
  end.

(** Walks through the statements of a method; what is left are the
    assignments that touch a field the invariant reads. *)
Ltac inv_step :=
  lazymatch goal with
  | |- forall _, _ => intro
  | |- inv _ (ret _) => apply inv_ret
  | |- inv _ (gets _) => apply inv_gets
  | |- inv _ Math_random => apply inv_Math_random
  | |- inv _ new_Date => apply inv_new_Date
  | |- inv _ (andRandom _ _) => apply inv_andRandom
  | |- inv _ (bind _ _) => apply inv_bind
  | |- inv _ (when _ _) => apply inv_when
  | |- inv _ (ifThis _ _ _) => apply inv_ifThis
  | |- inv _ (assign _ _) =>
      apply inv_assign; try (intros ? H; exact H)
  | |- inv _ (modifyTool _) =>
      apply inv_modifyTool; try (intros ? ? H; exact H)
  | |- inv _ (modifyCoolant _) =>
      apply inv_modifyCoolant; try (intros ? ? H; exact H)
  | |- inv _ (match ?x with _ => _ end) => destruct x
  | |- inv _ (let _ := _ in _) => cbv zeta
  | |- inv _ ?c =>
      first [ solve [auto with inv nocore]
            | let h := head_of c in progress unfold h ]
  end.

Ltac inv_walk := repeat inv_step.

(** Methods defined by recursion. *)

Lemma inv_pushTools (I : Machine -> Prop) (n from : nat) :
  inv I (pushTools n from).
Proof.
  revert from. induction n as [|n IH]; intros from; simpl.
  - apply inv_ret.
  - inv_walk.
Qed.

Lemma inv_ticks (I : Machine -> Prop) (n : nat) (dtSec : Q) :
  inv I (update dtSec) -> inv I (ticks n dtSec).
Proof.
  intros Hu. induction n as [|n IH]; simpl.
  - apply inv_ret.
  - apply inv_bind; [exact Hu | intros _; exact IH].
Qed.

Lemma inv_commands (I : Machine -> Prop) (cs : list Command) :
  (forall c, inv I (command c)) -> inv I (commands cs).
Proof.
  intros Hc. induction cs as [|c cs IH]; simpl.
  - apply inv_ret.
  - apply inv_bind; [apply Hc | intros _; exact IH].
Qed.

#[local] Hint Resolve inv_pushTools : inv.

(** The constructor leaves alone every field [blankMachine] sets, apart
    from [cycleTimeTarget], [tools] and [timestamp]. *)
Lemma HaasMachine_new_inv (I : Machine -> Prop) id name model ty a E d0 t0 :
  (forall m v, I m -> I (set_cycleTimeTarget v m)) ->
  (forall m v, I m -> I (set_tools v m)) ->
  (forall m v, I m -> I (set_timestamp v m)) ->
  I (blankMachine id name model ty a) ->
  I (this (HaasMachine_new id name model ty a E d0 t0)).
Proof.
  intros H1 H2 H3 H0. unfold HaasMachine_new.
  match goal with |- I (this (exec ?c _ ?w)) => cut (inv I c) end.
  { intros Hc. apply Hc, H0. }
  inv_walk; auto.
Qed.

(** ** Alarm history *)

Definition historyBounded (m : Machine) : Prop :=
  (length (alarmHistory m) <= 20)%nat.

(** The entry [_setAlarm] pushes. *)
Definition newEntry (code : option Z) (message : string) (E : Env) (w : World)
  : AlarmEntry.t :=
  AlarmEntry.mk code message (date_at E (dates w)) (cyclePhase (this w))
    (spindleLoad (this w)) false.

Lemma slice_last_all {A} (n : nat) (l : list A) :
  (length l <= n)%nat -> slice_last n l = l.
Proof.
  intros H. unfold slice_last.
  replace (length l - n)%nat with 0%nat by lia. reflexivity.
Qed.

Lemma length_slice_last {A} (n : nat) (l : list A) :
  length (slice_last n l) = (length l `min` n)%nat.
Proof. unfold slice_last. rewrite length_drop. lia. Qed.

Lemma setAlarm_this (code : option Z) (message : string) E w :
  this (exec (_setAlarm code message) E w) =
  set_alarmHistory
    (slice_last 20 (alarmHistory (this w) ++ [newEntry code message E w]))
    (set_alarmCode code (set_alarm (Some message) (this w))).
Proof.
  unfold _setAlarm, newEntry. sim_run.
  destruct (20 <? _)%nat eqn:Hlen; sim_run.
  - reflexivity.
  - apply Nat.ltb_ge in Hlen. rewrite slice_last_all by exact Hlen.
    reflexivity.
Qed.

Lemma setAlarm_history (code : option Z) (message : string) E w :
  alarmHistory (this (exec (_setAlarm code message) E w)) =
  slice_last 20 (alarmHistory (this w) ++ [newEntry code message E w]).
Proof. rewrite setAlarm_this. reflexivity. Qed.

Lemma set_alarmHistory_id (m : Machine) :
  set_alarmHistory (alarmHistory m) m = m.
Proof. destruct m; reflexivity. Qed.

(** [_clearAlarm] on the machine alone. *)
Definition clearedHistory (h : list AlarmEntry.t) : list AlarmEntry.t :=
  alter (AlarmEntry.set_cleared true) (length h - 1)%nat h.

Lemma clearAlarm_this E w :
  this (exec _clearAlarm E w) =
  set_execution Exec.IDLE
    (set_alarmCode None
      (set_alarm None
        (set_alarmHistory (clearedHistory (alarmHistory (this w))) (this w)))).
Proof.
  unfold _clearAlarm, clearedHistory. sim_run.
  destruct (0 <? _)%nat eqn:Hlen; sim_run.
  - reflexivity.
  - apply Nat.ltb_ge in Hlen.
    destruct (alarmHistory (this w)) as [|e h] eqn:Hh; [|simpl in Hlen; lia].
    simpl. rewrite <- Hh, set_alarmHistory_id. reflexivity.
Qed.

Lemma clearAlarm_world E w :
  draws (exec _clearAlarm E w) = draws w /\
  dates (exec _clearAlarm E w) = dates w.
Proof.
  unfold _clearAlarm. sim_run.
  destruct (0 <? _)%nat; sim_run; auto.
Qed.

Lemma clearedHistory_snoc (h : list AlarmEntry.t) (e : AlarmEntry.t) :
  clearedHistory (h ++ [e]) = h ++ [AlarmEntry.set_cleared true e].
Proof.
  unfold clearedHistory. rewrite length_app. simpl.
  replace (length h + 1 - 1)%nat with (length h + 0)%nat by lia.
  rewrite alter_app_r. reflexivity.
Qed.

Lemma length_clearedHistory (h : list AlarmEntry.t) :
  length (clearedHistory h) = length h.
Proof. unfold clearedHistory. apply length_alter. Qed.

Lemma inv_setAlarm_bounded code message :
  inv historyBounded (_setAlarm code message).
Proof.
  intros E w _. unfold historyBounded.
  rewrite setAlarm_history, length_slice_last. lia.
Qed.

Lemma inv_clearAlarm_bounded : inv historyBounded _clearAlarm.
Proof.
  intros E w H. unfold historyBounded in *.
  rewrite clearAlarm_this. cbn. rewrite length_clearedHistory. exact H.
Qed.

#[local] Hint Resolve inv_setAlarm_bounded inv_clearAlarm_bounded : inv.

Lemma inv_update_bounded dtSec : inv historyBounded (update dtSec).
Proof. inv_walk. Qed.

Lemma inv_command_bounded c : inv historyBounded (command c).
Proof. destruct c; simpl; [apply inv_update_bounded | inv_walk..]. Qed.

(** An entry with its [cleared] flag set and the rest as it was. *)
Definition marked (e : AlarmEntry.t) : AlarmEntry.t :=
  AlarmEntry.mk (AlarmEntry.code e) (AlarmEntry.message e)
    (AlarmEntry.timestamp e) (AlarmEntry.cyclePhase e)
    (AlarmEntry.spindleLoad e) true.

(** Clearing keeps every entry at its place and marks the last one. *)
Lemma clearedHistory_marked (h : list AlarmEntry.t) :
  clearedHistory h =
  take (length h - 1) h ++ (marked <$> drop (length h - 1) h).
Proof.
  destruct h as [|e0 h0] using rev_ind; [reflexivity|].
  rewrite clearedHistory_snoc, length_app. simpl.
  replace (length h0 + 1 - 1)%nat with (length h0) by lia.
  rewrite take_app_length, drop_app_length. reflexivity.
Qed.

(** C6. The alarm history of a machine never holds more than 20 entries,
    whatever sequence of ticks, power toggles, injected alarms and clears
    it went through since its construction.  Setting an alarm appends the
    new entry and keeps the last 20 of the result: what is dropped is a
    prefix of the old history (the oldest entries), of length 1 when the
    history was full.  Clearing removes nothing and moves nothing: the
    history after [_clearAlarm] is the history before it, entry by entry,
    except that the last entry has its [cleared] flag set, with its
    code, message, time stamp, phase and load as they were; an entry
    that was marked before is still there and still marked. *)
Theorem alarmHistory_bounded_fifo :
  (forall E id name model ty a d0 t0 cs,
     (length (alarmHistory (this (exec (commands cs) E
        (HaasMachine_new id name model ty a E d0 t0)))) <= 20)%nat) /\
  (forall E w code message,
     let h := alarmHistory (this w) in
     let h' := alarmHistory (this (exec (_setAlarm code message) E w)) in
     h' = slice_last 20 (h ++ [newEntry code message E w]) /\
     length h' = ((length h + 1) `min` 20)%nat /\
     h ++ [newEntry code message E w] = take (length h + 1 - 20) h ++ h') /\
  (forall E w,
     let h := alarmHistory (this w) in
     let h' := alarmHistory (this (exec _clearAlarm E w)) in
     length h' = length h /\
     h' = take (length h - 1) h ++ (marked <$> drop (length h - 1) h) /\
     (forall i e, h !! i = Some e ->
        exists e', h' !! i = Some e' /\
          AlarmEntry.code e' = AlarmEntry.code e /\
          AlarmEntry.message e' = AlarmEntry.message e /\
          AlarmEntry.timestamp e' = AlarmEntry.timestamp e /\
          AlarmEntry.cyclePhase e' = AlarmEntry.cyclePhase e /\
          AlarmEntry.spindleLoad e' = AlarmEntry.spindleLoad e /\
          AlarmEntry.cleared e' =
            (if bool_decide (S i = length h) then true
             else AlarmEntry.cleared e))).
Proof.
  split; [|split].
  - intros. apply (inv_commands historyBounded).
    + apply inv_command_bounded.
    + apply (HaasMachine_new_inv historyBounded); try (intros; assumption).
      unfold historyBounded. simpl. lia.
  - intros E w code message h h'. subst h'.
    rewrite setAlarm_history. fold h. split; [reflexivity|]. split.
    + rewrite length_slice_last, length_app. simpl. reflexivity.
    + unfold slice_last. rewrite length_app. simpl.
      set (k := (length h + 1 - 20)%nat).
      assert (Hk : (k <= length h)%nat) by (unfold k; lia).
      rewrite <- (take_drop k (h ++ _)) at 1.
      rewrite take_app_le by exact Hk. reflexivity.
  - intros E w h h'.
    assert (Hh : h' = clearedHistory h)
      by (subst h h'; rewrite clearAlarm_this; reflexivity).
    rewrite Hh. clearbody h h'. clear Hh.
    split; [apply length_clearedHistory|].
    split; [apply clearedHistory_marked|].
    intros i e Hi. unfold clearedHistory. rewrite list_lookup_alter.
    assert (i < length h)%nat by (eapply lookup_lt_Some, Hi).
    destruct (decide (S i = length h)) as [Hlast|Hlast].
    + rewrite bool_decide_eq_true_2 by exact Hlast.
      rewrite decide_True by lia.
      replace (length h - 1)%nat with i by lia. rewrite Hi.
      exists (marked e). split; [reflexivity | repeat split; reflexivity].
    + rewrite bool_decide_eq_false_2 by exact Hlast.
      rewrite decide_False by lia.
      exists e. split; [exact Hi | repeat split; reflexivity].
Qed.

(** ** The early returns of [update] *)

(** The machine after a tick spent powered off, [d] being the clock. *)
Definition poweredOffTick (d : Z) (m : Machine) : Machine :=
  set_feedRate 0
    (set_spindleLoad 0
      (set_spindleSpeed 0
        (set_cyclePhase Phase.IDLE
          (set_execution Exec.STOPPED (set_timestamp d m))))).

(** The machine after the statements of the alarm branch that precede
    the auto-recovery draw. *)
Definition alarmTick (dtSec : Q) (d : Z) (m : Machine) : Machine :=
  set_feedRate 0
    (set_spindleSpeed (Math_max 0 (spindleSpeed m - 500 * dtSec))
      (set_cyclePhase Phase.IDLE
        (set_execution Exec.ALARM
          (set_timeInPhase (timeInPhase m + dtSec)
            (set_machineOnHours (machineOnHours m + dtSec / 3600.0)
              (set_timestamp d m)))))).

Lemma update_powered_off dtSec E w :
  power (this w) = false ->
  exec (update dtSec) E w =
  mkWorld (poweredOffTick (date_at E (dates w)) (this w))
          (draws w) (S (dates w)).
Proof.
  intros Hp. unfold update. sim_run. fields.
  rewrite Hp. sim_run. reflexivity.
Qed.

Lemma update_alarm_active dtSec E w :
  power (this w) = true ->
  alarmActive (this w) = true ->
  exec (update dtSec) E w =
  let w1 := mkWorld (alarmTick dtSec (date_at E (dates w)) (this w))
                    (S (draws w)) (S (dates w)) in
  if Qltb (random_at E (draws w)) 0.02 then exec _clearAlarm E w1 else w1.
Proof.
  intros Hp Ha. unfold update. sim_run. fields.
  rewrite Hp. sim_run. unfold alarmActive in *. fields.
  rewrite Ha. sim_run.
  destruct (Qltb (random_at E (draws w)) 0.02); reflexivity.
Qed.

(** C8. A tick entered with the power off leaves the machine stopped:
    execution STOPPED, phase IDLE, spindle speed, spindle load and feed
    rate 0.  Apart from these five fields and the time stamp nothing
    changes: no hours accrue, no draw is made, and the alarm, the alarm
    history and the warnings are the ones the tick found.  This is the
    state of the first tick after [setPower(false)], whatever the machine
    was doing. *)
Theorem power_off_tick (dtSec : Q) (E : Env) (w : World) :
  power (this w) = false ->
  let w' := exec (update dtSec) E w in
  execution (this w') = Exec.STOPPED /\
  cyclePhase (this w') = Phase.IDLE /\
  spindleSpeed (this w') == 0 /\
  spindleLoad (this w') == 0 /\
  feedRate (this w') == 0 /\
  w' = mkWorld (poweredOffTick (date_at E (dates w)) (this w))
               (draws w) (S (dates w)) /\
  machineOnHours (this w') = machineOnHours (this w) /\
  timeInPhase (this w') = timeInPhase (this w) /\
  alarm (this w') = alarm (this w) /\
  alarmHistory (this w') = alarmHistory (this w) /\
  warnings (this w') = warnings (this w) /\
  draws w' = draws w /\
  exec (setPower false;; update dtSec) E w =
    mkWorld (poweredOffTick (date_at E (dates w)) (set_power false (this w)))
            (draws w) (S (dates w)).
Proof.
  intros Hp w'. subst w'. rewrite (update_powered_off dtSec E w Hp).
  repeat split; reflexivity.
Qed.

(** The theorem at the first mill of the fleet, switched off before its
    first tick. *)
Definition stubEnv : Env := mkEnv (fun _ => 1 / 2) (fun k => Z.of_nat k).

Lemma power_off_tick_witness :
  let w := exec (setPower false) stubEnv (haas_vf2 stubEnv 0 0) in
  power (this w) = false /\
  execution (this (exec (update 2) stubEnv w)) = Exec.STOPPED.
Proof.
  split; [reflexivity|].
  apply (power_off_tick 2 stubEnv
           (exec (setPower false) stubEnv (haas_vf2 stubEnv 0 0))).
  reflexivity.
Defined.

(** C2. A tick entered with the power on and an alarm active runs the
    alarm branch only.  It adds the elapsed time to the on-hours and the
    phase timer, sets execution ALARM and phase IDLE, lowers the spindle
    speed by [500 * dtSec] (not below 0), zeroes the feed rate and makes
    exactly one draw: the alarm is cleared when that draw is below 0.02
    and stays otherwise.  Nothing else changes: the final machine is
    [alarmTick], followed by [_clearAlarm] in the first case, so no cycle
    step, no sensor drift, no alarm evaluation and no recomputation of the
    warnings takes place. *)
Theorem alarm_tick (dtSec : Q) (E : Env) (w : World) :
  power (this w) = true ->
  alarmActive (this w) = true ->
  let r := random_at E (draws w) in
  let w1 := mkWorld (alarmTick dtSec (date_at E (dates w)) (this w))
                    (S (draws w)) (S (dates w)) in
  let w' := exec (update dtSec) E w in
  w' = (if Qltb r 0.02 then exec _clearAlarm E w1 else w1) /\
  execution (this w1) = Exec.ALARM /\
  cyclePhase (this w') = Phase.IDLE /\
  spindleSpeed (this w') = Math_max 0 (spindleSpeed (this w) - 500 * dtSec) /\
  0 <= spindleSpeed (this w') /\
  feedRate (this w') == 0 /\
  draws w' = S (draws w) /\
  warnings (this w') = warnings (this w) /\
  (r < 0.02 ->
     alarm (this w') = None /\ alarmCode (this w') = None /\
     execution (this w') = Exec.IDLE /\
     alarmHistory (this w') = clearedHistory (alarmHistory (this w))) /\
  (0.02 <= r ->
     w' = w1 /\ alarm (this w') = alarm (this w) /\
     execution (this w') = Exec.ALARM /\
     alarmHistory (this w') = alarmHistory (this w)).
Proof.
  intros Hp Ha r w1 w'.
  assert (Hw : w' = if Qltb r 0.02 then exec _clearAlarm E w1 else w1)
    by exact (update_alarm_active dtSec E w Hp Ha).
  clearbody w'. subst w'.
  assert (Hc : this (exec _clearAlarm E w1) =
               set_execution Exec.IDLE (set_alarmCode None (set_alarm None
                 (set_alarmHistory (clearedHistory (alarmHistory (this w1)))
                    (this w1))))) by apply clearAlarm_this.
  destruct (clearAlarm_world E w1) as [Hd _].
  split; [reflexivity|]. split; [reflexivity|].
  destruct (Qltb r 0.02) eqn:Hr.
  - rewrite Hc, Hd. apply Qltb_lt in Hr.
    repeat split; try reflexivity; try (intros; lra).
    apply Math_max_ge_l.
  - apply Qltb_ge in Hr.
    repeat split; try reflexivity; try (intros; lra).
    apply Math_max_ge_l.
Qed.

(** The theorem at the first mill of the fleet with an injected alarm. *)
Lemma alarm_tick_witness :
  let w := exec (injectAlarm (Some 103%Z) "X AXIS FOLLOWING ERROR") stubEnv
             (haas_vf2 stubEnv 0 0) in
  power (this w) = true /\ alarmActive (this w) = true /\
  execution (this (exec (update 2) stubEnv w)) = Exec.ALARM.
Proof.
  split; [reflexivity|]. split; [reflexivity|].
  pose proof (alarm_tick 2 stubEnv
    (exec (injectAlarm (Some 103%Z) "X AXIS FOLLOWING ERROR") stubEnv
       (haas_vf2 stubEnv 0 0)) eq_refl eq_refl) as H.
  cbv zeta in H. destruct H as (_ & _ & _ & _ & _ & _ & _ & _ & _ & H).
  apply H. vm_compute. discriminate.
Defined.

(** ** Clearing an alarm *)

Lemma exec_bind {A B} (c : Sim A) (k : A -> Sim B) E w :
  exec (bind c k) E w = exec (k (fst (c E w))) E (exec c E w).
Proof. reflexivity. Qed.

Lemma slice_last_snoc {A} (n : nat) (l : list A) (x : A) :
  slice_last (S n) (l ++ [x]) = slice_last n l ++ [x].
Proof.
  unfold slice_last. rewrite length_app. simpl.
  replace (length l + 1 - S n)%nat with (length l - n)%nat by lia.
  apply drop_app_le. lia.
Qed.

(** C5. Clearing an alarm, by the [clearAlarm] command or by the
    auto-recovery draw of [update], marks the most recent entry of the
    alarm history as cleared and leaves its code, message and the other
    entries as they were, sets [alarm] and [alarmCode] to null and sets
    the execution mode to IDLE.  In particular, after
    [injectAlarm(103, "X AXIS FOLLOWING ERROR")] and [clearAlarm()] the
    last entry of the history has code 103, that message and
    [cleared = true]. *)
Theorem clearing_marks_last_entry :
  (forall E w h e,
     alarmHistory (this w) = h ++ [e] ->
     let m' := this (exec clearAlarm E w) in
     alarmHistory m' = h ++ [marked e] /\
     alarm m' = None /\ alarmCode m' = None /\ execution m' = Exec.IDLE) /\
  (forall E dtSec w h e,
     power (this w) = true ->
     alarmActive (this w) = true ->
     random_at E (draws w) < 0.02 ->
     alarmHistory (this w) = h ++ [e] ->
     let m' := this (exec (update dtSec) E w) in
     alarmHistory m' = h ++ [marked e] /\
     alarm m' = None /\ alarmCode m' = None /\ execution m' = Exec.IDLE) /\
  (forall E w,
     let m' :=
       this (exec (injectAlarm (Some 103%Z) "X AXIS FOLLOWING ERROR";;
                   clearAlarm) E w) in
     alarm m' = None /\ alarmCode m' = None /\ execution m' = Exec.IDLE /\
     exists e,
       last (alarmHistory m') = Some e /\
       AlarmEntry.cleared e = true /\
       AlarmEntry.code e = Some 103%Z /\
       AlarmEntry.message e = "X AXIS FOLLOWING ERROR"%string).
Proof.
  split; [|split].
  - intros E w h e Hh m'. subst m'. unfold clearAlarm.
    rewrite clearAlarm_this. fields.
    rewrite Hh, clearedHistory_snoc. auto.
  - intros E dtSec w h e Hp Ha Hr Hh m'. subst m'.
    rewrite (update_alarm_active dtSec E w Hp Ha). cbv zeta.
    apply Qltb_lt in Hr. rewrite Hr.
    rewrite clearAlarm_this. unfold alarmTick. sim_run. fields.
    rewrite Hh, clearedHistory_snoc. auto.
  - intros E w m'. subst m'. rewrite exec_bind. unfold clearAlarm, injectAlarm.
    rewrite clearAlarm_this, setAlarm_history. fields.
    rewrite slice_last_snoc, clearedHistory_snoc.
    repeat split; [].
    eexists. rewrite last_snoc. repeat split; reflexivity.
Qed.

Lemma clearing_marks_last_entry_witness :
  let w := exec (injectAlarm (Some 103%Z) "X AXIS FOLLOWING ERROR") stubEnv
             (haas_vf2 stubEnv 0 0) in
  alarmHistory (this w) = [] ++ [newEntry (Some 103%Z)
    "X AXIS FOLLOWING ERROR" stubEnv (haas_vf2 stubEnv 0 0)] /\
  alarm (this (exec clearAlarm stubEnv w)) = None.
Proof.
  split; [vm_compute; reflexivity|].
  apply (proj1 clearing_marks_last_entry stubEnv
    (exec (injectAlarm (Some 103%Z) "X AXIS FOLLOWING ERROR") stubEnv
       (haas_vf2 stubEnv 0 0)) []
    (newEntry (Some 103%Z) "X AXIS FOLLOWING ERROR" stubEnv
       (haas_vf2 stubEnv 0 0))).
  vm_compute. reflexivity.
Defined.

(** ** The full tick *)

(** The statements of [update] behind the two early returns. *)
Definition tickBody (dtSec : Q) : Sim unit :=
  ty <- gets type;;
  match ty with
  | CNC_MILL | LATHE => _updateCNCCycle dtSec
  | PRESS_BRAKE => _updatePressCycle dtSec
  | LASER => _updateLaserCycle dtSec
  end;;
  _updateHealthSensors dtSec;;
  _checkAlarms;;
  _updateWarnings.

(** The machine at the point where [update] tests [this.alarm]. *)
Definition tickStart (dtSec : Q) (d : Z) (m : Machine) : Machine :=
  set_timeInPhase (timeInPhase m + dtSec)
    (set_machineOnHours (machineOnHours m + dtSec / 3600.0)
      (set_timestamp d m)).

Lemma update_running dtSec E w :
  power (this w) = true ->
  alarmActive (this w) = false ->
  exec (update dtSec) E w =
  exec (tickBody dtSec) E
    (mkWorld (tickStart dtSec (date_at E (dates w)) (this w))
             (draws w) (S (dates w))).
Proof.
  intros Hp Ha. unfold update, tickBody. sim_run. fields.
  rewrite Hp. sim_run. unfold alarmActive in *. fields.
  rewrite Ha. reflexivity.
Qed.

(** A field that every statement of [c] leaves alone has the same value
    after [c]. *)
Lemma frame {A B} (f : Machine -> B) (c : Sim A) :
  (forall v, inv (fun m => f m = v) c) ->
  forall E w, f (this (exec c E w)) = f (this w).
Proof. intros H E w. apply (H (f (this w)) E w). reflexivity. Qed.

(** ** Warnings *)

(** The warnings that the thresholds of a machine call for. *)
Definition warningsFor (m : Machine) : list Warning.t :=
  (if Qltb (batteryVoltage m) 3.2 then [BATTERY_LOW] else []) ++
  (if coolantBelow 20 m then [COOLANT_LOW] else []) ++
  (if toolLifeBelow 15 m
   then [TOOL_WEAR (default 0%nat (currentTool m))] else []) ++
  (if Qgtb (spindleTemp m) 75 then [HIGH_TEMP] else []) ++
  (if Qgtb (spindleLoad m) 85 then [HIGH_LOAD] else []).

Lemma warningsFor_set_warnings (ws : list Warning.t) (m : Machine) :
  warningsFor (set_warnings ws m) = warningsFor m.
Proof. reflexivity. Qed.

Lemma updateWarnings_this E w :
  this (exec _updateWarnings E w) =
  set_warnings (warningsFor (this w)) (this w).
Proof.
  unfold _updateWarnings, warningsFor, coolantBelow, toolLifeBelow, activeTool.
  destruct (Qltb (batteryVoltage (this w)) 3.2) eqn:H1;
  destruct (coolant (this w)) as [c|] eqn:H2;
  [destruct (Qltb (Coolant.level c) 20) eqn:H2'| |
   destruct (Qltb (Coolant.level c) 20) eqn:H2'| ];
  (destruct (tools (this w)) as [ts|] eqn:H3;
   destruct (currentTool (this w)) as [[|i]|] eqn:H4;
   [| destruct (ts !! i) as [tool|] eqn:H5;
      [destruct (Qltb (Tool.currentLife tool) 15) eqn:H5'|] |..]);
  destruct (Qgtb (spindleTemp (this w)) 75) eqn:H6;
  destruct (Qgtb (spindleLoad (this w)) 85) eqn:H7;
  repeat (sim_run; fields;
          rewrite ?H1, ?H2, ?H2', ?H3, ?H4, ?H5, ?H5', ?H6, ?H7);
  reflexivity.
Qed.

Lemma tickBody_warnings dtSec E w :
  warnings (this (exec (tickBody dtSec) E w)) =
  warningsFor (this (exec (tickBody dtSec) E w)).
Proof.
  unfold tickBody. rewrite !exec_bind.
  rewrite updateWarnings_this, warningsFor_set_warnings. reflexivity.
Qed.

(** C4, as the code has it.  After a tick entered with the power on and
    no alarm active, the warnings are the ones the thresholds of the
    machine call for at the end of that tick (battery below 3.2, coolant
    level below 20, life of the active tool below 15, spindle temperature
    above 75, load above 85), in that order and with nothing kept from
    earlier ticks.  A tick entered with the power off or an alarm active
    returns before the warnings are recomputed and leaves the list as it
    found it. *)
Theorem warnings_recomputed (dtSec : Q) (E : Env) (w : World) :
  let w' := exec (update dtSec) E w in
  warnings (this w') =
  if negb (power (this w)) || alarmActive (this w)
  then warnings (this w)
  else warningsFor (this w').
Proof.
  intros w'. subst w'.
  destruct (power (this w)) eqn:Hp; cbn [negb orb].
  - destruct (alarmActive (this w)) eqn:Ha.
    + rewrite (update_alarm_active dtSec E w Hp Ha). cbv zeta.
      destruct (Qltb _ 0.02); [rewrite clearAlarm_this|]; reflexivity.
    + rewrite (update_running dtSec E w Hp Ha). apply tickBody_warnings.
  - rewrite (update_powered_off dtSec E w Hp). reflexivity.
Qed.

(** Draws for the laser of the fleet under 2 s ticks: every cycle starts
    on the tick after the previous one ends and takes 18 draws (start,
    power, target feed, then X, Y and oil pressure on each of its five
    ticks).  The power draw is [power], and the X and Y draws are 0.99. *)
Definition laserEnv (power : Q) : Env :=
  mkEnv (fun k =>
           match k with
           | O => 1 / 2
           | S k' =>
               match (k' mod 18)%nat with
               | 0%nat => 0.01
               | 1%nat => power
               | 2%nat => 1 / 2
               | S (S (S j)) =>
                   match (j mod 3)%nat with
                   | 2%nat => 1 / 2
                   | _ => 0.99
                   end
               end
           end)
        (fun k => (2000 * Z.of_nat k)%Z).

(** C4 as stated fails: the laser of the fleet raises HIGH_LOAD on its
    first tick (load 93.3); switched off, its next tick zeroes the load
    and returns with the warning still listed. *)
Lemma warnings_stale_counterexample :
  ~ (forall dtSec E w,
       warnings (this (exec (update dtSec) E w)) =
       warningsFor (this (exec (update dtSec) E w))).
Proof.
  intros H.
  specialize (H 2 (laserEnv 0.9)
    (exec (update 2;; setPower false) (laserEnv 0.9)
       (fiber_laser (laserEnv 0.9) 0 0))).
  vm_compute in H. discriminate H.
Qed.

(** ** The snapshot *)

Lemma Math_round_near (x : Q) :
  x - 1 / 2 < inject_Z (Math_round x) /\ inject_Z (Math_round x) <= x + 1 / 2.
Proof.
  unfold Math_round.
  pose proof (Qfloor_le (x + 1 / 2)) as Hle.
  pose proof (Qlt_floor (x + 1 / 2)) as Hlt.
  rewrite inject_Z_plus in Hlt. change (inject_Z 1) with 1 in Hlt.
  change (1 / 2) with (1 # 2) in *. split; lra.
Qed.

Lemma pow10_pos (d : nat) : 0 < pow10 d.
Proof.
  unfold pow10. change 0 with (inject_Z 0). rewrite <- Zlt_Qlt.
  apply Z.pow_pos_nonneg; lia.
Qed.

(** Rounding [y] to the nearest integer and dividing by [p]. *)
Lemma round_div_near (y p : Q) :
  0 < p ->
  Qabs (inject_Z (Qfloor (y + 1 / 2)) / p - y / p) <= 1 / 2 / p.
Proof.
  intros Hp.
  pose proof (Qfloor_le (y + 1 / 2)) as Hle.
  pose proof (Qlt_floor (y + 1 / 2)) as Hlt.
  rewrite inject_Z_plus in Hlt. change (inject_Z 1) with 1 in Hlt.
  set (n := inject_Z (Qfloor (y + 1 / 2))) in *.
  change (1 / 2) with (1 # 2) in *.
  assert (Hq : 0 < / p) by (apply Qinv_lt_0_compat; exact Hp).
  assert (E : n / p - y / p == (n - y) * / p) by (field; lra).
  assert (E2 : (1 # 2) / p == (1 # 2) * / p) by (field; lra).
  rewrite E, E2. apply Qabs_Qle_condition. split.
  - assert (H : (- (1 # 2)) * / p <= (n - y) * / p)
      by (apply Qmult_le_compat_r; lra).
    lra.
  - apply Qmult_le_compat_r; lra.
Qed.

(** [toFixed d x] is a whole number of units [10^-d], at most half a unit
    away from [x]. *)
Lemma toFixed_near (d : nat) (x : Q) :
  (exists n : Z, toFixed d x == inject_Z n / pow10 d) /\
  Qabs (toFixed d x - x) <= 1 / 2 / pow10 d.
Proof.
  pose proof (pow10_pos d) as Hp.
  unfold toFixed. destruct (Qltb x 0) eqn:Hx.
  - split.
    + exists (- Qfloor (- x * pow10 d + 1 / 2))%Z.
      rewrite inject_Z_opp. field. lra.
    + pose proof (round_div_near (- x * pow10 d) (pow10 d) Hp) as H.
      assert (E : - x * pow10 d / pow10 d == - x) by (field; lra).
      rewrite E in H.
      rewrite <- Qabs_opp.
      match goal with
      | |- Qabs ?a <= _ =>
          match type of H with
          | Qabs ?b <= _ => assert (E' : a == b) by ring
          end
      end.
      rewrite E'. exact H.
  - split.
    + eexists. reflexivity.
    + pose proof (round_div_near (x * pow10 d) (pow10 d) Hp) as H.
      assert (E : x * pow10 d / pow10 d == x) by (field; lra).
      rewrite E in H. exact H.
Qed.

(** Looking a key up in the snapshot. *)

Lemma lookup_addIfSet (key : string) (o : option string)
    (data : gmap string JSValue) (k : string) :
  addIfSet key o data !! k =
  if bool_decide (key = k) && truthy o then JStr <$> o else data !! k.
Proof.
  unfold addIfSet. destruct o as [s|]; simpl.
  - destruct (negb (String.eqb s "")); case_bool_decide; subst; simpl;
      rewrite ?lookup_insert_eq, ?lookup_insert_ne by done; reflexivity.
  - rewrite andb_false_r. reflexivity.
Qed.

Ltac lookup_inserts :=
  repeat first [ rewrite lookup_insert_eq
               | rewrite lookup_insert_ne by done ].

(** A key of the object literal or of a type-specific block: the block
    is there for the machine's own type only. *)
Ltac snapshot_key :=
  unfold toJSON; rewrite !lookup_addIfSet; simpl bool_decide; cbn [andb];
  unfold addLaser, addPress, addCNC;
  destruct (type _); simpl bool_decide; cbn [isCNC];
  lookup_inserts; vm_compute; reflexivity.

(** C9. The snapshot of a machine holds: under [alarmHistory] the last
    five entries of the history (all of them when there are fewer); the
    spindle load and temperature rounded to one decimal (45.34999 gives
    45.3); spindle speed, feed rate, rapid rate and temperature rounded
    to integers; on-hours, spindle hours and tool wear rounded to three
    decimals; the axis positions rounded to two decimals; the keys of
    the mill and lathe block, of the press brake block and of the laser
    block exactly when the machine has that type; and [material] and
    [programRunning] exactly when they are set to a non-empty string.
    Rounding to [d] decimals gives a whole number of units [10^-d] at
    most half a unit away, and rounding to an integer an integer at most
    one half away. *)
Theorem snapshot_fields (m : Machine) :
  let data := toJSON m in
  let h := alarmHistory m in
  let cnc {A} (v : A) := if isCNC (type m) then Some v else None in
  let press {A} (v : A) :=
    if bool_decide (type m = PRESS_BRAKE) then Some v else None in
  let laser {A} (v : A) :=
    if bool_decide (type m = LASER) then Some v else None in
  (data !! "alarmHistory" = Some (JHistory (slice_last 5 h)) /\
   length (slice_last 5 h) = (length h `min` 5)%nat /\
   h = take (length h - 5) h ++ slice_last 5 h) /\
  (data !! "spindleLoad" = Some (JNum (toFixed 1 (spindleLoad m))) /\
   data !! "spindleTemp" = Some (JNum (toFixed 1 (spindleTemp m))) /\
   toFixed 1 45.34999 == 45.3) /\
  (data !! "spindleSpeed" = Some (JInt (Math_round (spindleSpeed m))) /\
   data !! "feedRate" = Some (JInt (Math_round (feedRate m))) /\
   data !! "rapidRate" = Some (JInt (Math_round (rapidRate m))) /\
   data !! "temperature" = Some (JInt (Math_round (temperature m)))) /\
  (data !! "machineOnHours" = Some (JNum (toFixed 3 (machineOnHours m))) /\
   data !! "spindleHours" = Some (JNum (toFixed 3 (spindleHours m))) /\
   data !! "toolWear" = cnc (JNum (toFixed 3 (toolWear m)))) /\
  data !! "axisPositions" =
    Some (JAxes (mkAxes (toFixed 2 (axX (axisPositions m)))
                        (toFixed 2 (axY (axisPositions m)))
                        (toFixed 2 (axZ (axisPositions m))))) /\
  (data !! "currentTool" =
     cnc (ofOption (fun n => JInt (Z.of_nat n)) JUndefined (currentTool m)) /\
   data !! "tools" = cnc (ofOption JTools JUndefined (tools m)) /\
   data !! "toolChangeCount" = cnc (JInt (toolChangeCount m)) /\
   data !! "coolant" = cnc (ofOption JCoolant JUndefined (coolant m))) /\
  (data !! "tonnage" = press (JInt (Math_round (tonnage m))) /\
   data !! "maxTonnage" = press (JNum (maxTonnage m)) /\
   data !! "ramPosition" = press (JInt (Math_round (ramPosition m))) /\
   data !! "backGauge" = press (JNum (backGauge m)) /\
   data !! "bendAngle" = press (JInt (Math_round (bendAngle m)))) /\
  (data !! "laserPower" = laser (JInt (Math_round (laserPower m))) /\
   data !! "maxLaserPower" = laser (JNum (maxLaserPower m)) /\
   data !! "gasPressure" = laser (JInt (Math_round (gasPressure m))) /\
   data !! "resonatorTemp" = laser (JNum (toFixed 1 (resonatorTemp m))) /\
   data !! "cutSpeed" = laser (JInt (Math_round (cutSpeed m)))) /\
  (data !! "material" =
     (if truthy (material m) then JStr <$> material m else None) /\
   data !! "programRunning" =
     (if truthy (programRunning m) then JStr <$> programRunning m else None)) /\
  (forall (d : nat) (x : Q),
     (exists n : Z, toFixed d x == inject_Z n / pow10 d) /\
     Qabs (toFixed d x - x) <= 1 / 2 / pow10 d) /\
  (forall x : Q,
     x - 1 / 2 < inject_Z (Math_round x) /\
     inject_Z (Math_round x) <= x + 1 / 2).
Proof.
  intros data h cnc press laser. subst data cnc press laser.
  repeat lazymatch goal with |- _ /\ _ => split end;
    try (intros; first [apply toFixed_near | apply Math_round_near]);
    try snapshot_key.
  - subst h. apply length_slice_last.
  - subst h. symmetry. apply take_drop.
  - reflexivity.
Qed.

(** ** The mill and lathe cycle *)

Lemma this_exec_assign {A} (set : A -> Machine -> Machine) (e : Machine -> A)
    E w :
  this (exec (assign set e) E w) = set (e (this w)) (this w).
Proof. reflexivity. Qed.

(** Splits a sequence of statements into its steps. *)
Ltac exec_seq := repeat (rewrite exec_bind; cbv beta).

(** Moves a read of field [f] backwards over the last statement: over an
    assignment, or over a method that leaves [f] alone. *)
Ltac back f :=
  lazymatch goal with
  | |- context [f (this (exec (assign ?set ?e) ?E ?w))] =>
      rewrite (this_exec_assign set e E w); fields
  | |- context [f (this (exec ?c ?E ?w))] =>
      rewrite (frame f c ltac:(intro; inv_walk) E w)
  end.

(** The phase that follows in the cycle. *)
Definition nextPhase (p : Phase.t) : Phase.t :=
  match p with
  | Phase.IDLE => Phase.SPINDLE_RAMP
  | Phase.SPINDLE_RAMP => Phase.RAPID
  | Phase.RAPID => Phase.CUTTING
  | Phase.CUTTING => Phase.RETRACT
  | Phase.RETRACT => Phase.DWELL
  | Phase.DWELL => Phase.FINISH
  | Phase.FINISH => Phase.IDLE
  | Phase.RUNNING => Phase.RUNNING
  end.

(** A method keeps the phase at [p] or moves it to the next one. *)
Definition stepsFrom (p : Phase.t) (m : Machine) : Prop :=
  cyclePhase m = p \/ cyclePhase m = nextPhase p.

Ltac phase_walk := inv_walk; unfold stepsFrom; fields; simpl; auto.

Lemma phaseIdle_steps dtSec : inv (stepsFrom Phase.IDLE) (_phaseIdle dtSec).
Proof. phase_walk. Qed.

Lemma phaseSpindleRamp_steps dtSec :
  inv (stepsFrom Phase.SPINDLE_RAMP) (_phaseSpindleRamp dtSec).
Proof. phase_walk. Qed.

Lemma phaseRapid_steps dtSec : inv (stepsFrom Phase.RAPID) (_phaseRapid dtSec).
Proof. phase_walk. Qed.

Lemma phaseCutting_steps dtSec :
  inv (stepsFrom Phase.CUTTING) (_phaseCutting dtSec).
Proof. phase_walk. Qed.

Lemma phaseRetract_steps dtSec :
  inv (stepsFrom Phase.RETRACT) (_phaseRetract dtSec).
Proof. phase_walk. Qed.

Lemma phaseDwell_steps dtSec : inv (stepsFrom Phase.DWELL) (_phaseDwell dtSec).
Proof. phase_walk. Qed.

Lemma phaseFinish_steps dtSec :
  inv (stepsFrom Phase.FINISH) (_phaseFinish dtSec).
Proof. phase_walk. Qed.

Lemma updateCNCCycle_steps dtSec E w :
  stepsFrom (cyclePhase (this w)) (this (exec (_updateCNCCycle dtSec) E w)).
Proof.
  unfold _updateCNCCycle. rewrite exec_bind. cbn [gets fst].
  change (exec (gets cyclePhase) E w) with w.
  destruct (cyclePhase (this w)) eqn:Hp;
    [ apply phaseIdle_steps | apply phaseSpindleRamp_steps
    | apply phaseRapid_steps | apply phaseCutting_steps
    | apply phaseRetract_steps | apply phaseDwell_steps
    | apply phaseFinish_steps | ];
    try (left; exact Hp).
Qed.

(** The counters move in FINISH only. *)
Lemma updateCNCCycle_counts dtSec E w :
  cyclePhase (this w) <> Phase.FINISH ->
  partCount (this (exec (_updateCNCCycle dtSec) E w)) = partCount (this w) /\
  totalCycles (this (exec (_updateCNCCycle dtSec) E w)) = totalCycles (this w).
Proof.
  intros Hp. unfold _updateCNCCycle. rewrite exec_bind. cbn [gets fst].
  change (exec (gets cyclePhase) E w) with w.
  destruct (cyclePhase (this w)); try congruence;
    (split; [back partCount | back totalCycles]; reflexivity).
Qed.

(** [hoare P c Q]: from a machine that satisfies [P], [c] ends in a
    machine that satisfies [Q]. *)
Definition hoare {A} (P : Machine -> Prop) (c : Sim A) (Q : Machine -> Prop)
  : Prop :=
  forall E w, P (this w) -> Q (this (exec c E w)).

Lemma hoare_bind {A B} (P R Q : Machine -> Prop) (c : Sim A) (k : A -> Sim B) :
  hoare P c R -> (forall a, hoare R (k a) Q) -> hoare P (bind c k) Q.
Proof. intros Hc Hk E w H. apply (Hk _ E), (Hc E), H. Qed.

Lemma hoare_assign {A} (P Q : Machine -> Prop) (set : A -> Machine -> Machine)
    (e : Machine -> A) :
  (forall m, P m -> Q (set (e m) m)) -> hoare P (assign set e) Q.
Proof. intros H E w Hw. apply H, Hw. Qed.

Lemma hoare_inv {A} (I : Machine -> Prop) (c : Sim A) :
  inv I c -> hoare I c I.
Proof. intros H E w. apply H. Qed.

Lemma hoare_any {A} (P Q : Machine -> Prop) (c : Sim A) :
  hoare (fun _ => True) c Q -> hoare P c Q.
Proof. intros H E w _. apply H. exact Logic.I. Qed.

(** Skips a statement that keeps [P]. *)
Ltac hoare_skip :=
  eapply hoare_bind; [apply hoare_inv; inv_walk | intros _].

(** Takes an assignment that establishes [R] from [P]. *)
Ltac hoare_set R :=
  eapply (hoare_bind _ R);
  [apply hoare_assign; intros ? ?; fields | intros _].

Lemma phaseFinish_partCount dtSec (n : Z) :
  hoare (fun m => partCount m = n) (_phaseFinish dtSec)
        (fun m => partCount m = (n + 1)%Z).
Proof.
  unfold _phaseFinish. hoare_skip.
  hoare_set (fun m => partCount m = (n + 1)%Z); [congruence|].
  apply hoare_inv. inv_walk.
Qed.

Lemma phaseFinish_totalCycles dtSec (n : Z) :
  hoare (fun m => totalCycles m = n) (_phaseFinish dtSec)
        (fun m => totalCycles m = (n + 1)%Z).
Proof.
  unfold _phaseFinish. do 2 hoare_skip.
  hoare_set (fun m => totalCycles m = (n + 1)%Z); [congruence|].
  apply hoare_inv. inv_walk.
Qed.

Lemma phaseFinish_result dtSec E w :
  let m' := this (exec (_phaseFinish dtSec) E w) in
  cyclePhase m' = Phase.IDLE /\ timeInPhase m' = 0 /\
  partCount m' = (partCount (this w) + 1)%Z /\
  totalCycles m' = (totalCycles (this w) + 1)%Z.
Proof.
  cbv zeta. split; [|split; [|split]].
  - apply (hoare_any (fun _ => True)); [|exact Logic.I].
    unfold _phaseFinish. do 7 hoare_skip.
    hoare_set (fun m => cyclePhase m = Phase.IDLE); [reflexivity|].
    apply hoare_inv. inv_walk.
  - apply (hoare_any (fun _ => True)); [|exact Logic.I].
    unfold _phaseFinish. do 8 hoare_skip.
    apply hoare_assign. reflexivity.
  - apply (phaseFinish_partCount dtSec _ E w). reflexivity.
  - apply (phaseFinish_totalCycles dtSec _ E w). reflexivity.
Qed.

(** IDLE starts a cycle exactly when its draw is below 0.05. *)
Lemma phaseIdle_start dtSec E w :
  cyclePhase (this w) = Phase.IDLE ->
  cyclePhase (this (exec (_phaseIdle dtSec) E w)) =
  if Qltb (random_at E (draws w)) 0.05
  then Phase.SPINDLE_RAMP else Phase.IDLE.
Proof.
  intros Hp. unfold _phaseIdle, _startNewCycle. sim_run.
  destruct (Qltb (random_at E (draws w)) 0.05); sim_run; fields.
  - destruct (negb (truthy _)); sim_run; fields; reflexivity.
  - destruct (coolant (this w)) eqn:Hc; fields; rewrite ?Hc; fields; exact Hp.
Qed.

Lemma updateCNCCycle_idle dtSec E w :
  cyclePhase (this w) = Phase.IDLE ->
  exec (_updateCNCCycle dtSec) E w = exec (_phaseIdle dtSec) E w.
Proof.
  intros Hp. unfold _updateCNCCycle. rewrite exec_bind. cbn [gets fst].
  rewrite Hp. reflexivity.
Qed.

Lemma updateCNCCycle_finish dtSec E w :
  cyclePhase (this w) = Phase.FINISH ->
  exec (_updateCNCCycle dtSec) E w = exec (_phaseFinish dtSec) E w.
Proof.
  intros Hp. unfold _updateCNCCycle. rewrite exec_bind. cbn [gets fst].
  rewrite Hp. reflexivity.
Qed.

(** On a mill or lathe the tick is the cycle step followed by three
    methods that leave the phase, its timer and the counters alone. *)
Lemma tickBody_cnc dtSec E w :
  isCNC (type (this w)) = true ->
  let w1 := exec (_updateCNCCycle dtSec) E w in
  let m' := this (exec (tickBody dtSec) E w) in
  cyclePhase m' = cyclePhase (this w1) /\
  timeInPhase m' = timeInPhase (this w1) /\
  partCount m' = partCount (this w1) /\
  totalCycles m' = totalCycles (this w1).
Proof.
  intros Hty w1 m'. subst w1 m'. unfold tickBody. exec_seq.
  cbn [gets fst]. change (exec (gets type) E w) with w.
  destruct (type (this w)); try discriminate Hty;
    (repeat split;
     [ do 3 back cyclePhase | do 3 back timeInPhase
     | do 3 back partCount | do 3 back totalCycles ]; reflexivity).
Qed.

(** The phases a run of [n] ticks goes through, the first one included. *)
Fixpoint phaseTrace (n : nat) (dtSec : Q) (E : Env) (w : World)
  : list Phase.t :=
  cyclePhase (this w) ::
  match n with
  | O => []
  | S n' => phaseTrace n' dtSec E (exec (update dtSec) E w)
  end.

(** A list without the repetitions of an element next to itself. *)
Fixpoint changes (l : list Phase.t) : list Phase.t :=
  match l with
  | [] => []
  | p :: l' =>
      match l' with
      | q :: _ => if bool_decide (p = q) then changes l' else p :: changes l'
      | [] => [p]
      end
  end.

(** Draws that start a cycle on the first tick of the first mill of the
    fleet (draw 145, after the 145 draws of its constructor) and at no
    other tick. *)
Definition oneCycleEnv : Env :=
  mkEnv (fun k => if (k =? 145)%nat then 0.01 else 1 / 2)
        (fun k => (2000 * Z.of_nat k)%Z).

(** On a mill or lathe, a tick entered with the power on and no alarm
    active keeps the cycle phase or moves it to the next phase of
    IDLE, SPINDLE_RAMP, RAPID, CUTTING, RETRACT, DWELL, FINISH, IDLE;
    no phase is skipped and none is gone back to.  IDLE moves on exactly
    when its draw is below 0.05.  A tick in FINISH always ends in IDLE
    with the phase timer at 0 and adds one to the part count and one to
    the cycle count; a tick in any other phase leaves both counts alone.
    (Whether a phase is ever left is another matter: SPINDLE_RAMP need
    not be.) *)
Theorem cnc_tick_order dtSec E w :
  isCNC (type (this w)) = true ->
  power (this w) = true ->
  alarmActive (this w) = false ->
  let m := this w in
  let m' := this (exec (update dtSec) E w) in
  (cyclePhase m' = cyclePhase m \/
   cyclePhase m' = nextPhase (cyclePhase m)) /\
  (cyclePhase m = Phase.IDLE ->
   cyclePhase m' =
     if Qltb (random_at E (draws w)) 0.05
     then Phase.SPINDLE_RAMP else Phase.IDLE) /\
  (cyclePhase m = Phase.FINISH ->
   cyclePhase m' = Phase.IDLE /\ timeInPhase m' = 0 /\
   partCount m' = (partCount m + 1)%Z /\
   totalCycles m' = (totalCycles m + 1)%Z) /\
  (cyclePhase m <> Phase.FINISH ->
   partCount m' = partCount m /\ totalCycles m' = totalCycles m).
Proof.
  intros Hty Hp Ha m m'. subst m m'.
  rewrite (update_running dtSec E w Hp Ha).
  set (w0 := mkWorld _ _ _).
  assert (Hty0 : isCNC (type (this w0)) = true) by exact Hty.
  destruct (tickBody_cnc dtSec E w0 Hty0) as (Hc & Ht & Hn & Hy).
  rewrite Hc, Ht, Hn, Hy.
  change (cyclePhase (this w)) with (cyclePhase (this w0)).
  change (partCount (this w)) with (partCount (this w0)).
  change (totalCycles (this w)) with (totalCycles (this w0)).
  change (draws w) with (draws w0).
  split; [|split; [|split]].
  - apply updateCNCCycle_steps.
  - intros Hi. rewrite (updateCNCCycle_idle dtSec E w0 Hi).
    apply phaseIdle_start, Hi.
  - intros Hf. rewrite (updateCNCCycle_finish dtSec E w0 Hf).
    apply phaseFinish_result.
  - apply updateCNCCycle_counts.
Qed.

Lemma cnc_tick_order_witness :
  let w := haas_vf2 oneCycleEnv 0 0 in
  isCNC (type (this w)) = true /\ power (this w) = true /\
  alarmActive (this w) = false /\
  cyclePhase (this (exec (update 5) oneCycleEnv w)) = Phase.SPINDLE_RAMP.
Proof.
  cbv zeta.
  assert (H1 : isCNC (type (this (haas_vf2 oneCycleEnv 0 0))) = true)
    by (vm_compute; reflexivity).
  assert (H2 : power (this (haas_vf2 oneCycleEnv 0 0)) = true)
    by (vm_compute; reflexivity).
  assert (H3 : alarmActive (this (haas_vf2 oneCycleEnv 0 0)) = false)
    by (vm_compute; reflexivity).
  split; [exact H1|]. split; [exact H2|]. split; [exact H3|].
  pose proof (cnc_tick_order 5 oneCycleEnv (haas_vf2 oneCycleEnv 0 0)
                H1 H2 H3) as H.
  cbv zeta in H. destruct H as (_ & H & _).
  rewrite H; vm_compute; reflexivity.
Defined.

(** ** Running a method statement by statement

    [post E c w Q]: the value and the world that [c] returns from the
    world [w] satisfy [Q].  The rules below run [c] one statement at a
    time; a test gives one case for each outcome. *)

Definition post {A} (E : Env) (c : Sim A) (w : World)
    (Q : A -> World -> Prop) : Prop :=
  Q (fst (c E w)) (snd (c E w)).

Lemma post_exec {A} (E : Env) (c : Sim A) (w : World) (Q : Machine -> Prop) :
  post E c w (fun _ w' => Q (this w')) -> Q (this (exec c E w)).
Proof. intros H. exact H. Qed.

Lemma post_ret {A} E (a : A) w (Q : A -> World -> Prop) :
  Q a w -> post E (ret a) w Q.
Proof. intros H. exact H. Qed.

Lemma post_bind {A B} E (c : Sim A) (k : A -> Sim B) w
    (Q : B -> World -> Prop) :
  post E c w (fun a w' => post E (k a) w' Q) -> post E (bind c k) w Q.
Proof. intros H. exact H. Qed.

Lemma post_gets {A} E (f : Machine -> A) w (Q : A -> World -> Prop) :
  Q (f (this w)) w -> post E (gets f) w Q.
Proof. intros H. exact H. Qed.

Lemma post_modify E (f : Machine -> Machine) w (Q : unit -> World -> Prop) :
  Q tt (mkWorld (f (this w)) (draws w) (dates w)) -> post E (modify f) w Q.
Proof. intros H. exact H. Qed.

Lemma post_assign {A} E (set : A -> Machine -> Machine) (e : Machine -> A) w
    (Q : unit -> World -> Prop) :
  Q tt (mkWorld (set (e (this w)) (this w)) (draws w) (dates w)) ->
  post E (assign set e) w Q.
Proof. intros H. exact H. Qed.

Lemma post_Math_random E w (Q : Q -> World -> Prop) :
  Q (random_at E (draws w)) (mkWorld (this w) (S (draws w)) (dates w)) ->
  post E Math_random w Q.
Proof. intros H. exact H. Qed.

Lemma post_new_Date E w (Q : Z -> World -> Prop) :
  Q (date_at E (dates w)) (mkWorld (this w) (draws w) (S (dates w))) ->
  post E new_Date w Q.
Proof. intros H. exact H. Qed.

Lemma post_ifThis E (cond : Machine -> bool) (c1 c2 : Sim unit) w
    (Q : unit -> World -> Prop) :
  (cond (this w) = true -> post E c1 w Q) ->
  (cond (this w) = false -> post E c2 w Q) ->
  post E (ifThis cond c1 c2) w Q.
Proof.
  intros H1 H2. unfold post, ifThis, bind, gets. cbn [fst snd].
  destruct (cond (this w)); [apply H1 | apply H2]; reflexivity.
Qed.

Lemma post_andRandom E (cond : Machine -> bool) (p : Q) w
    (Q : bool -> World -> Prop) :
  (cond (this w) = true ->
   Q (Qltb (random_at E (draws w)) p)
     (mkWorld (this w) (S (draws w)) (dates w))) ->
  (cond (this w) = false -> Q false w) ->
  post E (andRandom cond p) w Q.
Proof.
  intros H1 H2. unfold post, andRandom, bind, gets. cbn [fst snd].
  destruct (cond (this w)); [apply H1 | apply H2]; reflexivity.
Qed.

(** A method with a proved invariant is run in one step. *)
Lemma post_inv {A} E (I : Machine -> Prop) (c : Sim A) w
    (Q : A -> World -> Prop) :
  inv I c -> I (this w) ->
  (forall a w', I (this w') -> Q a w') ->
  post E c w Q.
Proof. intros Hc Hw HQ. apply HQ. apply (Hc E w Hw). Qed.

(** [fields] in a hypothesis. *)
Ltac fields_in H :=
  cbn
   [id name model type specs power execution cyclePhase timeInPhase
    cycleTimeTarget alarm alarmCode alarmHistory warnings spindleSpeed
    targetSpindleSpeed spindleLoad spindleTemp spindleHours
    spindleOrientation feedRate targetFeed rapidRate axisPositions
    servoLoad servoFollowingError servoTemp partCount totalCycles
    machineOnHours productionRate batteryVoltage temperature vibration
    currentAmps oilPressure oilLevel currentTool tools toolChangeCount
    toolWear coolant tonnage maxTonnage ramPosition backGauge bendAngle
    laserPower maxLaserPower gasPressure resonatorTemp cutSpeed material
    programRunning timestamp set_power set_execution set_cyclePhase
    set_timeInPhase set_cycleTimeTarget set_alarm set_alarmCode
    set_alarmHistory set_warnings set_spindleSpeed set_targetSpindleSpeed
    set_spindleLoad set_spindleTemp set_spindleHours set_spindleOrientation
    set_feedRate set_targetFeed set_rapidRate set_axisPositions
    set_servoLoad set_servoFollowingError set_servoTemp set_partCount
    set_totalCycles set_machineOnHours set_productionRate
    set_batteryVoltage set_temperature set_vibration set_currentAmps
    set_oilPressure set_oilLevel set_tools set_toolWear set_coolant
    set_tonnage set_ramPosition set_bendAngle set_laserPower
    set_resonatorTemp set_cutSpeed set_material set_programRunning
    set_timestamp axX axY axZ set_axX set_axY set_axZ limX limY limZ
    axisLimits spindlePower maxRPM rapidTraverse toolCapacity
    Coolant.level Coolant.pressure Coolant.temperature Coolant.flow
    Coolant.set_level Coolant.set_pressure Coolant.set_temperature
    Coolant.set_flow AlarmEntry.code AlarmEntry.message AlarmEntry.timestamp
    AlarmEntry.cyclePhase AlarmEntry.spindleLoad AlarmEntry.cleared
    AlarmEntry.set_cleared] in H.

Ltac run_tidy :=
  cbv beta; cbn [this draws dates];
  repeat match goal with
         | H : (fun _ => _) _ = _ |- _ => cbv beta in H
         end.

Ltac run_step :=
  lazymatch goal with
  | |- post _ (bind _ _) _ _ => apply post_bind
  | |- post _ (ret _) _ _ => apply post_ret
  | |- post _ (gets _) _ _ => apply post_gets
  | |- post _ (modify _) _ _ => apply post_modify
  | |- post _ (assign _ _) _ _ => apply post_assign
  | |- post _ Math_random _ _ => apply post_Math_random
  | |- post _ new_Date _ _ => apply post_new_Date
  | |- post _ (ifThis _ _ _) _ _ => apply post_ifThis; intros ?
  | |- post _ (andRandom _ _) _ _ => apply post_andRandom; intros ?
  | |- post _ (when ?b _) _ _ =>
      destruct b eqn:?; cbn [when]
  | |- post _ (if ?b then _ else _) _ _ => destruct b eqn:?
  | |- post _ (match ?x with _ => _ end) _ _ => destruct x eqn:?
  | |- post _ (let _ := _ in _) _ _ => cbv zeta
  | |- post _ ?c _ _ => let h := head_of c in progress unfold h
  end;
  run_tidy.

Ltac run := repeat run_step.

(** [run], closing the cases that [prune] shows impossible as soon as
    they come up. *)
Ltac run_pruning prune := repeat (run_step; try solve [exfalso; prune]).

(** ** The press brake *)

(** What holds of a press brake that no alarm was injected into. *)
Definition pressQuiet (m : Machine) : Prop :=
  type m = PRESS_BRAKE /\ 0 < maxTonnage m /\
  ramPosition m <= 100 /\ tonnage m <= 0.8 * maxTonnage m /\
  alarm m = None /\ alarmCode m = None /\ alarmHistory m = [].

Lemma ram_tonnage_bound (ram maxT : Q) :
  0 < maxT -> ram <= 100 -> (ram / 100) * (maxT * 0.8) <= 0.8 * maxT.
Proof.
  intros Hm Hr.
  assert (H : (ram / 100) * (maxT * 0.8) <= 1 * (maxT * 0.8)).
  { apply Qmult_le_compat_r; [|lra].
    apply Qle_shift_div_r; lra. }
  lra.
Qed.

Lemma updatePressCycle_quiet dtSec :
  hoare pressQuiet (_updatePressCycle dtSec) pressQuiet.
Proof.
  intros E w (Hty & Hm & Hr & Ht & Ha & Hc & Hh).
  pose proof (Math_min_le_l 100 (ramPosition (this w) + 20 * dtSec)) as Hmin.
  pose proof (ram_tonnage_bound _ _ Hm Hmin) as Hton.
  apply post_exec. run; unfold pressQuiet; fields;
    repeat split; first [assumption | lra].
Qed.

Lemma checkAlarms_quiet : hoare pressQuiet _checkAlarms pressQuiet.
Proof.
  intros E w (Hty & Hm & Hr & Ht & Ha & Hc & Hh).
  assert (Hq : Qgtb (tonnage (this w)) (maxTonnage (this w) * 0.9) = false)
    by (apply Qltb_ge; lra).
  apply post_exec.
  run_pruning ltac:(
    idtac;
    match goal with
    | H : _ = _ |- _ =>
        fields_in H; rewrite ?Hty, ?Hq in H; vm_compute in H; discriminate H
    end).
  all: unfold pressQuiet; fields; repeat split; assumption.
Qed.

Lemma clearAlarm_quiet : inv pressQuiet _clearAlarm.
Proof.
  intros E w (Hty & Hm & Hr & Ht & Ha & Hc & Hh).
  rewrite clearAlarm_this. unfold pressQuiet. fields. rewrite Hh.
  repeat split; assumption.
Qed.

Lemma pressTick_quiet dtSec :
  hoare pressQuiet
    (_updatePressCycle dtSec;; _updateHealthSensors dtSec;;
     _checkAlarms;; _updateWarnings) pressQuiet.
Proof.
  eapply hoare_bind; [apply updatePressCycle_quiet | intros _].
  eapply hoare_bind; [apply hoare_inv; inv_walk | intros _].
  eapply hoare_bind; [apply checkAlarms_quiet | intros _].
  apply hoare_inv. inv_walk.
Qed.

Lemma update_quiet dtSec : hoare pressQuiet (update dtSec) pressQuiet.
Proof.
  intros E w Hw.
  destruct (power (this w)) eqn:Hp.
  - assert (Ha : alarmActive (this w) = false).
    { destruct Hw as (_ & _ & _ & _ & Ha & _ & _). unfold alarmActive.
      rewrite Ha. reflexivity. }
    rewrite (update_running dtSec E w Hp Ha).
    set (w0 := mkWorld _ _ _).
    assert (H0 : pressQuiet (this w0)) by exact Hw.
    assert (Hty : type (this w0) = PRESS_BRAKE) by apply H0.
    clearbody w0. unfold tickBody. rewrite exec_bind. cbn [gets fst].
    rewrite Hty. change (exec (gets type) E w0) with w0.
    apply pressTick_quiet, H0.
  - rewrite (update_powered_off dtSec E w Hp). exact Hw.
Qed.

Lemma setPower_quiet state : inv pressQuiet (setPower state).
Proof. inv_walk. Qed.

(** The commands other than [injectAlarm]. *)
Definition noInject (c : Command) : bool :=
  match c with
  | InjectAlarm _ _ => false
  | _ => true
  end.

Lemma commands_quiet E (cs : list Command) :
  forallb noInject cs = true ->
  forall w, pressQuiet (this w) -> pressQuiet (this (exec (commands cs) E w)).
Proof.
  induction cs as [|c cs IH]; simpl; intros Hcs w Hw; [exact Hw|].
  apply andb_true_iff in Hcs as [Hc Hcs].
  rewrite exec_bind. apply (IH Hcs).
  destruct c; simpl in *; try discriminate Hc.
  - apply update_quiet, Hw.
  - apply setPower_quiet, Hw.
  - apply clearAlarm_quiet, Hw.
Qed.

(** C10. A press brake with a positive rated tonnage, from its
    construction on and through any sequence of ticks (of any length),
    power toggles and clears, keeps its ram position at most 100 and
    its tonnage at most 0.8 times the rated tonnage.  The test of the
    OVER_TONNAGE alarm, tonnage above 0.9 times the rated tonnage, is
    therefore never satisfied; no alarm is ever active and the alarm
    history stays empty.  Only [injectAlarm] can put an alarm on such a
    machine. *)
Theorem press_never_over_tonnage E id name model a d0 t0
    (cs : list Command) :
  0 < orNum (arg_maxTonnage a) 200 ->
  forallb noInject cs = true ->
  let m := this (exec (commands cs) E
                   (HaasMachine_new id name model PRESS_BRAKE a E d0 t0)) in
  ramPosition m <= 100 /\
  tonnage m <= 0.8 * maxTonnage m /\
  Qgtb (tonnage m) (maxTonnage m * 0.9) = false /\
  alarm m = None /\ alarmCode m = None /\ alarmHistory m = [].
Proof.
  intros Hm Hcs m.
  assert (H : pressQuiet m).
  { subst m. apply (commands_quiet E cs Hcs).
    apply (HaasMachine_new_inv pressQuiet); try (intros; assumption).
    unfold pressQuiet. simpl. repeat split; try reflexivity; lra. }
  destruct H as (Hty & Hm' & Hr & Ht & Ha & Hc & Hh).
  repeat split; try assumption.
  apply Qltb_ge. lra.
Qed.

(** The theorem at the press brake of the fleet. *)
Lemma press_never_over_tonnage_witness :
  let a := mkSpecsArg (Some (mkLimits (0, 100) (0, 2000) (0, 300)))
             None None None None (Some 200) None in
  let cs := [Tick 2; Tick 2; SetPower false; Tick 2; SetPower true; Tick 2;
             ClearAlarm; Tick 2] in
  0 < orNum (arg_maxTonnage a) 200 /\
  forallb noInject cs = true /\
  alarm (this (exec (commands cs) stubEnv (durma_press stubEnv 0 0))) = None.
Proof.
  cbv zeta.
  assert (H1 : 0 < orNum (Some 200) 200) by (vm_compute; reflexivity).
  split; [exact H1|]. split; [reflexivity|].
  apply (press_never_over_tonnage stubEnv "durma_press" "Durma Press Brake"
           "PRESS"
           (mkSpecsArg (Some (mkLimits (0, 100) (0, 2000) (0, 300)))
              None None None None (Some 200) None)
           0 0
           [Tick 2; Tick 2; SetPower false; Tick 2; SetPower true; Tick 2;
            ClearAlarm; Tick 2] H1 eq_refl).
Defined.

(** ** The laser *)

(** Draws for the laser of the fleet under 2 s ticks, with the power draw
    at 0.99 (load 99.3): a cycle then takes 23 draws, one more on each
    tick for the test of LASER_POWER_FAULT, which the draw 1/2 fails.
    On tick 149 the resonator is above 85 for the first time; draws 686
    and 687 are the two alarm tests of that tick. *)
Definition laserAlarmEnv : Env :=
  mkEnv (fun k =>
           match k with
           | O => 1 / 2
           | S k' =>
               if ((k' =? 685) || (k' =? 686))%nat then 0.01
               else match (k' mod 23)%nat with
                    | 0%nat => 0.01
                    | 1%nat => 0.99
                    | _ => 1 / 2
                    end
           end)
        (fun k => (2000 * Z.of_nat k)%Z).

(** C3, at the failing input.  The laser of the fleet, run for 148 ticks
    of 2 s, has no alarm and an empty history, a load of 99.3 and a
    resonator just below 85.  Its 149th tick sets two alarms: the history
    grows by two entries, LASER_POWER_FAULT and RESONATOR_OVERHEAT, both
    uncleared, and the active alarm is the second one, not the first
    condition satisfied. *)
Theorem laser_two_alarms_in_one_tick :
  let E := laserAlarmEnv in
  let w := exec (ticks 148 2) E (fiber_laser E 0 0) in
  let w' := exec (update 2) E w in
  type (this w) = LASER /\ power (this w) = true /\
  alarm (this w) = None /\ alarmHistory (this w) = [] /\
  map AlarmEntry.message (alarmHistory (this w')) =
    ["LASER_POWER_FAULT"; "RESONATOR_OVERHEAT"]%string /\
  map AlarmEntry.cleared (alarmHistory (this w')) = [false; false] /\
  alarm (this w') = Some "RESONATOR_OVERHEAT"%string.
Proof. vm_compute. repeat split; reflexivity. Qed.

(** C1, at the failing input.  The laser of the fleet starts with X at
    750, in its travel [0, 1500].  With the draws of [laserEnv 0] (every
    X and Y draw 0.99, so each tick moves X by 4.9) it is at 1504.6
    after 154 ticks of 2 s, with no alarm and the power on: the laser
    cycle moves X and Y without looking at the axis limits. *)
Theorem laser_axis_leaves_travel :
  let E := laserEnv 0 in
  let w0 := fiber_laser E 0 0 in
  let w := exec (ticks 154 2) E w0 in
  let limits := limX (axisLimits (specs (this w))) in
  limits = (0, 1500) /\
  axX (axisPositions (this w0)) == 750 /\
  axX (axisPositions (this w)) == 1504.6 /\
  snd limits < axX (axisPositions (this w)) /\
  alarm (this w) = None /\ power (this w) = true.
Proof. vm_compute. repeat split; reflexivity. Qed.

(** * Further properties of the engine *)

(** A walk that tries [ext] before the standard step: [ext] takes the
    groups of statements that keep an invariant only together. *)
Ltac inv_walk_with ext := repeat first [ext | inv_step].

(** ** Production counters *)

Definition countersAgree (m : Machine) : Prop := partCount m = totalCycles m.

(** [this.partCount++; this.totalCycles++] *)
Lemma inv_countersAgree_incr (k : Sim unit) :
  inv countersAgree k ->
  inv countersAgree
    (assign set_partCount (fun this => (partCount this + 1)%Z);;
     assign set_totalCycles (fun this => (totalCycles this + 1)%Z);;
     k).
Proof.
  intros Hk E w H. rewrite !exec_bind. apply Hk.
  unfold countersAgree in *. rewrite !this_exec_assign. fields. congruence.
Qed.

Lemma inv_countersAgree_command c : inv countersAgree (command c).
Proof.
  destruct c; simpl;
    inv_walk_with ltac:(
      idtac;
      lazymatch goal with
      | |- inv _ (bind (assign set_partCount _) _) =>
          apply inv_countersAgree_incr
      end).
Qed.

(** The part count and the cycle count of a machine are equal at all
    times: every place that counts a part counts a cycle. *)
Theorem partCount_eq_totalCycles E id name model ty a d0 t0
    (cs : list Command) :
  let m := this (exec (commands cs) E
                   (HaasMachine_new id name model ty a E d0 t0)) in
  partCount m = totalCycles m.
Proof.
  apply (inv_commands countersAgree).
  - apply inv_countersAgree_command.
  - apply (HaasMachine_new_inv countersAgree); try (intros; assumption).
    reflexivity.
Qed.

(** ** The active alarm and the history *)

(** The active alarm is the last entry of the history, not yet cleared;
    without an active alarm there is no alarm code. *)
Definition alarmLogged (m : Machine) : Prop :=
  match alarm m with
  | Some message =>
      exists e, last (alarmHistory m) = Some e /\
                AlarmEntry.message e = message /\
                AlarmEntry.code e = alarmCode m /\
                AlarmEntry.cleared e = false
  | None => alarmCode m = None
  end.

Lemma inv_alarmLogged_setAlarm code message :
  inv alarmLogged (_setAlarm code message).
Proof.
  intros E w _. unfold alarmLogged. rewrite setAlarm_this. fields.
  rewrite slice_last_snoc, last_snoc. eexists. repeat split; reflexivity.
Qed.

Lemma inv_alarmLogged_clearAlarm : inv alarmLogged _clearAlarm.
Proof.
  intros E w _. unfold alarmLogged. rewrite clearAlarm_this. reflexivity.
Qed.

#[local] Hint Resolve inv_alarmLogged_setAlarm inv_alarmLogged_clearAlarm
  : inv.

Lemma inv_alarmLogged_command c : inv alarmLogged (command c).
Proof. destruct c; simpl; inv_walk. Qed.

(** Whenever a machine has an active alarm, the last entry of its alarm
    history is that alarm (same message and code) and is not marked
    cleared; whenever it has none, its alarm code is null.  This holds
    after any sequence of ticks, power toggles, injected alarms and
    clears. *)
Theorem active_alarm_is_last_entry E id name model ty a d0 t0
    (cs : list Command) :
  let m := this (exec (commands cs) E
                   (HaasMachine_new id name model ty a E d0 t0)) in
  match alarm m with
  | Some message =>
      exists e, last (alarmHistory m) = Some e /\
                AlarmEntry.message e = message /\
                AlarmEntry.code e = alarmCode m /\
                AlarmEntry.cleared e = false
  | None => alarmCode m = None
  end.
Proof.
  apply (inv_commands alarmLogged).
  - apply inv_alarmLogged_command.
  - apply (HaasMachine_new_inv alarmLogged); try (intros; assumption).
    reflexivity.
Qed.

(** ** More rules for [hoare] *)

Lemma hoare_conseq {A} (P P' Q Q' : Machine -> Prop) (c : Sim A) :
  (forall m, P' m -> P m) -> (forall m, Q m -> Q' m) ->
  hoare P c Q -> hoare P' c Q'.
Proof. intros HP HQ H E w Hw. apply HQ, H, HP, Hw. Qed.

Lemma hoare_pre {A} (P P' Q : Machine -> Prop) (c : Sim A) :
  (forall m, P' m -> P m) -> hoare P c Q -> hoare P' c Q.
Proof. intros HP H E w Hw. apply H, HP, Hw. Qed.

Lemma hoare_ret {A} (P Q : Machine -> Prop) (a : A) :
  (forall m, P m -> Q m) -> hoare P (ret a) Q.
Proof. intros H E w Hw. apply H, Hw. Qed.

Lemma hoare_ifThis (P Q : Machine -> Prop) (cond : Machine -> bool)
    (c1 c2 : Sim unit) :
  hoare (fun m => P m /\ cond m = true) c1 Q ->
  hoare (fun m => P m /\ cond m = false) c2 Q ->
  hoare P (ifThis cond c1 c2) Q.
Proof.
  intros H1 H2 E w Hw. apply post_exec, post_ifThis; intros Hc.
  - apply (H1 E w). auto.
  - apply (H2 E w). auto.
Qed.

Lemma hoare_gets_bind {A B} (P Q : Machine -> Prop) (f : Machine -> A)
    (k : A -> Sim B) :
  (forall a, hoare (fun m => P m /\ f m = a) (k a) Q) ->
  hoare P (bind (gets f) k) Q.
Proof. intros H E w Hw. apply (H (f (this w)) E w). auto. Qed.

(** A draw of a valid environment lies in [0, 1). *)
Definition validEnv (E : Env) : Prop :=
  forall k, 0 <= random_at E k /\ random_at E k < 1.

(** [hoare] for the environments whose draws lie in [0, 1). *)
Definition hoareV {A} (P : Machine -> Prop) (c : Sim A) (Q : Machine -> Prop)
  : Prop :=
  forall E w, validEnv E -> P (this w) -> Q (this (exec c E w)).

Lemma hoareV_hoare {A} (P Q : Machine -> Prop) (c : Sim A) :
  hoare P c Q -> hoareV P c Q.
Proof. intros H E w _. apply H. Qed.

Lemma hoareV_bind {A B} (P R Q : Machine -> Prop) (c : Sim A)
    (k : A -> Sim B) :
  hoareV P c R -> (forall a, hoareV R (k a) Q) -> hoareV P (bind c k) Q.
Proof. intros Hc Hk E w HE H. apply (Hk _ E _ HE), (Hc E _ HE), H. Qed.

Lemma hoareV_random_bind {B} (P R : Machine -> Prop) (k : Q -> Sim B) :
  (forall r, 0 <= r -> r < 1 -> hoareV P (k r) R) ->
  hoareV P (bind Math_random k) R.
Proof.
  intros H E w HE Hw. destruct (HE (draws w)) as [H0 H1].
  apply (H (random_at E (draws w)) H0 H1 E _ HE). exact Hw.
Qed.

Lemma hoareV_gets_bind {A B} (P Q : Machine -> Prop) (f : Machine -> A)
    (k : A -> Sim B) :
  (forall a, hoareV (fun m => P m /\ f m = a) (k a) Q) ->
  hoareV P (bind (gets f) k) Q.
Proof. intros H E w HE Hw. apply (H (f (this w)) E w HE). auto. Qed.

Lemma hoareV_ifThis (P Q : Machine -> Prop) (cond : Machine -> bool)
    (c1 c2 : Sim unit) :
  hoareV (fun m => P m /\ cond m = true) c1 Q ->
  hoareV (fun m => P m /\ cond m = false) c2 Q ->
  hoareV P (ifThis cond c1 c2) Q.
Proof.
  intros H1 H2 E w HE Hw. apply post_exec, post_ifThis; intros Hc.
  - apply (H1 E w HE). auto.
  - apply (H2 E w HE). auto.
Qed.

Lemma hoareV_conseq {A} (P P' Q Q' : Machine -> Prop) (c : Sim A) :
  (forall m, P' m -> P m) -> (forall m, Q m -> Q' m) ->
  hoareV P c Q -> hoareV P' c Q'.
Proof. intros HP HQ H E w HE Hw. apply HQ, H, HP, Hw; exact HE. Qed.

(** The test of an alarm followed by the two ways on: the test changes
    nothing on the machine. *)
Lemma hoare_andRandom_if {B} (P R : Machine -> Prop) (cond : Machine -> bool)
    (p : Q) (c1 c2 : Sim B) :
  hoare P c1 R -> hoare P c2 R ->
  hoare P (b <- andRandom cond p;; if b then c1 else c2) R.
Proof.
  intros H1 H2 E w Hw. rewrite exec_bind.
  assert (Hi : P (this (exec (andRandom cond p) E w)))
    by (apply (inv_andRandom P cond p E w), Hw).
  destruct (fst (andRandom cond p E w)); [apply H1 | apply H2]; exact Hi.
Qed.

(** Skips a statement that keeps the precondition, whatever it returns. *)
Ltac hoare_over :=
  cbv zeta; eapply hoare_bind; [apply hoare_inv; inv_walk | intro].

(** ** Hours *)

Definition hoursOK (m : Machine) : Prop := spindleHours m <= machineOnHours m.

(** Inside a tick of length [dtSec], before the cycle step: the on-hours
    already include the tick, the spindle hours do not. *)
Definition hoursAhead (dtSec : Q) (m : Machine) : Prop :=
  spindleHours m + dtSec / 3600.0 <= machineOnHours m.

Lemma hoursAhead_OK dtSec m : 0 <= dtSec -> hoursAhead dtSec m -> hoursOK m.
Proof.
  unfold hoursAhead, hoursOK. intros Hd H.
  assert (0 <= dtSec / 3600.0) by (apply Qle_shift_div_l; lra). lra.
Qed.

Lemma phaseCutting_hours dtSec :
  0 <= dtSec -> hoare (hoursAhead dtSec) (_phaseCutting dtSec) hoursOK.
Proof.
  intros Hd. unfold _phaseCutting.
  do 13 hoare_over.
  eapply (hoare_bind _ hoursOK).
  - apply hoare_ifThis.
    + apply hoare_assign. intros m [H _]. exact H.
    + apply hoare_ret. intros m [H _]. apply (hoursAhead_OK dtSec m Hd H).
  - intros _. apply hoare_inv. inv_walk.
Qed.

Lemma hoare_hoursAhead_weaken {A} dtSec (c : Sim A) :
  0 <= dtSec -> inv (hoursAhead dtSec) c ->
  hoare (hoursAhead dtSec) c hoursOK.
Proof.
  intros Hd Hc. eapply hoare_conseq; [| |apply hoare_inv, Hc].
  - auto.
  - intros m. apply hoursAhead_OK, Hd.
Qed.

Lemma tickBody_hours dtSec :
  0 <= dtSec -> hoare (hoursAhead dtSec) (tickBody dtSec) hoursOK.
Proof.
  intros Hd. unfold tickBody.
  apply hoare_gets_bind. intros ty.
  eapply (hoare_bind _ hoursOK).
  - apply (hoare_pre (hoursAhead dtSec)); [intros m [H _]; exact H|].
    destruct ty; cbv beta iota.
    1,2: unfold _updateCNCCycle; apply hoare_gets_bind; intros ph;
      (apply (hoare_pre (hoursAhead dtSec)); [intros m [H _]; exact H|]);
      destruct ph;
      first [ apply (phaseCutting_hours dtSec Hd)
            | apply (hoare_hoursAhead_weaken dtSec _ Hd); inv_walk ].
    all: apply (hoare_hoursAhead_weaken dtSec _ Hd); inv_walk.
  - intros _. apply hoare_inv. inv_walk.
Qed.

Lemma update_hours dtSec : 0 <= dtSec -> inv hoursOK (update dtSec).
Proof.
  intros Hd E w Hw.
  assert (Hq : 0 <= dtSec / 3600.0) by (apply Qle_shift_div_l; lra).
  destruct (power (this w)) eqn:Hp.
  - destruct (alarmActive (this w)) eqn:Ha.
    + rewrite (update_alarm_active dtSec E w Hp Ha). cbv zeta.
      unfold hoursOK in *.
      destruct (Qltb _ 0.02); [rewrite clearAlarm_this|];
        unfold alarmTick; cbn [this]; fields; lra.
    + rewrite (update_running dtSec E w Hp Ha).
      apply (tickBody_hours dtSec Hd).
      unfold hoursAhead, hoursOK, tickStart in *. cbn [this]. fields. lra.
  - rewrite (update_powered_off dtSec E w Hp). exact Hw.
Qed.

(** The ticks of a command list have a length of 0 or more. *)
Definition ticksNonneg (cs : list Command) : Prop :=
  Forall (fun c => match c with Tick dtSec => 0 <= dtSec | _ => True end) cs.

Lemma command_hours c :
  match c with Tick dtSec => 0 <= dtSec | _ => True end ->
  inv hoursOK (command c).
Proof.
  destruct c; simpl; intros Hc; [apply update_hours, Hc | inv_walk..].
Qed.

Lemma commands_hours E (cs : list Command) :
  ticksNonneg cs ->
  forall w, hoursOK (this w) -> hoursOK (this (exec (commands cs) E w)).
Proof.
  induction 1 as [|c cs Hc Hcs IH]; simpl; intros w Hw; [exact Hw|].
  rewrite exec_bind. apply IH, (command_hours c Hc E w Hw).
Qed.

(** The spindle hours of a machine never exceed its on-hours, after any
    sequence of commands whose ticks have a length of 0 or more: a tick
    adds its length to the on-hours first and to the spindle hours only
    while cutting with the spindle above 300 rpm. *)
Theorem spindleHours_le_machineOnHours E id name model ty a d0 t0
    (cs : list Command) :
  ticksNonneg cs ->
  let m := this (exec (commands cs) E
                   (HaasMachine_new id name model ty a E d0 t0)) in
  spindleHours m <= machineOnHours m.
Proof.
  intros Hcs. apply (commands_hours E cs Hcs).
  apply (HaasMachine_new_inv hoursOK); try (intros; assumption).
  unfold hoursOK. simpl. lra.
Qed.

Lemma spindleHours_le_machineOnHours_witness :
  ticksNonneg [Tick 5; Tick 5; InjectAlarm None "X"; Tick 5] /\
  spindleHours (this (exec (commands [Tick 5; Tick 5; InjectAlarm None "X";
                                      Tick 5])
                        stubEnv (new_haas_vf2 stubEnv 0 0))) <=
  machineOnHours (this (exec (commands [Tick 5; Tick 5; InjectAlarm None "X";
                                        Tick 5])
                          stubEnv (new_haas_vf2 stubEnv 0 0))).
Proof.
  assert (H : ticksNonneg [Tick 5; Tick 5; InjectAlarm None "X"; Tick 5]).
  { repeat constructor; vm_compute; discriminate. }
  split; [exact H|].
  apply (spindleHours_le_machineOnHours stubEnv "haas_vf2" "Haas VF-2" "VF-2"
           CNC_MILL
           (mkSpecsArg (Some (mkLimits (0, 762) (0, 406) (0, 508)))
              (Some 30) (Some 8100) (Some 1000) (Some 24%nat) None None)
           0 0 _ H).
Defined.

(** ** Health sensors *)

(** Case analysis on the clamps of a goal, then linear arithmetic. *)
Ltac clamps :=
  unfold Math_min, Math_max in *;
  repeat match goal with
         | |- context [Qle_bool ?a ?b] =>
             let H := fresh "Hc" in
             destruct (Qle_bool a b) eqn:H;
             [apply Qle_bool_iff in H | apply Qle_bool_gt in H]
         end;
  lra.








(** ** The tool inventory *)

Lemma Qfloor_range (x : Q) (n : Z) :
  0 <= x -> x < inject_Z n -> (0 <= Qfloor x < n)%Z.
Proof.
  intros H0 Hn. split.
  - change 0%Z with (Qfloor 0). apply Qfloor_resp_le, H0.
  - rewrite Zlt_Qlt. eapply Qle_lt_trans; [apply Qfloor_le | exact Hn].
Qed.

(** A draw picks an element of a non-empty array. *)
Lemma pick_elem (arr : list string) (r : Q) :
  arr <> [] -> 0 <= r -> r < 1 -> pick arr r ∈ arr.
Proof.
  intros Harr H0 H1. unfold pick, Math_floor.
  set (n := inject_Z (Z.of_nat (length arr))).
  assert (Hn : 0 < n).
  { unfold n. change 0 with (inject_Z 0). rewrite <- Zlt_Qlt.
    destruct arr; [congruence | simpl; lia]. }
  assert (Hr : (0 <= Qfloor (r * n) < Z.of_nat (length arr))%Z).
  { apply Qfloor_range; fold n; nra. }
  destruct (lookup_lt_is_Some_2 arr (Z.to_nat (Qfloor (r * n)))) as [s Hs];
    [lia|].
  rewrite Hs. simpl. eapply list_elem_of_lookup_2, Hs.
Qed.

(** A tool as [_initializeTools] makes it. *)
Definition freshTool (t : Tool.t) : Prop :=
  Tool.type t ∈ toolTypes /\ Tool.coating t ∈ coatings /\
  (20 < Tool.currentLife t /\ Tool.currentLife t <= 100) /\
  Tool.maxLife t = 100 /\
  (2 <= Tool.flutes t <= 5)%Z /\
  Tool.description t = ("Tool " +:+ pretty (Tool.number t))%string /\
  Tool.inUse t = false /\ Tool.totalCuts t = 0%Z.

Lemma newTool_spec (i : nat) E w :
  let r := newTool i E w in
  snd r = mkWorld (this w) (draws w + 6) (dates w) /\
  Tool.number (fst r) = i /\
  (validEnv E -> freshTool (fst r)).
Proof.
  unfold newTool. sim_run. split; [|split].
  - f_equal. lia.
  - reflexivity.
  - intros HE. unfold freshTool.
    cbn [Tool.type Tool.coating Tool.currentLife Tool.maxLife Tool.flutes
         Tool.description Tool.number Tool.inUse Tool.totalCuts fst].
    pose proof (HE (draws w)) as [? ?].
    pose proof (HE (S (S (S (draws w))))) as [? ?].
    pose proof (HE (S (S (S (S (draws w)))))) as [? ?].
    pose proof (HE (S (S (S (S (S (draws w))))))) as [? ?].
    repeat split; try reflexivity.
    + apply pick_elem; [discriminate | assumption..].
    + apply pick_elem; [discriminate | assumption..].
    + lra.
    + lra.
    + unfold Math_floor.
      assert (0 <= Qfloor (random_at E (S (S (S (S (draws w))))) * 4) < 4)%Z
        by (apply Qfloor_range; [|change (inject_Z 4) with 4]; lra).
      lia.
    + unfold Math_floor.
      assert (0 <= Qfloor (random_at E (S (S (S (S (draws w))))) * 4) < 4)%Z
        by (apply Qfloor_range; [|change (inject_Z 4) with 4]; lra).
      lia.
Qed.

Lemma pushTools_spec (n from : nat) E w :
  let r := pushTools n from E w in
  snd r = mkWorld (this w) (draws w + 6 * n) (dates w) /\
  map Tool.number (fst r) = seq from n /\
  (validEnv E -> Forall freshTool (fst r)).
Proof.
  revert from w. induction n as [|n IH]; intros from w.
  - simpl. split; [|split].
    + destruct w. simpl. f_equal. lia.
    + reflexivity.
    + constructor.
  - cbn [pushTools]. unfold bind, ret. cbv zeta. cbn [fst snd].
    destruct (newTool_spec from E w) as (Hw & Hn & Hf).
    cbv zeta in Hw, Hn, Hf.
    destruct (IH (S from) (snd (newTool from E w))) as (Hw' & Hn' & Hf').
    cbv zeta in Hw', Hn', Hf'.
    split; [|split].
    + rewrite Hw', Hw. simpl. f_equal. lia.
    + cbn [map seq]. rewrite Hn, Hn'. reflexivity.
    + intros HE. constructor; auto.
Qed.

(** The number of tools the constructor makes. *)
Definition toolCount (ty : MachineType) (a : SpecsArg) : nat :=
  match ty with
  | CNC_MILL => orNat (arg_toolCapacity a) 24
  | LATHE => 12
  | _ => 0
  end.

(** The constructor gives a mill as many tools as its tool capacity (24
    when none is given), a lathe 12 and the other machines no tool list.
    The tools are numbered 1, 2, ... in order; each has a type and a
    coating of the fixed lists, a life above 20 and at most 100 out of
    100, 2 to 5 flutes, the description "Tool n", is not in use and has
    made no cut.  The constructor makes one draw and six more for each
    tool, and reads the clock once. *)
Theorem constructor_tools E id name model ty a d0 t0 :
  validEnv E ->
  let w := HaasMachine_new id name model ty a E d0 t0 in
  let n := toolCount ty a in
  draws w = (d0 + 1 + 6 * n)%nat /\ dates w = S t0 /\
  currentTool (this w) = (if isCNC ty then Some 1%nat else None) /\
  match tools (this w) with
  | Some ts =>
      isCNC ty = true /\ length ts = n /\
      map Tool.number ts = seq 1 n /\ Forall freshTool ts
  | None => isCNC ty = false
  end.
Proof.
  intros HE w n. subst w n. unfold HaasMachine_new, _initializeTools.
  destruct ty; sim_run; unfold blankMachine;
    repeat (progress (cbn [fst snd this draws dates isCNC toolCount when];
                      sim_run; fields)).
  3,4: repeat split; lia.
  all: match goal with
       | |- context [pushTools ?n ?i ?E' ?w] =>
           destruct (pushTools_spec n i E' w) as (Hw & Hn & Hf);
           cbv zeta in Hw, Hn, Hf; rewrite Hw; cbn [this draws dates]
       end;
    (split; [lia|]); repeat split; auto;
    rewrite <- (length_map Tool.number), Hn, length_seq; reflexivity.
Qed.

Lemma validEnv_stubEnv : validEnv stubEnv.
Proof. intros k. split; vm_compute; [discriminate | reflexivity]. Qed.

Lemma constructor_tools_witness :
  validEnv stubEnv /\ draws (new_haas_vf2 stubEnv 0 0) = 145%nat.
Proof.
  split; [exact validEnv_stubEnv|].
  apply (constructor_tools stubEnv "haas_vf2" "Haas VF-2" "VF-2" CNC_MILL
           (mkSpecsArg (Some (mkLimits (0, 762) (0, 406) (0, 508)))
              (Some 30) (Some 8100) (Some 1000) (Some 24%nat) None None)
           0 0 validEnv_stubEnv).
Defined.

(** ** One alarm per tick outside the laser branch *)

Lemma hoare_ifThis_any (P R : Machine -> Prop) (cond : Machine -> bool)
    (c1 c2 : Sim unit) :
  hoare P c1 R -> hoare P c2 R -> hoare P (ifThis cond c1 c2) R.
Proof.
  intros H1 H2. apply hoare_ifThis.
  - apply (hoare_pre P); [intros m [H _]; exact H | exact H1].
  - apply (hoare_pre P); [intros m [H _]; exact H | exact H2].
Qed.

Lemma hoare_false {A} (P R : Machine -> Prop) (c : Sim A) :
  (forall m, P m -> False) -> hoare P c R.
Proof. intros H E w Hw. destruct (H _ Hw). Qed.

Section OneAlarm.
Variables (h0 : list AlarmEntry.t) (a0 : option string) (c0 : option Z)
          (ty : MachineType).

(** The alarm fields are the ones the tick found. *)
Definition alarmsUntouched (m : Machine) : Prop :=
  type m = ty /\ alarmHistory m = h0 /\ alarm m = a0 /\ alarmCode m = c0.

(** One entry was appended (and the history cut to its last 20), and it
    is the active alarm. *)
Definition oneAlarmSet (m : Machine) : Prop :=
  exists e,
    alarmHistory m = slice_last 20 (h0 ++ [e]) /\
    alarm m = Some (AlarmEntry.message e) /\
    alarmCode m = AlarmEntry.code e /\
    AlarmEntry.cleared e = false.

Definition atMostOneAlarm (m : Machine) : Prop :=
  type m = ty /\ (alarmsUntouched m \/ oneAlarmSet m).

Lemma setAlarm_one code message :
  hoare alarmsUntouched (_setAlarm code message) atMostOneAlarm.
Proof.
  intros E w (Hty & Hh & Ha & Hc). split.
  - rewrite setAlarm_this. exact Hty.
  - right. exists (newEntry code message E w).
    rewrite setAlarm_this. fields. rewrite Hh. auto.
Qed.

Lemma ret_one : hoare alarmsUntouched (ret tt) atMostOneAlarm.
Proof. intros E w H. split; [apply H | left; exact H]. Qed.

Ltac alarm_tests :=
  repeat first
    [ apply hoare_andRandom_if
    | apply setAlarm_one
    | apply ret_one
    | apply hoare_ifThis_any ].

Lemma checkAlarmsCNC_one : hoare alarmsUntouched _checkAlarmsCNC atMostOneAlarm.
Proof. unfold _checkAlarmsCNC, when. alarm_tests. Qed.

(** A branch for another machine type is not taken. *)
Lemma otherType_skipped (P : Machine -> Prop) (ty' : MachineType)
    (c : Sim unit) :
  ty' <> ty -> (forall m, P m -> type m = ty) ->
  hoare P (ifThis (fun this => bool_decide (type this = ty')) c (ret tt)) P.
Proof.
  intros Hne HP. apply hoare_ifThis.
  - apply hoare_false. intros m [Hm Hc]. apply bool_decide_eq_true in Hc.
    rewrite (HP m Hm) in Hc. congruence.
  - apply hoare_ret. intros m [Hm _]. exact Hm.
Qed.

Lemma checkAlarms_one :
  ty <> LASER -> hoare alarmsUntouched _checkAlarms atMostOneAlarm.
Proof.
  intros Hty. unfold _checkAlarms.
  destruct (isCNC ty) eqn:Hcnc.
  - apply (hoare_bind _ atMostOneAlarm); [|intros _].
    { apply hoare_ifThis_any; [apply checkAlarmsCNC_one | apply ret_one]. }
    apply (hoare_bind _ atMostOneAlarm); [|intros _].
    { apply otherType_skipped; [|intros m Hm; apply Hm].
      intros Heq. rewrite <- Heq in Hcnc. discriminate Hcnc. }
    apply otherType_skipped; [congruence | intros m Hm; apply Hm].
  - apply (hoare_bind _ alarmsUntouched); [|intros _].
    { apply hoare_ifThis; [apply hoare_false | apply hoare_ret].
      - intros m [[Hm _] Hc]. rewrite Hm in Hc. congruence.
      - intros m [Hm _]. exact Hm. }
    apply (hoare_bind _ atMostOneAlarm); [|intros _].
    { unfold when. apply hoare_ifThis_any; alarm_tests. }
    apply otherType_skipped; [congruence | intros m Hm; apply Hm].
Qed.

Lemma tickBody_one dtSec :
  ty <> LASER -> hoare alarmsUntouched (tickBody dtSec) atMostOneAlarm.
Proof.
  intros Hty. unfold tickBody.
  do 3 hoare_over.
  eapply hoare_bind; [apply (checkAlarms_one Hty) | intros _].
  apply hoare_inv. inv_walk.
Qed.
End OneAlarm.

(** On a mill, a lathe or a press brake, a tick entered with the power
    on and no alarm active sets at most one alarm: either the alarm, the
    alarm code and the history are as the tick found them, or exactly
    one entry, not cleared, was appended to the history (cut to its last
    20) and that entry is the active alarm. *)
Theorem one_alarm_per_tick_outside_laser dtSec E w :
  type (this w) <> LASER ->
  power (this w) = true ->
  alarmActive (this w) = false ->
  let m := this w in
  let m' := this (exec (update dtSec) E w) in
  (alarmHistory m' = alarmHistory m /\ alarm m' = alarm m /\
   alarmCode m' = alarmCode m) \/
  (exists e,
     alarmHistory m' = slice_last 20 (alarmHistory m ++ [e]) /\
     alarm m' = Some (AlarmEntry.message e) /\
     alarmCode m' = AlarmEntry.code e /\
     AlarmEntry.cleared e = false).
Proof.
  intros Hty Hp Ha m m'. subst m m'.
  rewrite (update_running dtSec E w Hp Ha).
  destruct (tickBody_one (alarmHistory (this w)) (alarm (this w))
              (alarmCode (this w)) (type (this w)) dtSec Hty E
              (mkWorld (tickStart dtSec (date_at E (dates w)) (this w))
                       (draws w) (S (dates w))))
    as [_ [H|H]].
  - repeat split; reflexivity.
  - left. apply H.
  - right. exact H.
Qed.

Lemma one_alarm_per_tick_outside_laser_witness :
  let w := durma_press stubEnv 0 0 in
  type (this w) <> LASER /\ power (this w) = true /\
  alarmActive (this w) = false /\
  (length (alarmHistory (this (exec (update 2) stubEnv w))) <= 1)%nat.
Proof.
  cbv zeta.
  assert (H1 : type (this (durma_press stubEnv 0 0)) <> LASER)
    by (vm_compute; discriminate).
  assert (H2 : power (this (durma_press stubEnv 0 0)) = true)
    by (vm_compute; reflexivity).
  assert (H3 : alarmActive (this (durma_press stubEnv 0 0)) = false)
    by (vm_compute; reflexivity).
  split; [exact H1|]. split; [exact H2|]. split; [exact H3|].
  destruct (one_alarm_per_tick_outside_laser 2 stubEnv
              (durma_press stubEnv 0 0) H1 H2 H3) as [(H & _)|(e & H & _)];
    rewrite H.
  - vm_compute. lia.
  - rewrite length_slice_last. vm_compute. lia.
Defined.

(** ** Starting a cycle *)

Lemma Qfloor_between (x : Q) (a b : Z) :
  inject_Z a <= x -> x < inject_Z b -> (a <= Qfloor x < b)%Z.
Proof.
  intros Ha Hb. split.
  - rewrite <- (Qfloor_Z a). apply Qfloor_resp_le, Ha.
  - rewrite Zlt_Qlt. eapply Qle_lt_trans; [apply Qfloor_le | exact Hb].
Qed.

(** [_startNewCycle] puts the machine in SPINDLE_RAMP, running, with the
    phase timer at 0, and draws a cycle time in [20, 45), a target feed
    in [300, 1800) and a target spindle speed between 3000 and the
    maximum speed of the machine (when that is 3000 or more).  A program
    that is already set is kept, with three draws made; a machine
    without one gets the letter O followed by a number from 1000 to
    9999, with four draws made. *)
Theorem startNewCycle_targets E w :
  validEnv E ->
  let w' := exec _startNewCycle E w in
  let m' := this w' in
  cyclePhase m' = Phase.SPINDLE_RAMP /\ execution m' = Exec.RUNNING /\
  timeInPhase m' = 0 /\
  (20 <= cycleTimeTarget m' /\ cycleTimeTarget m' < 45) /\
  (300 <= targetFeed m' /\ targetFeed m' < 1800) /\
  (3000 <= maxRPM (specs (this w)) ->
   3000 <= targetSpindleSpeed m' /\
   targetSpindleSpeed m' <= maxRPM (specs (this w))) /\
  (if truthy (programRunning (this w))
   then programRunning m' = programRunning (this w) /\
        draws w' = (draws w + 3)%nat
   else (exists n : Z,
           programRunning m' = Some ("O" +:+ pretty n)%string /\
           (1000 <= n <= 9999)%Z) /\
        draws w' = (draws w + 4)%nat).
Proof.
  intros HE.
  pose proof (HE (draws w)) as [? ?].
  pose proof (HE (S (draws w))) as [? ?].
  pose proof (HE (S (S (draws w)))) as [? ?].
  pose proof (HE (S (S (S (draws w))))) as [? ?].
  cbv zeta.
  change (post E _startNewCycle w (fun _ w' =>
    cyclePhase (this w') = Phase.SPINDLE_RAMP /\
    execution (this w') = Exec.RUNNING /\
    timeInPhase (this w') = 0 /\
    (20 <= cycleTimeTarget (this w') /\ cycleTimeTarget (this w') < 45) /\
    (300 <= targetFeed (this w') /\ targetFeed (this w') < 1800) /\
    (3000 <= maxRPM (specs (this w)) ->
     3000 <= targetSpindleSpeed (this w') /\
     targetSpindleSpeed (this w') <= maxRPM (specs (this w))) /\
    (if truthy (programRunning (this w))
     then programRunning (this w') = programRunning (this w) /\
          draws w' = (draws w + 3)%nat
     else (exists n : Z,
             programRunning (this w') = Some ("O" +:+ pretty n)%string /\
             (1000 <= n <= 9999)%Z) /\
          draws w' = (draws w + 4)%nat))).
  run;
    lazymatch goal with
    | Hc : negb _ = _ |- _ =>
        cbn [this] in Hc; fields_in Hc;
        first [apply (proj1 (negb_true_iff _)) in Hc
              |apply (proj1 (negb_false_iff _)) in Hc];
        rewrite Hc
    end;
    fields;
    (split; [reflexivity|]); (split; [reflexivity|]); (split; [reflexivity|]);
    (split; [split; lra|]); (split; [split; lra|]);
    (split; [intros Hmax; split; nra|]).
  - split; [|lia].
    eexists. split; [reflexivity|].
    unfold Math_floor.
    match goal with
    | |- (_ <= Qfloor ?x <= _)%Z =>
        assert (1000 <= Qfloor x < 10000)%Z
          by (apply Qfloor_between;
              [change (inject_Z 1000) with 1000
              |change (inject_Z 10000) with 10000]; lra)
    end.
    lia.
  - split; [reflexivity | lia].
Qed.

Lemma startNewCycle_targets_witness :
  validEnv stubEnv /\
  cyclePhase (this (exec _startNewCycle stubEnv (haas_vf2 stubEnv 0 0))) =
  Phase.SPINDLE_RAMP.
Proof.
  split; [exact validEnv_stubEnv|].
  apply (startNewCycle_targets stubEnv (haas_vf2 stubEnv 0 0)
           validEnv_stubEnv).
Defined.

(** ** A stalled spindle ramp *)

(** A mill or lathe in SPINDLE_RAMP whose spindle turns at [s], with
    target [t], [p] parts and [c] cycles counted. *)
Definition rampStalled (s t : Q) (p c : Z) (m : Machine) : Prop :=
  isCNC (type m) = true /\ cyclePhase m = Phase.SPINDLE_RAMP /\
  spindleSpeed m = s /\ targetSpindleSpeed m = t /\
  partCount m = p /\ totalCycles m = c.

Definition rampRunning (s t : Q) (p c : Z) (m : Machine) : Prop :=
  rampStalled s t p c m /\ execution m = Exec.RUNNING.

Lemma phaseSpindleRamp_stalled dtSec (s t : Q) (p c : Z) :
  t <= s ->
  hoare (rampStalled s t p c) (_phaseSpindleRamp dtSec) (rampRunning s t p c).
Proof.
  intros Hts. unfold _phaseSpindleRamp.
  apply (hoare_bind _ (rampRunning s t p c)).
  { apply hoare_assign. intros m Hm. split; [exact Hm | reflexivity]. }
  intros _. cbv zeta.
  apply (hoare_bind _ (rampRunning s t p c)).
  - apply hoare_ifThis; [apply hoare_false | apply hoare_ret].
    + intros m [[(_ & _ & Hs & Ht & _) _] Hc]. apply Qltb_lt in Hc.
      rewrite Hs, Ht in Hc. lra.
    + intros m [Hm _]. exact Hm.
  - intros _. apply hoare_inv. inv_walk.
Qed.

Lemma tickBody_stalled dtSec (s t : Q) (p c : Z) :
  t <= s ->
  hoare (rampStalled s t p c) (tickBody dtSec) (rampRunning s t p c).
Proof.
  intros Hts. unfold tickBody.
  apply hoare_gets_bind. intros ty.
  apply (hoare_bind _ (rampRunning s t p c)).
  - destruct ty; cbv beta iota;
      try (apply hoare_false; intros m [(Hc & _) Hty];
           rewrite Hty in Hc; discriminate Hc).
    all: unfold _updateCNCCycle; apply hoare_gets_bind; intros ph;
      destruct ph;
      try (apply hoare_false; intros m [[(_ & Hph & _) _] Hp]; congruence).
    all: apply (hoare_pre (rampStalled s t p c));
      [intros m [[Hm _] _]; exact Hm | apply phaseSpindleRamp_stalled, Hts].
  - intros _. apply hoare_inv. inv_walk.
Qed.

Lemma update_stalled dtSec E w (s t : Q) (p c : Z) :
  t <= s ->
  power (this w) = true ->
  alarmActive (this w) = false ->
  rampStalled s t p c (this w) ->
  rampRunning s t p c (this (exec (update dtSec) E w)).
Proof.
  intros Hts Hp Ha Hw.
  rewrite (update_running dtSec E w Hp Ha).
  apply (tickBody_stalled dtSec s t p c Hts E
           (mkWorld (tickStart dtSec (date_at E (dates w)) (this w))
                    (draws w) (S (dates w)))).
  exact Hw.
Qed.

(** Draws for the first mill of the fleet under ticks of 5 s.  Draw 145
    starts a cycle on the first tick, with a spindle target of 8049
    (draw 147); the part is counted on tick 14; draw 214 starts the next
    cycle on tick 15, with a target of 3051 (draw 216).  Every other
    draw is 1/2. *)
Definition stallEnv : Env :=
  mkEnv (fun k =>
           if ((k =? 145) || (k =? 214) || (k =? 216))%nat then 0.01
           else if (k =? 147)%nat then 0.99
           else 1 / 2)
        (fun k => (5000 * Z.of_nat k)%Z).

(** The first 15 ticks of the first mill of the fleet under [stallEnv]. *)
Lemma stallEnv_run :
  let w0 := haas_vf2 stallEnv 0 0 in
  let w15 := exec (ticks 15 5) stallEnv w0 in
  changes (phaseTrace 15 5 stallEnv w0) =
    [Phase.IDLE; Phase.SPINDLE_RAMP; Phase.RAPID; Phase.CUTTING;
     Phase.RETRACT; Phase.DWELL; Phase.FINISH; Phase.IDLE;
     Phase.SPINDLE_RAMP] /\
  partCount (this (exec (ticks 14 5) stallEnv w0)) = 1%Z /\
  (isCNC (type (this w15)) = true /\
   cyclePhase (this w15) = Phase.SPINDLE_RAMP /\
   partCount (this w15) = 1%Z /\ totalCycles (this w15) = 1%Z) /\
  execution (this w15) = Exec.RUNNING /\
  power (this w15) = true /\ alarm (this w15) = None /\
  Qeq_bool (spindleSpeed (this w15)) 5549 = true /\
  Qeq_bool (targetSpindleSpeed (this w15)) 3051 = true /\
  draws w15 = 219%nat.
Proof. vm_compute. repeat split; reflexivity. Qed.

(** A mill or lathe that enters a tick in SPINDLE_RAMP with its spindle
    at or above the target speed (power on, no alarm active) leaves the
    tick in SPINDLE_RAMP, running, with the same spindle speed, the same
    target and the same counts of parts and cycles: the only statement
    that leaves SPINDLE_RAMP is inside the branch taken when the speed
    is below the target, so the cycle stays in this phase for as long
    as no alarm is set and the power stays on. *)
Theorem spindle_ramp_stalls dtSec E w :
  isCNC (type (this w)) = true ->
  power (this w) = true ->
  alarmActive (this w) = false ->
  cyclePhase (this w) = Phase.SPINDLE_RAMP ->
  targetSpindleSpeed (this w) <= spindleSpeed (this w) ->
  let m' := this (exec (update dtSec) E w) in
  cyclePhase m' = Phase.SPINDLE_RAMP /\
  execution m' = Exec.RUNNING /\
  spindleSpeed m' = spindleSpeed (this w) /\
  targetSpindleSpeed m' = targetSpindleSpeed (this w) /\
  partCount m' = partCount (this w) /\
  totalCycles m' = totalCycles (this w).
Proof.
  intros Hty Hp Ha Hph Hts m'. subst m'.
  destruct (update_stalled dtSec E w _ _ (partCount (this w))
              (totalCycles (this w)) Hts Hp Ha)
    as [(_ & H1 & H2 & H3 & H4 & H5) H6].
  { repeat split; assumption. }
  repeat split; assumption.
Qed.

(** The theorem at the first mill of the fleet, 15 ticks into the run
    of [stallEnv]. *)
Lemma spindle_ramp_stalls_witness :
  let w := exec (ticks 15 5) stallEnv (haas_vf2 stallEnv 0 0) in
  isCNC (type (this w)) = true /\ power (this w) = true /\
  alarmActive (this w) = false /\
  cyclePhase (this w) = Phase.SPINDLE_RAMP /\
  targetSpindleSpeed (this w) <= spindleSpeed (this w) /\
  cyclePhase (this (exec (update 5) stallEnv w)) = Phase.SPINDLE_RAMP.
Proof.
  pose proof stallEnv_run as H. cbv zeta in H |- *.
  set (w := exec (ticks 15 5) stallEnv (haas_vf2 stallEnv 0 0)) in *.
  clearbody w.
  destruct H as (_ & _ & (H1 & H4 & _) & _ & H2 & Hal & Hs & Ht & _).
  assert (H3 : alarmActive (this w) = false)
    by (unfold alarmActive; rewrite Hal; reflexivity).
  assert (H5 : targetSpindleSpeed (this w) <= spindleSpeed (this w)).
  { apply Qeq_bool_iff in Hs. apply Qeq_bool_iff in Ht. lra. }
  repeat (split; [assumption|]).
  apply (spindle_ramp_stalls 5 stallEnv w H1 H2 H3 H4 H5).
Defined.

(** ** Draws that set nothing off *)

(** Every draw from the [k0]-th on is 1/2. *)
Definition halfFrom (E : Env) (k0 : nat) : Prop :=
  forall k, (k0 <= k)%nat -> random_at E k = 1 / 2.

(** [c] keeps [J] on the machine and leaves the count of draws at [k0]
    or more. *)
Definition keeps {A} (E : Env) (k0 : nat) (J : Machine -> Prop) (c : Sim A)
  : Prop :=
  forall w, J (this w) -> (k0 <= draws w)%nat ->
    J (this (exec c E w)) /\ (k0 <= draws (exec c E w))%nat.

Section Keeps.
Context (E : Env) (k0 : nat) (J : Machine -> Prop).

Lemma keeps_ret {A} (a : A) : keeps E k0 J (ret a).
Proof. intros w HJ Hd. split; assumption. Qed.

Lemma keeps_bind {A B} (c : Sim A) (k : A -> Sim B) :
  keeps E k0 J c -> (forall a, keeps E k0 J (k a)) ->
  keeps E k0 J (bind c k).
Proof.
  intros Hc Hk w HJ Hd. rewrite exec_bind.
  destruct (Hc w HJ Hd) as [HJ' Hd']. apply Hk; assumption.
Qed.

Lemma keeps_gets {A} (f : Machine -> A) : keeps E k0 J (gets f).
Proof. intros w HJ Hd. split; assumption. Qed.

Lemma keeps_modify (f : Machine -> Machine) :
  (forall m, J m -> J (f m)) -> keeps E k0 J (modify f).
Proof. intros Hf w HJ Hd. split; [apply Hf, HJ | exact Hd]. Qed.

Lemma keeps_assign {A} (set : A -> Machine -> Machine) (e : Machine -> A) :
  (forall m, J m -> J (set (e m) m)) -> keeps E k0 J (assign set e).
Proof. intros Hf. apply keeps_modify, Hf. Qed.

Lemma keeps_Math_random : keeps E k0 J Math_random.
Proof. intros w HJ Hd. split; [exact HJ | simpl; lia]. Qed.

Lemma keeps_new_Date : keeps E k0 J new_Date.
Proof. intros w HJ Hd. split; assumption. Qed.

Lemma keeps_when (b : bool) (c : Sim unit) :
  keeps E k0 J c -> keeps E k0 J (when b c).
Proof. intros Hc. destruct b; [exact Hc | apply keeps_ret]. Qed.

Lemma keeps_ifThis (cond : Machine -> bool) (c1 c2 : Sim unit) :
  keeps E k0 J c1 -> keeps E k0 J c2 -> keeps E k0 J (ifThis cond c1 c2).
Proof.
  intros H1 H2. apply keeps_bind; [apply keeps_gets|].
  intros []; assumption.
Qed.

Lemma keeps_modifyTool (f : Tool.t -> Tool.t) :
  (forall m ts, J m -> J (set_tools (Some ts) m)) ->
  keeps E k0 J (modifyTool f).
Proof.
  intros Hf. apply keeps_modify. intros m Hm.
  destruct (activeTool m) as [[i tool]|]; [|exact Hm].
  destruct (tools m); [apply Hf, Hm | exact Hm].
Qed.

Lemma keeps_modifyCoolant (f : Coolant.t -> Coolant.t) :
  (forall m c, J m -> J (set_coolant (Some c) m)) ->
  keeps E k0 J (modifyCoolant f).
Proof.
  intros Hf. apply keeps_modify. intros m Hm.
  destruct (coolant m); [apply Hf, Hm | exact Hm].
Qed.

(** A test of the form [cond && Math.random() < p] fails when the draws
    are 1/2 and [p] is at most 1/2. *)
Lemma keeps_test {B} (cond : Machine -> bool) (p : Q) (k : bool -> Sim B) :
  halfFrom E k0 -> Qltb (1 / 2) p = false ->
  keeps E k0 J (k false) ->
  keeps E k0 J (bind (andRandom cond p) k).
Proof.
  intros Hhalf Hp Hk w HJ Hd.
  unfold exec, andRandom, gets, ret, bind. cbv zeta. cbn [fst snd].
  destruct (cond (this w)).
  - unfold Math_random. cbn [fst snd].
    rewrite (Hhalf (draws w) Hd), Hp.
    apply (Hk (mkWorld (this w) (S (draws w)) (dates w)));
      [exact HJ | simpl; lia].
  - cbn [fst snd]. apply (Hk w); assumption.
Qed.
End Keeps.

Ltac keeps_step :=
  lazymatch goal with
  | |- forall _, _ => intro
  | |- keeps _ _ _ (bind (andRandom _ _) _) =>
      apply keeps_test; [assumption | reflexivity | cbv beta; cbn [when]]
  | |- keeps _ _ _ (bind _ _) => apply keeps_bind
  | |- keeps _ _ _ (ret _) => apply keeps_ret
  | |- keeps _ _ _ (gets _) => apply keeps_gets
  | |- keeps _ _ _ Math_random => apply keeps_Math_random
  | |- keeps _ _ _ new_Date => apply keeps_new_Date
  | |- keeps _ _ _ (when _ _) => apply keeps_when
  | |- keeps _ _ _ (ifThis _ _ _) => apply keeps_ifThis
  | |- keeps _ _ _ (assign _ _) =>
      apply keeps_assign;
      try (let m := fresh "m" in let Hm := fresh "Hm" in
           intros m Hm; exact Hm)
  | |- keeps _ _ _ (modifyTool _) =>
      apply keeps_modifyTool;
      try (let m := fresh "m" in let Hm := fresh "Hm" in
           intros m ? Hm; exact Hm)
  | |- keeps _ _ _ (modifyCoolant _) =>
      apply keeps_modifyCoolant;
      try (let m := fresh "m" in let Hm := fresh "Hm" in
           intros m ? Hm; exact Hm)
  | |- keeps _ _ _ (match ?x with _ => _ end) => destruct x
  | |- keeps _ _ _ (let _ := _ in _) => cbv zeta
  | |- keeps _ _ _ ?c => let h := head_of c in progress unfold h
  end.

Ltac keeps_walk := repeat keeps_step.

(** The power is on and no alarm is set. *)
Definition noAlarm (m : Machine) : Prop :=
  power m = true /\ alarm m = None.

(** With every draw at 1/2, a tick sets no alarm. *)
Lemma update_sets_no_alarm E k0 dtSec :
  halfFrom E k0 -> keeps E k0 noAlarm (update dtSec).
Proof.
  intros Hhalf. keeps_walk.
  all: unfold noAlarm in *; fields;
    repeat match goal with H : _ /\ _ |- _ => destruct H end;
    split; first [assumption | reflexivity].
Qed.

(** A mill stuck in SPINDLE_RAMP, with the draws still to come all 1/2. *)
Definition stuck (k0 : nat) (s t : Q) (p c : Z) (w : World) : Prop :=
  rampRunning s t p c (this w) /\ noAlarm (this w) /\ (k0 <= draws w)%nat.

Lemma stuck_ticks E k0 dtSec (s t : Q) (p c : Z) :
  halfFrom E k0 -> t <= s ->
  forall n w, stuck k0 s t p c w ->
    stuck k0 s t p c (exec (ticks n dtSec) E w).
Proof.
  intros Hhalf Hts. induction n as [|n IH]; intros w Hw; [exact Hw|].
  cbn [ticks]. rewrite exec_bind. apply IH.
  destruct Hw as ([Hr _] & Hq & Hd).
  destruct (update_sets_no_alarm E k0 dtSec Hhalf w Hq Hd) as [Hq' Hd'].
  split; [|split; assumption].
  apply (update_stalled dtSec E w s t p c Hts); [apply Hq | | exact Hr].
  unfold alarmActive. rewrite (proj2 Hq). reflexivity.
Qed.

Lemma halfFrom_stallEnv : halfFrom stallEnv 217.
Proof.
  intros k Hk. unfold stallEnv. cbn [random_at].
  repeat match goal with
         | |- context [(k =? ?n)%nat] =>
             destruct (Nat.eqb_spec k n); [lia|]
         end.
  reflexivity.
Qed.

(** C7. The cycle of a mill does not always run through.  On the first
    mill of the fleet, with the draws stubbed by [stallEnv] and ticks of
    5 s, the first cycle goes IDLE, SPINDLE_RAMP, RAPID, CUTTING,
    RETRACT, DWELL, FINISH, IDLE in order and counts one part on tick
    14.  Tick 15 starts the second cycle while the spindle still turns
    at 5549, above the new target of 3051.  From then on the machine
    stays in SPINDLE_RAMP, reported as RUNNING, at every later tick:
    power on, no alarm, the same speed and target, one part and one
    cycle counted.  No phase is skipped, but RAPID is never reached
    again and no further cycle completes. *)
Theorem cnc_cycle_stalls_after_first_part :
  let w0 := haas_vf2 stallEnv 0 0 in
  let w15 := exec (ticks 15 5) stallEnv w0 in
  changes (phaseTrace 15 5 stallEnv w0) =
    [Phase.IDLE; Phase.SPINDLE_RAMP; Phase.RAPID; Phase.CUTTING;
     Phase.RETRACT; Phase.DWELL; Phase.FINISH; Phase.IDLE;
     Phase.SPINDLE_RAMP] /\
  partCount (this (exec (ticks 14 5) stallEnv w0)) = 1%Z /\
  spindleSpeed (this w15) == 5549 /\
  targetSpindleSpeed (this w15) == 3051 /\
  forall n : nat,
    let m := this (exec (ticks n 5) stallEnv w15) in
    cyclePhase m = Phase.SPINDLE_RAMP /\ execution m = Exec.RUNNING /\
    power m = true /\ alarm m = None /\
    spindleSpeed m = spindleSpeed (this w15) /\
    targetSpindleSpeed m = targetSpindleSpeed (this w15) /\
    partCount m = 1%Z /\ totalCycles m = 1%Z.
Proof.
  pose proof stallEnv_run as H. cbv zeta in H |- *.
  set (w0 := haas_vf2 stallEnv 0 0) in *.
  set (w15 := exec (ticks 15 5) stallEnv w0) in *.
  clearbody w15. clearbody w0.
  destruct H as (Htr & Hp14 & (Hty & Hph & Hpc & Htc) & Hex & Hpw & Hal
                 & Hs & Ht & Hd).
  apply Qeq_bool_iff in Hs. apply Qeq_bool_iff in Ht.
  split; [exact Htr|]. split; [exact Hp14|].
  split; [exact Hs|]. split; [exact Ht|].
  intros n.
  assert (Hstuck : stuck 217 (spindleSpeed (this w15))
                     (targetSpindleSpeed (this w15)) 1 1 w15).
  { split; [|split].
    - split; [|exact Hex]. repeat split; assumption.
    - split; assumption.
    - rewrite Hd. lia. }
  assert (Hts : targetSpindleSpeed (this w15) <= spindleSpeed (this w15))
    by lra.
  destruct (stuck_ticks stallEnv 217 5 _ _ 1 1 halfFrom_stallEnv Hts n w15
              Hstuck)
    as ([(_ & H1 & H2 & H3 & H4 & H5) H6] & [H7 H8] & _).
  repeat split; assumption.
Qed.

(** ** Axis travel outside the laser branch *)

(** [invV I c]: [c] keeps [I] when the draws lie in [0, 1). *)
Definition invV {A} (I : Machine -> Prop) (c : Sim A) : Prop := hoareV I c I.

Section InvV.
Context (I : Machine -> Prop).

Lemma invV_inv {A} (c : Sim A) : inv I c -> invV I c.
Proof. intros H E w _. apply H. Qed.

Lemma invV_ret {A} (a : A) : invV I (ret a).
Proof. apply invV_inv, inv_ret. Qed.

Lemma invV_bind {A B} (c : Sim A) (k : A -> Sim B) :
  invV I c -> (forall a, invV I (k a)) -> invV I (bind c k).
Proof. intros Hc Hk. apply (hoareV_bind I I I); assumption. Qed.

Lemma invV_random_bind {B} (k : Q -> Sim B) :
  (forall r, 0 <= r -> r < 1 -> invV I (k r)) -> invV I (bind Math_random k).
Proof. apply hoareV_random_bind. Qed.

Lemma invV_assign {A} (set : A -> Machine -> Machine) (e : Machine -> A) :
  (forall m, I m -> I (set (e m) m)) -> invV I (assign set e).
Proof. intros H. apply invV_inv, inv_assign, H. Qed.

Lemma invV_when (b : bool) (c : Sim unit) : invV I c -> invV I (when b c).
Proof. intros Hc. destruct b; [exact Hc | apply invV_ret]. Qed.

Lemma invV_ifThis (cond : Machine -> bool) (c1 c2 : Sim unit) :
  invV I c1 -> invV I c2 -> invV I (ifThis cond c1 c2).
Proof.
  intros H1 H2. apply hoareV_ifThis.
  - eapply hoareV_conseq; [| |exact H1]; [intros m [H _]; exact H | auto].
  - eapply hoareV_conseq; [| |exact H2]; [intros m [H _]; exact H | auto].
Qed.
End InvV.

Create HintDb invV discriminated.

(** The walk of [inv_walk] for [invV]: a draw comes with its bounds. *)
Ltac invV_step ext :=
  first
    [ ext
    | lazymatch goal with
      | |- forall _, _ => intro
      | |- invV _ (bind Math_random _) =>
          apply invV_random_bind; intros ? ? ?
      | |- invV _ (bind _ _) => apply invV_bind
      | |- invV _ (ret _) => apply invV_ret
      | |- invV _ (when _ _) => apply invV_when
      | |- invV _ (ifThis _ _ _) => apply invV_ifThis
      | |- invV _ (assign _ _) =>
          apply invV_assign;
          try (let m := fresh "m" in let Hm := fresh "Hm" in
               intros m Hm; exact Hm)
      | |- invV _ (gets _) => apply invV_inv, inv_gets
      | |- invV _ Math_random => apply invV_inv, inv_Math_random
      | |- invV _ new_Date => apply invV_inv, inv_new_Date
      | |- invV _ (andRandom _ _) => apply invV_inv, inv_andRandom
      | |- invV _ (modifyTool _) =>
          apply invV_inv, inv_modifyTool;
          try (let m := fresh "m" in let Hm := fresh "Hm" in
               intros m ? Hm; exact Hm)
      | |- invV _ (modifyCoolant _) =>
          apply invV_inv, inv_modifyCoolant;
          try (let m := fresh "m" in let Hm := fresh "Hm" in
               intros m ? Hm; exact Hm)
      | |- invV _ (match ?x with _ => _ end) => destruct x
      | |- invV _ (let _ := _ in _) => cbv zeta
      | |- invV _ ?c =>
          first [ solve [auto with invV nocore]
                | let h := head_of c in progress unfold h ]
      end ].

Ltac invV_walk ext := repeat invV_step ext.

(** The travel of every axis is an interval, and that of Z is at least
    10 long. *)
Definition limitsOK (L : Limits) : Prop :=
  fst (limX L) <= snd (limX L) /\ fst (limY L) <= snd (limY L) /\
  fst (limZ L) + 10 <= snd (limZ L).

(** Every axis position is within the travel of its axis. *)
Definition inTravel (m : Machine) : Prop :=
  let L := axisLimits (specs m) in
  let p := axisPositions m in
  (fst (limX L) <= axX p /\ axX p <= snd (limX L)) /\
  (fst (limY L) <= axY p /\ axY p <= snd (limY L)) /\
  (fst (limZ L) <= axZ p /\ axZ p <= snd (limZ L)).

Definition travelOK (m : Machine) : Prop :=
  type m <> LASER /\ limitsOK (axisLimits (specs m)) /\ inTravel m /\
  0 <= feedRate m /\ 0 <= targetFeed m.

Ltac travel_facts :=
  unfold travelOK, inTravel, limitsOK in *; cbv zeta in *;
  repeat match goal with
         | H : _ /\ _ |- _ => destruct H
         end.

(** The Z descent of CUTTING with its floor. *)
Lemma invV_cutting_descent dtSec (k : Sim unit) :
  0 <= dtSec -> invV travelOK k ->
  invV travelOK
    (assign set_axisPositions (fun this =>
       set_axZ (axZ (axisPositions this)
                - 1.0 * dtSec * (feedRate this / Math_max (targetFeed this) 1))
               (axisPositions this));;
     ifThis (fun this =>
         Qltb (axZ (axisPositions this))
              (fst (limZ (axisLimits (specs this))) + 5))
       (assign set_axisPositions (fun this =>
          set_axZ (fst (limZ (axisLimits (specs this))) + 5)
                  (axisPositions this)))
       (ret tt);;
     k).
Proof.
  intros Hd Hk E w HE Hw.
  rewrite exec_bind. cbv beta. rewrite exec_bind. cbv beta.
  apply (Hk E _ HE). apply post_exec.
  match goal with
  | |- post _ _ (exec (assign ?set ?e) E w) _ =>
      change (exec (assign set e) E w)
        with (mkWorld (set (e (this w)) (this w)) (draws w) (dates w))
  end.
  assert (Hdrop : 0 <= 1.0 * dtSec *
            (feedRate (this w) / Math_max (targetFeed (this w)) 1)).
  { assert (0 < Math_max (targetFeed (this w)) 1)
      by (pose proof (Math_max_ge_r (targetFeed (this w)) 1); lra).
    assert (0 <= feedRate (this w) / Math_max (targetFeed (this w)) 1)
      by (apply Qle_shift_div_l; [assumption | travel_facts; lra]).
    nra. }
  run_step; run;
    match goal with Hc : Qltb _ _ = _ |- _ => cbn [this] in Hc; fields_in Hc end;
    travel_facts; fields.
  - repeat split; try assumption; lra.
  - match goal with Hc : Qltb _ _ = _ |- _ => apply Qltb_ge in Hc end.
    repeat split; try assumption; lra.
Qed.

(** The Z rise of RETRACT with its ceiling. *)
Lemma invV_retract_rise dtSec (k : Sim unit) :
  0 <= dtSec -> invV travelOK k ->
  invV travelOK
    (assign set_axisPositions (fun this =>
       set_axZ (axZ (axisPositions this) + 4.0 * dtSec) (axisPositions this));;
     ifThis (fun this =>
         Qgeb (axZ (axisPositions this))
              (snd (limZ (axisLimits (specs this))) - 10))
       (assign set_axisPositions (fun this =>
          set_axZ (snd (limZ (axisLimits (specs this))) - 10)
                  (axisPositions this));;
        assign set_cyclePhase (fun _ => Phase.DWELL);;
        assign set_timeInPhase (fun _ => 0))
       (ret tt);;
     k).
Proof.
  intros Hd Hk E w HE Hw.
  rewrite exec_bind. cbv beta. rewrite exec_bind. cbv beta.
  apply (Hk E _ HE). apply post_exec.
  match goal with
  | |- post _ _ (exec (assign ?set ?e) E w) _ =>
      change (exec (assign set e) E w)
        with (mkWorld (set (e (this w)) (this w)) (draws w) (dates w))
  end.
  run_step; run;
    match goal with Hc : Qgeb _ _ = _ |- _ => cbn [this] in Hc; fields_in Hc end;
    travel_facts; fields.
  - repeat split; try assumption; lra.
  - match goal with
    | Hc : Qgeb _ _ = _ |- _ => unfold Qgeb in Hc; apply Qle_bool_gt in Hc
    end.
    repeat split; try assumption; lra.
Qed.

Ltac travel_ext dtSec Hd :=
  idtac;
  lazymatch goal with
  | |- invV _ (bind (assign set_axisPositions
                       (fun this => set_axZ (_ - _) _)) _) =>
      apply (invV_cutting_descent dtSec _ Hd)
  | |- invV _ (bind (assign set_axisPositions
                       (fun this => set_axZ (_ + _) _)) _) =>
      apply (invV_retract_rise dtSec _ Hd)
  end.

Ltac travel_leaf :=
  travel_facts; fields; repeat split; try assumption;
  first [lra | nra | clamps].

Lemma invV_travel_cnc dtSec :
  0 <= dtSec -> invV travelOK (_updateCNCCycle dtSec).
Proof.
  intros Hd. invV_walk ltac:(travel_ext dtSec Hd).
  all: travel_leaf.
Qed.

Lemma hoareV_false {A} (P R : Machine -> Prop) (c : Sim A) :
  (forall m, P m -> False) -> hoareV P c R.
Proof. intros H E w _ Hw. destruct (H _ Hw). Qed.

Lemma invV_travel_tickBody dtSec :
  0 <= dtSec -> invV travelOK (tickBody dtSec).
Proof.
  intros Hd. unfold tickBody.
  apply hoareV_gets_bind. intros ty.
  apply (hoareV_bind _ travelOK).
  - destruct ty; cbv beta iota.
    + eapply hoareV_conseq; [| |apply (invV_travel_cnc dtSec Hd)];
        [intros m [H _]; exact H | auto].
    + eapply hoareV_conseq; [| |apply (invV_travel_cnc dtSec Hd)];
        [intros m [H _]; exact H | auto].
    + eapply hoareV_conseq;
        [| |apply (invV_inv travelOK (_updatePressCycle dtSec))];
        [intros m [H _]; exact H | auto | inv_walk].
    + apply hoareV_false. intros m [(Hty & _) Heq]. congruence.
  - intros _. apply invV_inv. inv_walk.
Qed.

Lemma invV_travel_update dtSec : 0 <= dtSec -> invV travelOK (update dtSec).
Proof.
  intros Hd E w HE Hw.
  destruct (power (this w)) eqn:Hp.
  - destruct (alarmActive (this w)) eqn:Ha.
    + rewrite (update_alarm_active dtSec E w Hp Ha). cbv zeta.
      destruct (Qltb _ 0.02); [rewrite clearAlarm_this|];
        unfold alarmTick; cbn [this]; travel_facts; fields;
        repeat split; try assumption; lra.
    + rewrite (update_running dtSec E w Hp Ha).
      apply (invV_travel_tickBody dtSec Hd E _ HE). exact Hw.
  - rewrite (update_powered_off dtSec E w Hp).
    unfold poweredOffTick; cbn [this]; travel_facts; fields;
      repeat split; try assumption; lra.
Qed.

Lemma invV_travel_command c :
  match c with Tick dtSec => 0 <= dtSec | _ => True end ->
  invV travelOK (command c).
Proof.
  destruct c; simpl; intros Hc;
    [apply invV_travel_update, Hc | apply invV_inv; inv_walk..].
Qed.

(** No command changes the specification of a machine. *)
Lemma command_keeps_specs c (L : Limits) :
  inv (fun m => axisLimits (specs m) = L) (command c).
Proof. destruct c; simpl; inv_walk. Qed.

(** A mill, a lathe or a press brake whose axis travels are intervals,
    the one of Z at least 10 long, keeps every axis position within the
    travel of its axis: from its construction on, after any sequence of
    commands whose ticks have a length of 0 or more, for draws in
    [0, 1). *)
Theorem axes_within_travel_outside_laser E id name model ty a d0 t0
    (cs : list Command) :
  validEnv E ->
  ty <> LASER ->
  limitsOK (default defaultLimits (arg_axisLimits a)) ->
  ticksNonneg cs ->
  let m := this (exec (commands cs) E
                   (HaasMachine_new id name model ty a E d0 t0)) in
  let L := axisLimits (specs m) in
  let p := axisPositions m in
  L = default defaultLimits (arg_axisLimits a) /\
  (fst (limX L) <= axX p /\ axX p <= snd (limX L)) /\
  (fst (limY L) <= axY p /\ axY p <= snd (limY L)) /\
  (fst (limZ L) <= axZ p /\ axZ p <= snd (limZ L)).
Proof.
  intros HE Hty HL Hcs m L p. subst L p.
  assert (H : (axisLimits (specs m) = default defaultLimits (arg_axisLimits a))
              /\ travelOK m).
  { subst m.
    assert (Hi : (fun m => axisLimits (specs m) =
                           default defaultLimits (arg_axisLimits a) /\
                           travelOK m)
                   (this (HaasMachine_new id name model ty a E d0 t0))).
    { apply HaasMachine_new_inv; try (intros; assumption).
      split; [reflexivity|].
      unfold travelOK, inTravel, limitsOK in *. simpl.
      destruct HL as (HX & HY & HZ).
      set (L := default defaultLimits (arg_axisLimits a)) in *.
      assert (forall lo hi : Q, lo <= hi ->
                lo <= (lo + hi) / 2 /\ (lo + hi) / 2 <= hi).
      { intros lo hi Hlh. split.
        - apply Qle_shift_div_l; lra.
        - apply Qle_shift_div_r; lra. }
      repeat split; try (apply H; assumption); try assumption; lra. }
    revert Hi. generalize (HaasMachine_new id name model ty a E d0 t0).
    induction Hcs as [|c cs Hc Hcs IH]; simpl; intros w Hw; [exact Hw|].
    rewrite exec_bind. apply IH. destruct Hw as [HLw Hw]. split.
    - apply (command_keeps_specs c _ E w HLw).
    - apply (invV_travel_command c Hc E w HE Hw). }
  destruct H as [HLm (_ & _ & H & _)]. split; [exact HLm | exact H].
Qed.

Lemma axes_within_travel_outside_laser_witness :
  let a := mkSpecsArg (Some (mkLimits (0, 762) (0, 406) (0, 508)))
             (Some 30) (Some 8100) (Some 1000) (Some 24%nat) None None in
  let cs := [Tick 2; Tick 2; InjectAlarm (Some 103%Z) "X"; Tick 2] in
  validEnv stubEnv /\ CNC_MILL <> LASER /\
  limitsOK (default defaultLimits (arg_axisLimits a)) /\
  ticksNonneg cs /\
  axZ (axisPositions
         (this (exec (commands cs) stubEnv (new_haas_vf2 stubEnv 0 0)))) <= 508.
Proof.
  cbv zeta.
  assert (H1 : CNC_MILL <> LASER) by discriminate.
  assert (H2 : limitsOK (mkLimits (0, 762) (0, 406) (0, 508)))
    by (repeat split; vm_compute; discriminate).
  assert (H3 : ticksNonneg
                 [Tick 2; Tick 2; InjectAlarm (Some 103%Z) "X"; Tick 2])
    by (repeat constructor; vm_compute; discriminate).
  split; [exact validEnv_stubEnv|]. split; [exact H1|].
  split; [exact H2|]. split; [exact H3|].
  apply (axes_within_travel_outside_laser stubEnv "haas_vf2" "Haas VF-2"
           "VF-2" CNC_MILL
           (mkSpecsArg (Some (mkLimits (0, 762) (0, 406) (0, 508)))
              (Some 30) (Some 8100) (Some 1000) (Some 24%nat) None None)
           0 0 _ validEnv_stubEnv H1 H2 H3).
Defined.

(** ** Alarms the evaluation cannot raise *)

(** The messages of the following-error alarms 103 to 105 and of the
    vibration alarm. *)
Definition unraisable (message : string) : bool :=
  bool_decide (message ∈ ["X AXIS FOLLOWING ERROR"; "Y AXIS FOLLOWING ERROR";
                          "Z AXIS FOLLOWING ERROR"; "HIGH_VIBRATION"]%string).

Definition raisable (e : AlarmEntry.t) : Prop :=
  unraisable (AlarmEntry.message e) = false.

Definition belowTests (m : Machine) : Prop :=
  (axX (servoFollowingError m) <= 0.003 /\
   axY (servoFollowingError m) <= 0.003 /\
   axZ (servoFollowingError m) <= 0.003) /\
  toolWear m <= 1 /\ vibration m <= 3.4 /\
  match alarm m with
  | Some message => unraisable message = false
  | None => True
  end /\
  Forall raisable (alarmHistory m).

Ltac below_facts :=
  unfold belowTests in *;
  repeat match goal with
         | H : _ /\ _ |- _ => destruct H
         end.

(** A test that fails on every machine of the invariant. *)
Lemma invV_failed_test (I : Machine -> Prop) (cond : Machine -> bool) (p : Q)
    (c1 c2 : Sim unit) :
  (forall m, I m -> cond m = false) ->
  invV I c2 ->
  invV I (b <- andRandom cond p;; if b then c1 else c2).
Proof.
  intros Hc H2 E w HE Hw. unfold exec, andRandom, gets, ret, bind.
  cbv zeta. cbn [fst snd]. rewrite (Hc _ Hw). cbn [fst snd].
  apply (H2 E w HE Hw).
Qed.

Lemma Forall_slice_last {A} (P : A -> Prop) (n : nat) (l : list A) :
  Forall P l -> Forall P (slice_last n l).
Proof. unfold slice_last. apply Forall_drop. Qed.

Lemma invV_below_setAlarm code message :
  unraisable message = false ->
  invV belowTests (_setAlarm code message).
Proof.
  intros Hmsg E w _ Hw. below_facts. rewrite setAlarm_this. fields.
  repeat split; try assumption.
  apply Forall_slice_last, Forall_app. split; [assumption|].
  constructor; [exact Hmsg | constructor].
Qed.

Lemma invV_below_clearAlarm : invV belowTests _clearAlarm.
Proof.
  intros E w _ Hw. below_facts. rewrite clearAlarm_this. fields.
  repeat split; try assumption.
  unfold clearedHistory. apply Forall_alter; [assumption|].
  intros e _ He. exact He.
Qed.

(** The wear increment of CUTTING with its cap. *)
Lemma invV_below_wear (k : Sim unit) :
  invV belowTests k ->
  invV belowTests
    (assign set_toolWear
       (fun this => toolWear this + spindleLoad this / 250000.0);;
     ifThis (fun this => Qgtb (toolWear this) 1.0)
       (assign set_toolWear (fun _ => 1.0)) (ret tt);;
     k).
Proof.
  intros Hk E w HE Hw.
  rewrite exec_bind. cbv beta. rewrite exec_bind. cbv beta.
  apply (Hk E _ HE). apply post_exec.
  match goal with
  | |- post _ _ (exec (assign ?set ?e) E w) _ =>
      change (exec (assign set e) E w)
        with (mkWorld (set (e (this w)) (this w)) (draws w) (dates w))
  end.
  run_step; run;
    match goal with Hc : Qgtb _ _ = _ |- _ => cbn [this] in Hc; fields_in Hc end;
    below_facts; fields.
  - repeat split; try assumption; lra.
  - match goal with Hc : Qgtb _ _ = _ |- _ => apply Qltb_ge in Hc end.
    repeat split; try assumption; lra.
Qed.

Ltac below_ext :=
  idtac;
  lazymatch goal with
  | |- invV _ (bind (assign set_toolWear _) _) => apply invV_below_wear
  | |- invV _ (bind (andRandom
                       (fun this => Qgtb (_ (servoFollowingError this)) _) _)
                    _) =>
      apply invV_failed_test;
      [let m := fresh "m" in let Hm := fresh "Hm" in
       intros m Hm; apply Qltb_ge; below_facts; lra |]
  | |- invV _ (bind (andRandom (fun this => Qgtb (vibration this) _) _) _) =>
      apply invV_failed_test;
      [let m := fresh "m" in let Hm := fresh "Hm" in
       intros m Hm; apply Qltb_ge; below_facts; lra |]
  | |- invV _ (_setAlarm _ _) => apply invV_below_setAlarm; reflexivity
  | |- invV _ _clearAlarm => apply invV_below_clearAlarm
  end.

Lemma invV_below_command c :
  noInject c = true -> invV belowTests (command c).
Proof.
  destruct c; simpl; intros Hc; try discriminate Hc;
    invV_walk below_ext.
  all: below_facts; fields; repeat split; try assumption; lra.
Qed.

(** On a machine that no alarm is injected into, the alarm evaluation
    never raises X, Y or Z AXIS FOLLOWING ERROR nor HIGH_VIBRATION: the
    following errors stay at or below 0.003 (the tests ask for more than
    0.005) and the vibration at or below 3.4 (the test asks for more than
    5.0), so neither the active alarm nor any entry of the history
    carries one of these messages.  This holds for draws in [0, 1) after
    any sequence of ticks, power toggles and clears. *)
Theorem following_error_and_vibration_alarms_never_raised
    E id name model ty a d0 t0 (cs : list Command) :
  validEnv E ->
  forallb noInject cs = true ->
  let m := this (exec (commands cs) E
                   (HaasMachine_new id name model ty a E d0 t0)) in
  (axX (servoFollowingError m) <= 0.003 /\
   axY (servoFollowingError m) <= 0.003 /\
   axZ (servoFollowingError m) <= 0.003) /\
  vibration m <= 3.4 /\
  match alarm m with
  | Some message => unraisable message = false
  | None => True
  end /\
  Forall (fun e => unraisable (AlarmEntry.message e) = false)
         (alarmHistory m).
Proof.
  intros HE Hcs m.
  assert (H : belowTests m).
  { subst m.
    assert (Hi : belowTests (this (HaasMachine_new id name model ty a E d0 t0))).
    { apply (HaasMachine_new_inv belowTests); try (intros; assumption).
      unfold belowTests. simpl. repeat split; try lra. constructor. }
    revert Hi. generalize (HaasMachine_new id name model ty a E d0 t0).
    induction cs as [|c cs IH]; simpl; intros w Hw; [exact Hw|].
    simpl in Hcs. apply andb_true_iff in Hcs as [Hc Hcs].
    rewrite exec_bind. apply (IH Hcs).
    apply (invV_below_command c Hc E w HE Hw). }
  destruct H as (Hf & _ & Hv & Ha & Hh). auto.
Qed.

Lemma following_error_and_vibration_alarms_never_raised_witness :
  validEnv stubEnv /\
  forallb noInject [Tick 2; Tick 2; ClearAlarm; Tick 2] = true /\
  vibration (this (exec (commands [Tick 2; Tick 2; ClearAlarm; Tick 2])
                     stubEnv (new_haas_vf2 stubEnv 0 0))) <= 3.4.
Proof.
  split; [exact validEnv_stubEnv|]. split; [reflexivity|].
  exact (proj1 (proj2
           (following_error_and_vibration_alarms_never_raised stubEnv
              "haas_vf2" "Haas VF-2" "VF-2" CNC_MILL
              (mkSpecsArg (Some (mkLimits (0, 762) (0, 406) (0, 508)))
                 (Some 30) (Some 8100) (Some 1000) (Some 24%nat) None None)
              0 0 [Tick 2; Tick 2; ClearAlarm; Tick 2]
              validEnv_stubEnv eq_refl))).
Defined.

(** ** Range of the spindle load and of the spindle speed *)

(** The speed a spindle target is drawn below. *)
Definition topSpeed (m : Machine) : Q := Math_max 3000 (maxRPM (specs m)).

(** What the ratings of a machine of type [ty] have to satisfy; for a
    mill or a lathe, also that a spindle target was drawn once the cycle
    has left IDLE. *)
Definition rated (ty : MachineType) (m : Machine) : Prop :=
  match ty with
  | CNC_MILL | LATHE =>
      0 <= maxRPM (specs m) /\
      (0 < targetSpindleSpeed m \/ cyclePhase m = Phase.IDLE)
  | PRESS_BRAKE => 0 < maxTonnage m
  | LASER => 2000 <= maxLaserPower m
  end.

Definition loadOK (m : Machine) : Prop :=
  (0 <= spindleLoad m /\ spindleLoad m <= 100) /\
  (0 <= spindleSpeed m /\ spindleSpeed m <= topSpeed m) /\
  targetSpindleSpeed m <= topSpeed m /\
  (0 <= ramPosition m /\ ramPosition m <= 100) /\
  (0 <= tonnage m /\ tonnage m <= maxTonnage m) /\
  (0 <= laserPower m /\ laserPower m <= maxLaserPower m).

Definition ratedOK (ty : MachineType) (m : Machine) : Prop :=
  type m = ty /\ rated ty m /\ loadOK m.

(** [ratedOK] in the phases behind IDLE. *)
Definition cuttingOK (ty : MachineType) (m : Machine) : Prop :=
  ratedOK ty m /\ 0 < targetSpindleSpeed m.

Lemma Qdiv_unit (x M : Q) :
  0 <= x -> x <= M -> 0 < M -> 0 <= x / M /\ x / M <= 1.
Proof.
  intros H0 H1 HM. split.
  - apply Qle_shift_div_l; lra.
  - apply Qle_shift_div_r; lra.
Qed.

Lemma Qdiv_nonneg (x M : Q) : 0 <= x -> 0 < M -> 0 <= x / M.
Proof. intros H0 HM. apply Qle_shift_div_l; lra. Qed.

Ltac load_facts :=
  unfold cuttingOK, ratedOK, rated, loadOK, topSpeed in *;
  repeat match goal with
         | H : _ /\ _ |- _ => destruct H
         end.

(** The quotients of a goal, bounded and then taken as unknowns. *)
Ltac load_quotients :=
  repeat match goal with
         | |- context [?x / ?M] =>
             lazymatch M with
             | targetSpindleSpeed _ =>
                 let H := fresh "Hq" in
                 assert (H : 0 <= x / M) by (apply Qdiv_nonneg; lra);
                 generalize dependent (x / M); intros
             | maxTonnage _ =>
                 let H := fresh "Hq" in
                 assert (H : 0 <= x / M /\ x / M <= 1)
                   by (apply Qdiv_unit; lra);
                 destruct H;
                 generalize dependent (x / M); intros
             | 100 =>
                 lazymatch x with ramPosition _ => idtac end;
                 let H := fresh "Hq" in
                 assert (H : 0 <= x / M /\ x / M <= 1)
                   by (apply Qdiv_unit; lra);
                 destruct H;
                 generalize dependent (x / M); intros
             | maxLaserPower _ =>
                 let H := fresh "Hq" in
                 assert (H : 0 <= x / M /\ x / M <= 1)
                   by (apply Qdiv_unit; lra);
                 destruct H;
                 generalize dependent (x / M); intros
             end
         end.

Ltac load_arith :=
  first [ assumption
        | intros; discriminate
        | left; assumption
        | right; reflexivity
        | lra
        | nra
        | unfold Math_min, Math_max in *;
          repeat match goal with
                 | |- context [Qle_bool ?a ?b] =>
                     let H := fresh "Hc" in
                     destruct (Qle_bool a b) eqn:H;
                     [apply Qle_bool_iff in H | apply Qle_bool_gt in H]
                 | H0 : context [Qle_bool ?a ?b] |- _ =>
                     let H := fresh "Hc" in
                     destruct (Qle_bool a b) eqn:H;
                     [apply Qle_bool_iff in H | apply Qle_bool_gt in H]
                 end;
          first [lra | nra] ].

Ltac load_leaf :=
  load_facts; fields; repeat split; try assumption;
  load_quotients; load_arith.

(** Starting a cycle draws a positive spindle target. *)
Lemma invV_rated_startNewCycle ty :
  isCNC ty = true -> invV (ratedOK ty) _startNewCycle.
Proof.
  intros Hty E w HE Hw.
  pose proof (HE (draws w)) as [? ?].
  pose proof (HE (S (draws w))) as [? ?].
  pose proof (HE (S (S (draws w)))) as [? ?].
  pose proof (HE (S (S (S (draws w))))) as [? ?].
  apply post_exec.
  destruct ty; try discriminate Hty.
  all: run; load_facts; fields; repeat split; try assumption;
    try (left); load_arith.
Qed.

(** The ramp of the spindle with its cap at the target. *)
Lemma invV_rated_ramp ty dtSec :
  isCNC ty = true -> 0 <= dtSec ->
  invV (cuttingOK ty)
    (ifThis (fun this => Qltb (spindleSpeed this) (targetSpindleSpeed this))
       (assign set_spindleSpeed (fun this => spindleSpeed this + 350 * dtSec);;
        ifThis (fun this => Qgeb (spindleSpeed this) (targetSpindleSpeed this))
          (assign set_spindleSpeed (fun this => targetSpindleSpeed this);;
           assign set_cyclePhase (fun _ => Phase.RAPID);;
           assign set_timeInPhase (fun _ => 0))
          (ret tt))
       (ret tt)).
Proof.
  intros Hty Hd E w HE Hw. apply post_exec.
  destruct ty; try discriminate Hty.
  all: run;
    repeat match goal with
           | Hc : Qltb _ _ = true |- _ =>
               cbn [this] in Hc; fields_in Hc; apply Qltb_lt in Hc
           | Hc : Qltb _ _ = false |- _ =>
               cbn [this] in Hc; fields_in Hc; apply Qltb_ge in Hc
           | Hc : Qgeb _ _ = true |- _ =>
               cbn [this] in Hc; fields_in Hc; unfold Qgeb in Hc;
               apply Qle_bool_iff in Hc
           | Hc : Qgeb _ _ = false |- _ =>
               cbn [this] in Hc; fields_in Hc; unfold Qgeb in Hc;
               apply Qle_bool_gt in Hc
           end;
    load_facts; fields; repeat split; try assumption; load_arith.
Qed.

Ltac rated_ext ty dtSec Hty Hd :=
  idtac;
  lazymatch goal with
  | |- invV _ _startNewCycle => apply (invV_rated_startNewCycle ty Hty)
  | |- invV _ (ifThis (fun this =>
                 Qltb (spindleSpeed this) (targetSpindleSpeed this)) _ _) =>
      apply (invV_rated_ramp ty dtSec Hty Hd)
  end.

Ltac no_ext := fail.

Lemma invV_rated_idle ty dtSec :
  isCNC ty = true -> 0 <= dtSec -> invV (ratedOK ty) (_phaseIdle dtSec).
Proof.
  intros Hty Hd. invV_walk ltac:(rated_ext ty dtSec Hty Hd).
  all: destruct ty; try discriminate Hty; load_leaf.
Qed.

Lemma invV_rated_phases ty dtSec :
  isCNC ty = true -> 0 <= dtSec ->
  invV (cuttingOK ty) (_phaseSpindleRamp dtSec) /\
  invV (cuttingOK ty) (_phaseRapid dtSec) /\
  invV (cuttingOK ty) (_phaseCutting dtSec) /\
  invV (cuttingOK ty) (_phaseRetract dtSec) /\
  invV (cuttingOK ty) (_phaseDwell dtSec) /\
  invV (cuttingOK ty) (_phaseFinish dtSec).
Proof.
  intros Hty Hd. repeat apply conj.
  all: invV_walk ltac:(rated_ext ty dtSec Hty Hd).
  all: destruct ty; try discriminate Hty; load_leaf.
Qed.

Lemma cuttingOK_of_phase ty ph m :
  isCNC ty = true -> ph <> Phase.IDLE ->
  ratedOK ty m /\ cyclePhase m = ph -> cuttingOK ty m.
Proof.
  intros Hty Hph [Hm Heq]. split; [exact Hm|].
  destruct Hm as (_ & Hr & _).
  destruct ty; try discriminate Hty; destruct Hr as [_ [Ht | Hi]];
    try exact Ht; congruence.
Qed.

Lemma invV_rated_cnc ty dtSec :
  isCNC ty = true -> 0 <= dtSec -> invV (ratedOK ty) (_updateCNCCycle dtSec).
Proof.
  intros Hty Hd. unfold _updateCNCCycle.
  destruct (invV_rated_phases ty dtSec Hty Hd)
    as (Hramp & Hrapid & Hcut & Hretract & Hdwell & Hfinish).
  apply hoareV_gets_bind. intros ph.
  destruct ph; cbv beta iota;
    lazymatch goal with
    | |- hoareV _ (_phaseIdle _) _ =>
        eapply hoareV_conseq; [| |apply (invV_rated_idle ty dtSec Hty Hd)];
        [intros m [H _]; exact H | auto]
    | |- hoareV _ (ret _) _ =>
        eapply hoareV_conseq; [| |apply (invV_ret (ratedOK ty))];
        [intros m [H _]; exact H | auto]
    | |- hoareV (fun m => _ /\ _ = ?ph) _ _ =>
        eapply (hoareV_conseq (cuttingOK ty) _ (cuttingOK ty));
        [intros m H; apply (cuttingOK_of_phase ty ph m Hty);
         [discriminate | exact H]
        |intros m [H _]; exact H
        |assumption]
    end.
Qed.

Lemma invV_rated_press dtSec :
  0 <= dtSec -> invV (ratedOK PRESS_BRAKE) (_updatePressCycle dtSec).
Proof.
  intros Hd. invV_walk no_ext.
  all: load_leaf.
Qed.

Lemma invV_rated_laser dtSec :
  0 <= dtSec -> invV (ratedOK LASER) (_updateLaserCycle dtSec).
Proof.
  intros Hd. invV_walk no_ext.
  all: load_leaf.
Qed.

(** The sensors, the alarm evaluation and the warnings leave the load,
    the speed, the phase and the ratings alone. *)
Lemma invV_rated_rest ty dtSec :
  invV (ratedOK ty)
    (_updateHealthSensors dtSec;; _checkAlarms;; _updateWarnings).
Proof.
  apply invV_inv. inv_walk.
  all: destruct ty; load_leaf.
Qed.

Lemma invV_rated_tickBody ty dtSec :
  0 <= dtSec -> invV (ratedOK ty) (tickBody dtSec).
Proof.
  intros Hd. unfold tickBody.
  apply hoareV_gets_bind. intros ty'.
  apply (hoareV_bind _ (ratedOK ty)); [|intros _; apply invV_rated_rest].
  apply (hoareV_conseq (fun m => ratedOK ty m /\ ty' = ty) _ (ratedOK ty));
    [intros m [H Heq]; split; [exact H | destruct H; congruence] | auto |].
  intros E w HE [Hw Heq]. subst ty'. revert E w HE Hw.
  change (invV (ratedOK ty)
            match ty with
            | CNC_MILL | LATHE => _updateCNCCycle dtSec
            | PRESS_BRAKE => _updatePressCycle dtSec
            | LASER => _updateLaserCycle dtSec
            end).
  destruct ty.
  - apply invV_rated_cnc; [reflexivity | exact Hd].
  - apply invV_rated_cnc; [reflexivity | exact Hd].
  - apply invV_rated_press, Hd.
  - apply invV_rated_laser, Hd.
Qed.

Lemma invV_rated_update ty dtSec :
  0 <= dtSec -> invV (ratedOK ty) (update dtSec).
Proof.
  intros Hd E w HE Hw.
  destruct (power (this w)) eqn:Hp.
  - destruct (alarmActive (this w)) eqn:Ha.
    + rewrite (update_alarm_active dtSec E w Hp Ha). cbv zeta.
      destruct (Qltb _ 0.02); [rewrite clearAlarm_this|];
        unfold alarmTick; cbn [this]; destruct ty; load_leaf.
    + rewrite (update_running dtSec E w Hp Ha).
      apply (invV_rated_tickBody ty dtSec Hd E _ HE).
      unfold tickStart. cbn [this]. destruct ty; load_leaf.
  - rewrite (update_powered_off dtSec E w Hp).
    unfold poweredOffTick; cbn [this]; destruct ty; load_leaf.
Qed.

Lemma invV_rated_command ty c :
  match c with Tick dtSec => 0 <= dtSec | _ => True end ->
  invV (ratedOK ty) (command c).
Proof.
  destruct c; simpl; intros Hc;
    [apply invV_rated_update, Hc | apply invV_inv; inv_walk..].
  all: destruct ty; load_leaf.
Qed.

(** What the constructor is given for the rating the type of the machine
    uses: the maximum speed of a mill or lathe, the rated tonnage of a
    press brake, the maximum power of a laser. *)
Definition ratingArg (ty : MachineType) (a : SpecsArg) : Prop :=
  match ty with
  | CNC_MILL | LATHE => 0 <= orNum (arg_maxRPM a) 8100
  | PRESS_BRAKE => 0 < orNum (arg_maxTonnage a) 200
  | LASER => 2000 <= orNum (arg_maxLaserPower a) 6000
  end.

(** The spindle load of a machine stays between 0 and 100, and its
    spindle speed between 0 and the larger of 3000 and the maximum speed
    of its specification: from the construction on, after any sequence
    of commands whose ticks have a length of 0 or more, for draws in
    [0, 1), provided the maximum speed of a mill or lathe is not
    negative, the rated tonnage of a press brake is positive and the
    maximum power of a laser is at least 2000.  On a mill or lathe the
    spindle target is positive whenever the cycle is outside IDLE, so
    that the quotient of speed and target in SPINDLE_RAMP is defined. *)
Theorem spindle_load_and_speed_in_range E id name model ty a d0 t0
    (cs : list Command) :
  validEnv E ->
  ratingArg ty a ->
  ticksNonneg cs ->
  let m := this (exec (commands cs) E
                   (HaasMachine_new id name model ty a E d0 t0)) in
  (0 <= spindleLoad m /\ spindleLoad m <= 100) /\
  (0 <= spindleSpeed m /\
   spindleSpeed m <= Math_max 3000 (maxRPM (specs m))) /\
  (isCNC ty = true -> cyclePhase m <> Phase.IDLE ->
   0 < targetSpindleSpeed m).
Proof.
  intros HE Ha Hcs m.
  assert (H : ratedOK ty m).
  { subst m.
    assert (Hi : ratedOK ty
                   (this (HaasMachine_new id name model ty a E d0 t0))).
    { apply (HaasMachine_new_inv (ratedOK ty)); try (intros; assumption).
      unfold ratedOK, rated, loadOK, topSpeed, ratingArg in *. simpl.
      pose proof (Math_max_ge_l 3000 (orNum (arg_maxRPM a) 8100)).
      destruct ty; simpl; repeat split; try assumption; try lra;
        try (right; reflexivity). }
    revert Hi. generalize (HaasMachine_new id name model ty a E d0 t0).
    induction Hcs as [|c cs Hc Hcs IH]; simpl; intros w Hw; [exact Hw|].
    rewrite exec_bind. apply IH.
    apply (invV_rated_command ty c Hc E w HE Hw). }
  destruct H as (_ & Hr & (Hl & Hs & _)).
  split; [exact Hl|]. split; [exact Hs|].
  intros Hty Hph. destruct ty; try discriminate Hty;
    destruct Hr as [_ [Ht | Hi]]; try exact Ht; contradiction.
Qed.

Lemma spindle_load_and_speed_in_range_witness :
  let a := mkSpecsArg (Some (mkLimits (0, 762) (0, 406) (0, 508)))
             (Some 30) (Some 8100) (Some 1000) (Some 24%nat) None None in
  let cs := [Tick 2; Tick 2; InjectAlarm (Some 103%Z) "X"; Tick 2] in
  validEnv stubEnv /\ ratingArg CNC_MILL a /\ ticksNonneg cs /\
  spindleLoad (this (exec (commands cs) stubEnv (new_haas_vf2 stubEnv 0 0)))
  <= 100.
Proof.
  cbv zeta.
  assert (H2 : ratingArg CNC_MILL
                 (mkSpecsArg (Some (mkLimits (0, 762) (0, 406) (0, 508)))
                    (Some 30) (Some 8100) (Some 1000) (Some 24%nat)
                    None None))
    by (vm_compute; discriminate).
  assert (H3 : ticksNonneg
                 [Tick 2; Tick 2; InjectAlarm (Some 103%Z) "X"; Tick 2])
    by (repeat constructor; vm_compute; discriminate).
  split; [exact validEnv_stubEnv|]. split; [exact H2|]. split; [exact H3|].
  exact (proj2 (proj1
           (spindle_load_and_speed_in_range stubEnv "haas_vf2" "Haas VF-2"
              "VF-2" CNC_MILL
              (mkSpecsArg (Some (mkLimits (0, 762) (0, 406) (0, 508)))
                 (Some 30) (Some 8100) (Some 1000) (Some 24%nat) None None)
              0 0 [Tick 2; Tick 2; InjectAlarm (Some 103%Z) "X"; Tick 2]
              validEnv_stubEnv H2 H3))).
Defined.

(** ** Execution state, power and alarm *)

(** A mill or lathe is never in the phase RUNNING of the press brake and
    of the laser, the one phase [_updateCNCCycle] has no case for. *)
Definition cncPhase (ty : MachineType) (m : Machine) : Prop :=
  type m = ty /\ (isCNC ty = true -> cyclePhase m <> Phase.RUNNING).

Definition poweredOn (m : Machine) : Prop := power m = true.

Definition live (m : Machine) : Prop :=
  power m = true /\ execution m <> Exec.STOPPED.

Ltac state_leaf :=
  unfold cncPhase, poweredOn, live in *; fields;
  repeat match goal with
         | H : _ /\ _ |- _ => destruct H
         end;
  repeat split; try assumption; try discriminate;
  try (intros; discriminate); auto.

Lemma cncPhase_tickBody ty dtSec : inv (cncPhase ty) (tickBody dtSec).
Proof.
  unfold tickBody. apply hoare_gets_bind. intros ty'.
  apply (hoare_bind _ (cncPhase ty));
    [|intros _; apply hoare_inv; inv_walk; state_leaf].
  apply (hoare_conseq (fun m => cncPhase ty m /\ ty' = ty) _ (cncPhase ty));
    [intros m [Hm Heq]; split; [exact Hm | destruct Hm; congruence] | auto |].
  intros E w [Hw Heq]. subst ty'. revert E w Hw.
  change (inv (cncPhase ty)
            match ty with
            | CNC_MILL | LATHE => _updateCNCCycle dtSec
            | PRESS_BRAKE => _updatePressCycle dtSec
            | LASER => _updateLaserCycle dtSec
            end).
  destruct ty; inv_walk; state_leaf.
Qed.

Lemma cncPhase_update ty dtSec : inv (cncPhase ty) (update dtSec).
Proof.
  intros E w Hw.
  destruct (power (this w)) eqn:Hp.
  - destruct (alarmActive (this w)) eqn:Ha.
    + rewrite (update_alarm_active dtSec E w Hp Ha). cbv zeta.
      destruct (Qltb _ 0.02); [rewrite clearAlarm_this|];
        unfold alarmTick; cbn [this]; state_leaf.
    + rewrite (update_running dtSec E w Hp Ha).
      apply (cncPhase_tickBody ty dtSec E).
      unfold tickStart. cbn [this]. state_leaf.
  - rewrite (update_powered_off dtSec E w Hp).
    unfold poweredOffTick; cbn [this]; state_leaf.
Qed.

Lemma cncPhase_command ty c : inv (cncPhase ty) (command c).
Proof.
  destruct c; simpl; [apply cncPhase_update | inv_walk..]; state_leaf.
Qed.

(** A method that starts by setting the execution state to something
    other than STOPPED. *)
Lemma live_from_execution (P : Machine -> Prop) (e : Exec.t) (k : Sim unit) :
  (forall m, P m -> power m = true) ->
  e <> Exec.STOPPED ->
  inv live k ->
  hoare P (assign set_execution (fun _ => e);; k) live.
Proof.
  intros HP He Hk. apply (hoare_bind _ live).
  - apply hoare_assign. intros m Hm. unfold live. fields.
    split; [apply HP, Hm | exact He].
  - intros _. apply hoare_inv, Hk.
Qed.

Ltac live_method :=
  lazymatch goal with
  | |- hoare _ ?c _ => let h := head_of c in unfold h
  end;
  apply live_from_execution;
  [intros ? [[_ ?] _]; assumption | discriminate | inv_walk; state_leaf].

Lemma live_cnc ty dtSec :
  isCNC ty = true ->
  hoare (fun m => cncPhase ty m /\ poweredOn m) (_updateCNCCycle dtSec) live.
Proof.
  intros Hty. unfold _updateCNCCycle.
  apply hoare_gets_bind. intros ph.
  destruct ph; cbv beta iota; try live_method.
  intros E w [[[_ Hph] _] Heq]. destruct (Hph Hty Heq).
Qed.

Lemma live_branches (P : Machine -> Prop) (cond : Machine -> bool) (p : Q)
    (start : Sim unit) (e1 e2 : Exec.t) (k1 k2 : Sim unit) :
  (forall m, P m -> power m = true) ->
  inv P start ->
  e1 <> Exec.STOPPED -> e2 <> Exec.STOPPED ->
  inv live k1 -> inv live k2 ->
  hoare P
    (b <- andRandom cond p;;
     when b start;;
     ifThis (fun this => bool_decide (cyclePhase this = Phase.RUNNING))
       (assign set_execution (fun _ => e1);; k1)
       (assign set_execution (fun _ => e2);; k2))
    live.
Proof.
  intros HP Hs He1 He2 Hk1 Hk2.
  apply (hoare_bind _ P); [apply hoare_inv, inv_andRandom|]. intros b.
  apply (hoare_bind _ P); [apply hoare_inv, inv_when, Hs|]. intros _.
  apply hoare_ifThis.
  - apply live_from_execution; [intros m [Hm _]; apply HP, Hm | exact He1
                               | exact Hk1].
  - apply live_from_execution; [intros m [Hm _]; apply HP, Hm | exact He2
                               | exact Hk2].
Qed.

Lemma live_press dtSec : hoare poweredOn (_updatePressCycle dtSec) live.
Proof.
  unfold _updatePressCycle. apply live_branches;
    [intros m Hm; exact Hm | inv_walk; state_leaf | discriminate..
    | inv_walk; state_leaf | inv_walk; state_leaf].
Qed.

Lemma live_laser dtSec : hoare poweredOn (_updateLaserCycle dtSec) live.
Proof.
  unfold _updateLaserCycle. apply live_branches;
    [intros m Hm; exact Hm | inv_walk; state_leaf | discriminate..
    | inv_walk; state_leaf | inv_walk; state_leaf].
Qed.

Lemma live_tickBody ty dtSec :
  hoare (fun m => cncPhase ty m /\ poweredOn m) (tickBody dtSec) live.
Proof.
  unfold tickBody. apply hoare_gets_bind. intros ty'.
  apply (hoare_bind _ live);
    [|intros _; apply hoare_inv; inv_walk; state_leaf].
  apply (hoare_pre (fun m => (cncPhase ty m /\ poweredOn m) /\ ty' = ty));
    [intros m [Hm Heq]; split; [exact Hm | destruct Hm as [[? _] _]; congruence]|].
  intros E w [Hw Heq]. subst ty'. revert E w Hw.
  change (hoare (fun m => cncPhase ty m /\ poweredOn m)
            match ty with
            | CNC_MILL | LATHE => _updateCNCCycle dtSec
            | PRESS_BRAKE => _updatePressCycle dtSec
            | LASER => _updateLaserCycle dtSec
            end live).
  destruct ty.
  - apply live_cnc. reflexivity.
  - apply live_cnc. reflexivity.
  - eapply hoare_pre; [|apply live_press]. intros m [_ Hm]. exact Hm.
  - eapply hoare_pre; [|apply live_laser]. intros m [_ Hm]. exact Hm.
Qed.

Lemma stopped_iff_update ty dtSec :
  hoare (cncPhase ty) (update dtSec)
    (fun m => execution m = Exec.STOPPED <-> power m = false).
Proof.
  intros E w Hw.
  destruct (power (this w)) eqn:Hp.
  - assert (Hl : live (this (exec (update dtSec) E w))).
    { destruct (alarmActive (this w)) eqn:Ha.
      - rewrite (update_alarm_active dtSec E w Hp Ha). cbv zeta.
        destruct (Qltb _ 0.02); [rewrite clearAlarm_this|];
          unfold alarmTick, live; cbn [this]; fields;
          (split; [exact Hp | discriminate]).
      - rewrite (update_running dtSec E w Hp Ha).
        apply (live_tickBody ty dtSec E).
        unfold tickStart. cbn [this]. split; state_leaf. }
    destruct Hl as [Hl1 Hl2]. rewrite Hl1. split; [contradiction | discriminate].
  - rewrite (update_powered_off dtSec E w Hp).
    unfold poweredOffTick. cbn [this]. fields. rewrite Hp.
    split; reflexivity.
Qed.

Lemma cncPhase_reachable E id name model ty a d0 t0 (cs : list Command) :
  cncPhase ty (this (exec (commands cs) E
                       (HaasMachine_new id name model ty a E d0 t0))).
Proof.
  apply (inv_commands (cncPhase ty)); [apply cncPhase_command|].
  apply (HaasMachine_new_inv (cncPhase ty)); try (intros; assumption).
  split; [reflexivity | intros _; discriminate].
Qed.

(** A mill or lathe is never in the phase RUNNING of the press brake and
    of the laser, the one phase [_updateCNCCycle] has no case for; and
    directly after a tick, the execution state of a machine is STOPPED
    exactly when its power is off.  Both hold whatever commands came
    before, from the construction on.  (Between ticks the execution
    state and the power can differ: [setPower(true)] leaves a stopped
    machine STOPPED, and clearing the alarm of a machine that is off
    makes it IDLE.) *)
Theorem stopped_iff_power_off_after_tick E id name model ty a d0 t0
    (cs : list Command) (dtSec : Q) :
  let m := this (exec (commands cs) E
                   (HaasMachine_new id name model ty a E d0 t0)) in
  let m' := this (exec (commands (cs ++ [Tick dtSec])) E
                    (HaasMachine_new id name model ty a E d0 t0)) in
  (isCNC ty = true -> cyclePhase m <> Phase.RUNNING) /\
  (execution m' = Exec.STOPPED <-> power m' = false).
Proof.
  assert (Hsplit : forall w,
            exec (commands (cs ++ [Tick dtSec])) E w =
            exec (update dtSec) E (exec (commands cs) E w)).
  { induction cs as [|c cs IH]; intros w; simpl.
    - reflexivity.
    - rewrite !exec_bind. apply IH. }
  cbv zeta. rewrite Hsplit.
  pose proof (cncPhase_reachable E id name model ty a d0 t0 cs) as Hk.
  split; [apply Hk|].
  apply (stopped_iff_update ty dtSec E), Hk.
Qed.

(** The execution state ALARM comes with the power on and an active
    alarm. *)
Definition alarmState (m : Machine) : Prop :=
  execution m = Exec.ALARM -> power m = true /\ alarmActive m = true.

(** Every injected alarm has a message, as the route of the server
    requires. *)
Definition injectsNamed (cs : list Command) : Prop :=
  Forall (fun c => match c with
                   | InjectAlarm _ message => message <> ""%string
                   | _ => True
                   end) cs.

Lemma notAlarm_tickBody dtSec :
  inv (fun m => execution m <> Exec.ALARM) (tickBody dtSec).
Proof. inv_walk; fields; discriminate. Qed.

Lemma alarmState_update dtSec : inv alarmState (update dtSec).
Proof.
  intros E w Hw.
  destruct (power (this w)) eqn:Hp.
  - destruct (alarmActive (this w)) eqn:Ha.
    + rewrite (update_alarm_active dtSec E w Hp Ha). cbv zeta.
      destruct (Qltb _ 0.02); [rewrite clearAlarm_this|];
        unfold alarmTick, alarmState, alarmActive in *; cbn [this]; fields.
      * discriminate.
      * intros _. split; assumption.
    + rewrite (update_running dtSec E w Hp Ha).
      intros Hx. exfalso. revert Hx.
      apply (notAlarm_tickBody dtSec E).
      unfold tickStart. cbn [this]. fields.
      intros Hx. destruct (Hw Hx) as [_ Hy]. congruence.
  - rewrite (update_powered_off dtSec E w Hp).
    unfold poweredOffTick, alarmState. cbn [this]. fields. discriminate.
Qed.

Lemma alarmState_command c :
  match c with
  | InjectAlarm _ message => message <> ""%string
  | _ => True
  end ->
  inv alarmState (command c).
Proof.
  destruct c as [dtSec | state | code message |]; simpl; intros Hc.
  - apply alarmState_update.
  - intros E w Hw. unfold setPower. destruct state; sim_run;
      unfold alarmState, alarmActive in *; fields.
    + intros Hx. destruct (Hw Hx) as [_ Hy]. split; [reflexivity | exact Hy].
    + discriminate.
  - intros E w Hw. unfold injectAlarm. rewrite setAlarm_this.
    unfold alarmState, alarmActive in *. fields.
    intros Hx. destruct (Hw Hx) as [Hy _]. split; [exact Hy|].
    simpl. apply negb_true_iff, String.eqb_neq, Hc.
  - intros E w Hw. unfold clearAlarm. rewrite clearAlarm_this.
    unfold alarmState. fields. discriminate.
Qed.

(** A machine whose execution state is ALARM has its power on and an
    active alarm: from the construction on, after any sequence of
    commands whose injected alarms have a message.  (The converse fails:
    an alarm raised by the evaluation at the end of a tick is active
    while the execution state is still that of the cycle.) *)
Theorem alarm_state_has_active_alarm E id name model ty a d0 t0
    (cs : list Command) :
  injectsNamed cs ->
  let m := this (exec (commands cs) E
                   (HaasMachine_new id name model ty a E d0 t0)) in
  execution m = Exec.ALARM -> power m = true /\ alarmActive m = true.
Proof.
  intros Hcs. cbv zeta.
  change (alarmState (this (exec (commands cs) E
                              (HaasMachine_new id name model ty a E d0 t0)))).
  assert (Hi : alarmState (this (HaasMachine_new id name model ty a E d0 t0))).
  { apply (HaasMachine_new_inv alarmState); try (intros; assumption).
    unfold alarmState. simpl. discriminate. }
  revert Hi. generalize (HaasMachine_new id name model ty a E d0 t0).
  induction Hcs as [|c cs Hc Hcs IH]; simpl; intros w Hw; [exact Hw|].
  rewrite exec_bind. apply IH. apply (alarmState_command c Hc E w Hw).
Qed.

Lemma alarm_state_has_active_alarm_witness :
  let cs := [Tick 2; InjectAlarm (Some 103%Z) "X"; Tick 2] in
  let m := this (exec (commands cs) stubEnv (new_haas_vf2 stubEnv 0 0)) in
  injectsNamed cs /\ execution m = Exec.ALARM /\
  power m = true /\ alarmActive m = true.
Proof.
  cbv zeta.
  assert (H1 : injectsNamed [Tick 2; InjectAlarm (Some 103%Z) "X"; Tick 2])
    by (repeat constructor; discriminate).
  assert (H2 : execution
                 (this (exec (commands
                                [Tick 2; InjectAlarm (Some 103%Z) "X"; Tick 2])
                          stubEnv (new_haas_vf2 stubEnv 0 0))) = Exec.ALARM)
    by (vm_compute; reflexivity).
  split; [exact H1|]. split; [exact H2|].
  exact (alarm_state_has_active_alarm stubEnv "haas_vf2" "Haas VF-2" "VF-2"
           CNC_MILL
           (mkSpecsArg (Some (mkLimits (0, 762) (0, 406) (0, 508)))
              (Some 30) (Some 8100) (Some 1000) (Some 24%nat) None None)
           0 0 [Tick 2; InjectAlarm (Some 103%Z) "X"; Tick 2] H1 H2).
Defined.

(** * The server *)

(** ** Simulation loop *)

Definition SIM_UPDATE_PERIOD_MS : Q := 2000.

(** [Object.values(machines).forEach(machine => machine.update(dtSec))]:
    the machines are ticked one after the other, on the same stream of
    draws and clock reads. *)
Fixpoint updateAll (dtSec : Q) (machines : list Machine) (E : Env)
    (draws0 dates0 : nat) : list Machine * (nat * nat) :=
  match machines with
  | [] => ([], (draws0, dates0))
  | m :: rest =>
      let w := exec (update dtSec) E (mkWorld m draws0 dates0) in
      let r := updateAll dtSec rest E (draws w) (dates w) in
      (this w :: fst r, snd r)
  end.

(** The machines after one run of the interval callback. *)
Definition simulationStep (machines : list Machine) (E : Env)
    (draws0 dates0 : nat) : list Machine :=
  fst (updateAll (SIM_UPDATE_PERIOD_MS / 1000.0) machines E draws0 dates0).

(** ** Plant routes *)

Module PlantStatus.
Record t := mk {
  total : nat;
  running : nat;
  idle : nat;
  alarm : nat;
  stopped : nat;
  totalParts : Z;
  totalCycles : Z;
  avgProductionRate : option Z;
  timestamp : Z
}.
End PlantStatus.

(** [machineList.reduce((sum, m) => sum + f(m), 0)] *)
Definition sumZ (f : Machine -> Z) (machineList : list Machine) : Z :=
  foldl (fun sum m => (sum + f m)%Z) 0%Z machineList.

(** GET /api/plant/status, answered at the clock read [d].  The average
    of an empty fleet is not a number, which the answer carries as
    [null]. *)
Definition plantStatus (machineList : list Machine) (d : Z) : PlantStatus.t :=
  PlantStatus.mk
    (length machineList)
    (length (filter (fun m => execution m = Exec.RUNNING) machineList))
    (length (filter (fun m => execution m = Exec.IDLE) machineList))
    (length (filter (fun m => execution m = Exec.ALARM) machineList))
    (length (filter (fun m => power m = false) machineList))
    (sumZ partCount machineList)
    (sumZ totalCycles machineList)
    (match machineList with
     | [] => None
     | _ => Some (Math_round (inject_Z (sumZ productionRate machineList)
                              / inject_Z (Z.of_nat (length machineList))))
     end)
    d.

Module ActiveAlarm.
Record t := mk {
  machineId : string;
  machineName : string;
  model : string;
  alarmCode : option Z;
  alarm : option string;
  execution : Exec.t;
  timestamp : Z
}.
End ActiveAlarm.

(** GET /api/plant/alarms: the machines whose alarm is set, in the order
    of the fleet; the count of the answer is the length of the list. *)
Definition plantAlarms (machineList : list Machine) : list ActiveAlarm.t :=
  (fun machine =>
     ActiveAlarm.mk (id machine) (name machine) (model machine)
       (alarmCode machine) (alarm machine) (execution machine)
       (timestamp machine))
  <$> filter (fun machine => alarmActive machine = true) machineList.

(** ** Uptime analytics *)

Module Uptime.
Record t := mk {
  id : string;
  name : string;
  model : string;
  uptime : Z;
  machineOnHours : Q;
  spindleHours : Q;
  utilizationRate : Z
}.
End Uptime.

(** One entry of GET /api/analytics/uptime. *)
Definition uptimeOf (m : Machine) : Uptime.t :=
  let uptime :=
    if power m
    then (if bool_decide (execution m = Exec.RUNNING) then 100 else 50)%Z
    else 0%Z in
  Uptime.mk (id m) (name m) (model m) uptime
    (toFixed 2 (machineOnHours m)) (toFixed 2 (spindleHours m))
    (if Qgtb (machineOnHours m) 0
     then Math_round ((spindleHours m / machineOnHours m) * 100)
     else 0%Z).

(** ** Properties of the plant routes *)

Lemma updateAll_Forall (P R : Machine -> Prop) dtSec :
  hoare P (update dtSec) R ->
  forall machines E d0 t0,
    Forall P machines ->
    Forall R (fst (updateAll dtSec machines E d0 t0)).
Proof.
  intros Hu machines E. induction machines as [|m rest IH];
    intros d0 t0 Hms; simpl.
  - constructor.
  - inversion Hms as [|? ? Hm Hrest]; subst. constructor.
    + apply (Hu E (mkWorld m d0 t0)). exact Hm.
    + apply IH, Hrest.
Qed.

Lemma updateAll_length dtSec machines E d0 t0 :
  length (fst (updateAll dtSec machines E d0 t0)) = length machines.
Proof.
  revert d0 t0. induction machines as [|m rest IH]; intros d0 t0; simpl.
  - reflexivity.
  - rewrite IH. reflexivity.
Qed.

Lemma status_partition (machineList : list Machine) :
  Forall (fun m => execution m = Exec.STOPPED <-> power m = false)
         machineList ->
  (length (filter (fun m => execution m = Exec.RUNNING) machineList)
   + length (filter (fun m => execution m = Exec.IDLE) machineList)
   + length (filter (fun m => execution m = Exec.ALARM) machineList)
   + length (filter (fun m => power m = false) machineList)
   = length machineList)%nat.
Proof.
  induction 1 as [|m l [H1 H2] Hl IH]; [reflexivity|].
  rewrite !filter_cons.
  destruct (execution m) eqn:He; destruct (power m) eqn:Hp;
    repeat case_decide; try congruence; simpl; try lia;
    try (exfalso; specialize (H1 eq_refl); congruence);
    try (exfalso; specialize (H2 eq_refl); congruence).
Qed.

(** Asked right after a run of the simulation loop, the plant status
    counts every machine exactly once: running, idle, alarm and stopped
    add up to the total, which is the size of the fleet before the run.
    This holds for a fleet none of whose mills and lathes is in the
    phase RUNNING, as is the case of every machine built by the
    constructor and driven by commands. *)
Theorem plant_status_counts_add_up (machines : list Machine) E draws0 dates0
    (d : Z) :
  Forall (fun m => cncPhase (type m) m) machines ->
  let s := plantStatus (simulationStep machines E draws0 dates0) d in
  (PlantStatus.running s + PlantStatus.idle s + PlantStatus.alarm s
   + PlantStatus.stopped s = PlantStatus.total s)%nat /\
  PlantStatus.total s = length machines.
Proof.
  intros Hms. cbv zeta. unfold plantStatus, simulationStep. simpl.
  split; [|apply updateAll_length].
  apply status_partition.
  apply (updateAll_Forall (fun m => cncPhase (type m) m)); [|exact Hms].
  intros E' w Hw. apply (stopped_iff_update (type (this w)) _ E' w Hw).
Qed.

Lemma plant_status_counts_add_up_witness :
  let machines := [this (haas_vf2 stubEnv 0 0);
                   this (exec (setPower false) stubEnv
                           (durma_press stubEnv 0 0))] in
  Forall (fun m => cncPhase (type m) m) machines /\
  PlantStatus.total (plantStatus (simulationStep machines stubEnv 0 0) 0)
  = 2%nat.
Proof.
  cbv zeta.
  assert (H : Forall (fun m => cncPhase (type m) m)
                [this (haas_vf2 stubEnv 0 0);
                 this (exec (setPower false) stubEnv
                         (durma_press stubEnv 0 0))]).
  { constructor; [|constructor; [|constructor]];
      (split; [reflexivity | intros _; vm_compute; discriminate]). }
  split; [exact H|].
  exact (proj2 (plant_status_counts_add_up _ stubEnv 0 0 0 H)).
Defined.

(** The status route never counts more machines in ALARM than the alarms
    route lists, when every machine in the execution state ALARM has an
    active alarm; a machine whose
    alarm was raised at the end of its last tick is listed by the one
    and not yet counted by the other. *)
Theorem status_alarms_within_active_alarms (machineList : list Machine)
    (d : Z) :
  Forall alarmState machineList ->
  (PlantStatus.alarm (plantStatus machineList d)
   <= length (plantAlarms machineList))%nat.
Proof.
  intros Hms. unfold plantStatus, plantAlarms. simpl.
  rewrite length_fmap.
  induction Hms as [|m l Hm Hl IH]; [reflexivity|].
  rewrite !filter_cons.
  destruct (decide (execution m = Exec.ALARM)) as [He|He].
  - destruct (Hm He) as [_ Ha].
    destruct (decide (alarmActive m = true)); [simpl; lia | contradiction].
  - destruct (decide (alarmActive m = true)); simpl; lia.
Qed.

Lemma status_alarms_within_active_alarms_witness :
  let machineList :=
    [this (exec (commands [InjectAlarm None "X"; Tick 2]) stubEnv
             (haas_vf2 stubEnv 0 0))] in
  Forall alarmState machineList /\
  (PlantStatus.alarm (plantStatus machineList 0)
   <= length (plantAlarms machineList))%nat.
Proof.
  cbv zeta.
  assert (H : Forall alarmState
                [this (exec (commands [InjectAlarm None "X"; Tick 2]) stubEnv
                         (haas_vf2 stubEnv 0 0))]).
  { constructor; [|constructor]. intros _. split; vm_compute; reflexivity. }
  split; [exact H|].
  exact (status_alarms_within_active_alarms _ 0 H).
Defined.

(** ** Properties of the uptime analytics *)

Lemma spindleHours_nonneg_command c :
  match c with Tick dtSec => 0 <= dtSec | _ => True end ->
  inv (fun m => 0 <= spindleHours m) (command c).
Proof.
  destruct c as [dtSec| | |]; simpl; intros Hc; inv_walk.
  all: fields; try assumption.
  all: assert (0 <= dtSec / 3600.0) by (apply Qle_shift_div_l; lra); lra.
Qed.

Lemma Math_round_percent (q : Q) :
  0 <= q -> q <= 1 -> (0 <= Math_round (q * 100) <= 100)%Z.
Proof.
  intros H0 H1. unfold Math_round.
  assert (H : (0 <= Qfloor (q * 100 + 1 / 2) < 101)%Z).
  { apply Qfloor_between;
      [change (inject_Z 0) with 0 | change (inject_Z 101) with 101];
      change (1 / 2) with (1 # 2); lra. }
  lia.
Qed.

(** The utilization rate of the uptime analytics is a whole number from
    0 to 100, for a machine driven from its construction by commands
    whose ticks have a length of 0 or more: the spindle hours lie
    between 0 and the on-hours. *)
Theorem utilization_rate_in_range E id name model ty a d0 t0
    (cs : list Command) :
  ticksNonneg cs ->
  let m := this (exec (commands cs) E
                   (HaasMachine_new id name model ty a E d0 t0)) in
  (0 <= Uptime.utilizationRate (uptimeOf m) <= 100)%Z.
Proof.
  intros Hcs m.
  assert (H0 : 0 <= spindleHours m).
  { subst m. clear -Hcs.
    assert (Hi : (fun m => 0 <= spindleHours m)
                   (this (HaasMachine_new id name model ty a E d0 t0))).
    { apply HaasMachine_new_inv; try (intros; assumption). simpl. lra. }
    revert Hi. generalize (HaasMachine_new id name model ty a E d0 t0).
    induction Hcs as [|c cs Hc Hcs IH]; simpl; intros w Hw; [exact Hw|].
    rewrite exec_bind. apply IH.
    apply (spindleHours_nonneg_command c Hc E w Hw). }
  assert (Hle : hoursOK m).
  { apply (commands_hours E cs Hcs).
    apply (HaasMachine_new_inv hoursOK); try (intros; assumption).
    unfold hoursOK. simpl. lra. }
  unfold hoursOK in Hle. unfold uptimeOf. cbv zeta. simpl.
  destruct (Qgtb (machineOnHours m) 0) eqn:Hon; [|lia].
  apply Qltb_lt in Hon.
  apply Math_round_percent.
  - apply Qle_shift_div_l; lra.
  - apply Qle_shift_div_r; lra.
Qed.

Lemma utilization_rate_in_range_witness :
  let cs := [Tick 5; Tick 5; InjectAlarm None "X"; Tick 5] in
  ticksNonneg cs /\
  (0 <= Uptime.utilizationRate
          (uptimeOf (this (exec (commands cs) stubEnv
                             (new_haas_vf2 stubEnv 0 0)))) <= 100)%Z.
Proof.
  cbv zeta.
  assert (H : ticksNonneg [Tick 5; Tick 5; InjectAlarm None "X"; Tick 5]).
  { repeat constructor; vm_compute; discriminate. }
  split; [exact H|].
  exact (utilization_rate_in_range stubEnv "haas_vf2" "Haas VF-2" "VF-2"
           CNC_MILL
           (mkSpecsArg (Some (mkLimits (0, 762) (0, 406) (0, 508)))
              (Some 30) (Some 8100) (Some 1000) (Some 24%nat) None None)
           0 0 [Tick 5; Tick 5; InjectAlarm None "X"; Tick 5] H).
Defined.

(** ** The tool in the spindle *)

(** A tool [t] as tool [t0] can have become: cutting lowers the life, not
    below 0, and counts the cuts; nothing else of a tool changes apart
    from the in-use flag. *)
Definition wornFrom (t0 t : Tool.t) : Prop :=
  Tool.number t = Tool.number t0 /\ Tool.type t = Tool.type t0 /\
  Tool.diameter t = Tool.diameter t0 /\ Tool.length t = Tool.length t0 /\
  Tool.maxLife t = Tool.maxLife t0 /\ Tool.flutes t = Tool.flutes t0 /\
  Tool.coating t = Tool.coating t0 /\
  Tool.description t = Tool.description t0 /\
  (0 <= Tool.currentLife t /\ Tool.currentLife t <= Tool.currentLife t0) /\
  (Tool.totalCuts t0 <= Tool.totalCuts t)%Z.

(** The tool list of a machine whose list was [tools0] at construction:
    the first tool worn, the others untouched. *)
Definition toolsFrame (tools0 : option (list Tool.t)) (m : Machine) : Prop :=
  toolChangeCount m = 0%Z /\
  match tools0 with
  | Some (t0 :: rest0) =>
      currentTool m = Some 1%nat /\
      exists t, tools m = Some (t :: rest0) /\ wornFrom t0 t
  | Some [] => currentTool m = Some 1%nat /\ tools m = Some []
  | None => currentTool m = None /\ tools m = None
  end.

(** The tool in the spindle and the tools of a machine as built. *)
Lemma HaasMachine_new_toolbox E id name model ty a d0 t0 :
  validEnv E ->
  let w := HaasMachine_new id name model ty a E d0 t0 in
  currentTool (this w) = (if isCNC ty then Some 1%nat else None) /\
  match tools (this w) with
  | Some ts => isCNC ty = true /\ Forall freshTool ts
  | None => isCNC ty = false
  end.
Proof.
  intros HE w. subst w. unfold HaasMachine_new, _initializeTools.
  destruct ty; sim_run; unfold blankMachine;
    repeat (progress (cbn [fst snd this draws dates isCNC when];
                      sim_run; fields)).
  3,4: split; reflexivity.
  all: match goal with
       | |- context [pushTools ?n ?i ?E' ?w] =>
           destruct (pushTools_spec n i E' w) as (Hw & _ & Hf);
           cbv zeta in Hw, Hf; rewrite Hw; cbn [this draws dates]
       end;
    repeat split; auto.
Qed.

Lemma invV_frame_modifyTool tools0 (f : Tool.t -> Tool.t) :
  (forall t0 t, wornFrom t0 t -> wornFrom t0 (f t)) ->
  invV (toolsFrame tools0) (modifyTool f).
Proof.
  intros Hf E w _ Hw. unfold modifyTool, modify, exec. cbn [snd this].
  destruct Hw as [Hn Hw]. unfold toolsFrame, activeTool.
  destruct tools0 as [[|t0 rest0]|].
  - destruct Hw as [Hc Ht]. rewrite Hc, Ht. simpl. auto.
  - destruct Hw as [Hc (t & Ht & Hr)]. rewrite Hc, Ht. simpl. fields.
    split; [exact Hn|]. split; [exact Hc|].
    exists (f t). split; [reflexivity | apply Hf, Hr].
  - destruct Hw as [Hc Ht]. rewrite Hc, Ht. simpl. auto.
Qed.

Ltac frame_ext :=
  idtac;
  lazymatch goal with
  | |- invV _ (modifyTool _) =>
      apply invV_frame_modifyTool;
      let t0 := fresh "t0" in let t := fresh "t" in let Ht := fresh "Ht" in
      intros t0 t Ht; unfold wornFrom in *; simpl;
      repeat match goal with
             | H : _ /\ _ |- _ => destruct H
             end;
      repeat split; try assumption; try lia; clamps
  end.

Lemma invV_frame_command tools0 c : invV (toolsFrame tools0) (command c).
Proof.
  destruct c; simpl; invV_walk frame_ext.
  all: unfold toolsFrame in *; fields; assumption.
Qed.

(** No tool change ever takes place.  After any sequence of commands,
    for draws in [0, 1), the tool in the spindle is the one the
    constructor put there (tool 1 on a mill or lathe, none elsewhere)
    and the count of tool changes is 0; the tool list has the length it
    was built with, every tool but the first is exactly as built, and
    the first tool differs from its built state only in its in-use flag,
    in a life that is at most the built one and at least 0, and in a
    count of cuts that is at least the built one. *)
Theorem only_first_tool_wears E id name model ty a d0 t0
    (cs : list Command) :
  validEnv E ->
  let m0 := this (HaasMachine_new id name model ty a E d0 t0) in
  let m := this (exec (commands cs) E
                   (HaasMachine_new id name model ty a E d0 t0)) in
  currentTool m = currentTool m0 /\ toolChangeCount m = 0%Z /\
  match tools m0, tools m with
  | Some ts0, Some ts =>
      length ts = length ts0 /\ drop 1 ts = drop 1 ts0 /\
      forall t0 t, head ts0 = Some t0 -> head ts = Some t -> wornFrom t0 t
  | None, None => True
  | _, _ => False
  end.
Proof.
  intros HE m0 m.
  assert (H : toolsFrame (tools m0) m).
  { subst m.
    assert (Hi : toolsFrame (tools m0)
                   (this (HaasMachine_new id name model ty a E d0 t0))).
    { fold m0.
      destruct (HaasMachine_new_toolbox E id name model ty a d0 t0 HE)
        as (Hc & Ht). fold m0 in Hc, Ht.
      assert (Hn : toolChangeCount m0 = 0%Z).
      { subst m0.
        apply (HaasMachine_new_inv (fun m => toolChangeCount m = 0%Z));
          try (intros; assumption). reflexivity. }
      unfold toolsFrame. split; [exact Hn|].
      destruct (tools m0) as [[|t1 rest]|].
      - destruct Ht as [Hty _]. rewrite Hty in Hc. auto.
      - destruct Ht as (Hty & Hf). rewrite Hty in Hc.
        split; [exact Hc|]. exists t1. split; [reflexivity|].
        inversion Hf as [|? ? Hf1 _]; subst.
        destruct Hf1 as (_ & _ & [Hl _] & _).
        unfold wornFrom. repeat split; try reflexivity; lra.
      - rewrite Ht in Hc. auto. }
    revert Hi. generalize (HaasMachine_new id name model ty a E d0 t0).
    induction cs as [|c cs IH]; simpl; intros w Hw; [exact Hw|].
    rewrite exec_bind. apply IH.
    apply (invV_frame_command (tools m0) c E w HE Hw). }
  destruct H as [Hn H].
  destruct (HaasMachine_new_toolbox E id name model ty a d0 t0 HE)
    as (Hc & Ht). fold m0 in Hc, Ht.
  destruct (tools m0) as [[|t1 rest]|].
  - destruct H as [Hcur Hts]. destruct Ht as [Hty _]. rewrite Hty in Hc.
    rewrite Hts. split; [congruence|]. split; [exact Hn|].
    split; [reflexivity|]. split; [reflexivity|]. intros ? ? [=].
  - destruct H as [Hcur (t & Hts & Hr)]. destruct Ht as [Hty _].
    rewrite Hty in Hc. rewrite Hts.
    split; [congruence|]. split; [exact Hn|].
    split; [reflexivity|]. split; [reflexivity|].
    simpl. intros ? ? [= <-] [= <-]. exact Hr.
  - destruct H as [Hcur Hts]. rewrite Ht in Hc. rewrite Hts.
    split; [congruence|]. split; [exact Hn | exact Logic.I].
Qed.

Lemma only_first_tool_wears_witness :
  validEnv stubEnv /\
  toolChangeCount
    (this (exec (commands [Tick 5; Tick 5; Tick 5]) stubEnv
             (new_haas_vf2 stubEnv 0 0))) = 0%Z.
Proof.
  split; [exact validEnv_stubEnv|].
  pose proof (only_first_tool_wears stubEnv "haas_vf2" "Haas VF-2" "VF-2"
                CNC_MILL
                (mkSpecsArg (Some (mkLimits (0, 762) (0, 406) (0, 508)))
                   (Some 30) (Some 8100) (Some 1000) (Some 24%nat) None None)
                0 0 [Tick 5; Tick 5; Tick 5] validEnv_stubEnv) as H.
  cbv zeta in H. destruct H as (_ & H & _). exact H.
Defined.

(** ** Coolant and oil *)

Definition coolantInRange (c : Coolant.t) : Prop :=
  (0 <= Coolant.level c /\ Coolant.level c <= 100) /\
  (45 <= Coolant.pressure c /\ Coolant.pressure c <= 60) /\
  (72 <= Coolant.temperature c /\ Coolant.temperature c <= 87) /\
  (0 <= Coolant.flow c /\ Coolant.flow c <= 8).

Definition fluidsOK (ty : MachineType) (m : Machine) : Prop :=
  (45 <= oilPressure m /\ oilPressure m <= 55) /\
  match coolant m with
  | Some c => isCNC ty = true /\ coolantInRange c
  | None => isCNC ty = false
  end.

Lemma invV_fluids_modifyCoolant ty (f : Coolant.t -> Coolant.t) :
  (forall c, coolantInRange c -> coolantInRange (f c)) ->
  invV (fluidsOK ty) (modifyCoolant f).
Proof.
  intros Hf E w _ [Ho Hc]. unfold modifyCoolant, modify, exec.
  cbn [snd this]. unfold fluidsOK.
  destruct (coolant (this w)) as [c|] eqn:Hcool.
  - fields. destruct Hc as [Hty Hc].
    split; [exact Ho|]. split; [exact Hty | apply Hf, Hc].
  - rewrite Hcool. split; [exact Ho | exact Hc].
Qed.

Ltac fluids_ext :=
  idtac;
  lazymatch goal with
  | |- invV _ (modifyCoolant _) =>
      apply invV_fluids_modifyCoolant;
      let c := fresh "c" in let Hc := fresh "Hc" in
      intros c Hc; unfold coolantInRange in *; simpl;
      repeat match goal with
             | H : _ /\ _ |- _ => destruct H
             end;
      repeat split; try assumption; clamps
  end.

Lemma invV_fluids_command ty c : invV (fluidsOK ty) (command c).
Proof.
  destruct c; simpl; invV_walk fluids_ext.
  all: unfold fluidsOK in *; fields;
    repeat match goal with
           | H : _ /\ _ |- _ => destruct H
           end;
    repeat split; try assumption; lra.
Qed.

(** The oil pressure of a machine stays between 45 and 55, and the
    coolant of a mill or lathe keeps a level between 0 and 100, a
    pressure between 45 and 60, a temperature between 72 and 87 and a
    flow between 0 and 8; machines of the other types never get a
    coolant.  This holds from the construction on, after any sequence
    of commands (ticks of any length), for draws in [0, 1). *)
Theorem coolant_and_oil_in_range E id name model ty a d0 t0
    (cs : list Command) :
  validEnv E ->
  let m := this (exec (commands cs) E
                   (HaasMachine_new id name model ty a E d0 t0)) in
  (45 <= oilPressure m /\ oilPressure m <= 55) /\
  match coolant m with
  | Some c => isCNC ty = true /\ coolantInRange c
  | None => isCNC ty = false
  end.
Proof.
  intros HE m.
  change (fluidsOK ty m). subst m.
  assert (Hi : fluidsOK ty
                 (this (HaasMachine_new id name model ty a E d0 t0))).
  { apply (HaasMachine_new_inv (fluidsOK ty)); try (intros; assumption).
    unfold fluidsOK, coolantInRange. simpl.
    destruct ty; simpl; repeat split; lra. }
  revert Hi. generalize (HaasMachine_new id name model ty a E d0 t0).
  induction cs as [|c cs IH]; simpl; intros w Hw; [exact Hw|].
  rewrite exec_bind. apply IH.
  apply (invV_fluids_command ty c E w HE Hw).
Qed.

Lemma coolant_and_oil_in_range_witness :
  validEnv stubEnv /\
  oilPressure (this (exec (commands [Tick 5; Tick 5; Tick 5]) stubEnv
                       (new_haas_vf2 stubEnv 0 0))) <= 55.
Proof.
  split; [exact validEnv_stubEnv|].
  pose proof (coolant_and_oil_in_range stubEnv "haas_vf2" "Haas VF-2" "VF-2"
                CNC_MILL
                (mkSpecsArg (Some (mkLimits (0, 762) (0, 406) (0, 508)))
                   (Some 30) (Some 8100) (Some 1000) (Some 24%nat) None None)
                0 0 [Tick 5; Tick 5; Tick 5] validEnv_stubEnv) as H.
  cbv zeta in H. destruct H as ((_ & H) & _). exact H.
Defined.
